(** * EventBus (src/src/event-bus.js): channels, instant events, timers

    A shallow embedding of the static class [EventBus] and of the host
    facilities it calls (Web Storage, [setTimeout]/[clearTimeout],
    [Date.now], [JSON], [console]).

    Modelling conventions.
    - JavaScript values are the type [Value]; numbers are integers (no NaN,
      no fractions), objects and arrays are opaque references.
    - A user supplied function (hook, subscriber, listener) is a [jsfun]: a
      reference identity [fn_id] and the completion it produces for given
      arguments.  User functions do not call back into the bus.
    - Objects that the source shares by reference (channel objects, the
      [Set]s of wrapped listeners, the closure environment of every [on]
      call) live in stores indexed by reference, so that a closure that
      captured an object keeps acting on that very object.
    - Statements run in the monad [M]: state passing over [Bus] with
      JavaScript exceptions ([Abrupt]) and [try]/[catch].
    - Everything observable (calls of user functions, console output) is
      appended to [trace], stamped with the clock reading. *)

From stdpp Require Import base option list gmap strings numbers pretty sorting.
From Stdlib Require Import Ascii.

Local Open Scope Z_scope.

(** ** JavaScript values *)

Inductive Value :=
| VUndefined
| VNull
| VBool (b : bool)
| VNumber (n : Z)
| VString (s : string)
| VObject (ref : nat).

#[global] Instance Value_eq_dec : EqDecision Value.
Proof. solve_decision. Defined.

(** [!!v] of JavaScript. *)
Definition truthy (v : Value) : bool :=
  match v with
  | VUndefined | VNull => false
  | VBool b => b
  | VNumber n => negb (n =? 0)
  | VString s => match s with EmptyString => false | _ => true end
  | VObject _ => true
  end.

(** [a === b] on the modelled values. *)
Definition strict_eq (a b : Value) : bool := bool_decide (a = b).

(** [v !== undefined && v !== null]. *)
Definition non_absent (v : Value) : bool :=
  negb (strict_eq v VUndefined) && negb (strict_eq v VNull).

(** Truthiness of an optional numeric option such as [ttl] or [debounce]. *)
Definition truthy_num (o : option Z) : bool :=
  match o with
  | Some n => negb (n =? 0)
  | None => false
  end.

Inductive outcome := Returns (v : Value) | Throws (e : Value).

Record jsfun := { fn_id : nat; fn_call : list Value -> outcome }.

Definition same_fn (f g : jsfun) : bool := bool_decide (fn_id f = fn_id g).

(** Result of [JSON.stringify]. *)
Inductive json_text := JsonText (s : string) | JsonUndefined | JsonThrows (e : Value).

(** ** Configuration objects *)

Inductive StorageMode := memory | session | local.

#[global] Instance StorageMode_eq_dec : EqDecision StorageMode.
Proof. solve_decision. Defined.

Module Config.
Record t := {
  initialValue : Value;
  storage : option StorageMode;
  storageKey : option string;
  ttl : option Z;
  autoCleanup : bool;
  validate : option jsfun;
  transform : option jsfun;
  onChange : option jsfun;
  onInit : option jsfun;
  onClear : option jsfun;
  debounce : option Z;
  throttle : option Z
}.

(** The object literal [{ initialValue: Value }]. *)
Definition only_initialValue (v : Value) : t :=
  {| initialValue := v; storage := None; storageKey := None; ttl := None;
     autoCleanup := false; validate := None; transform := None;
     onChange := None; onInit := None; onClear := None;
     debounce := None; throttle := None |}.
End Config.

Module Options.
Record t := {
  validate : option jsfun;
  transform : option jsfun;
  debounce : option Z;
  throttle : option Z;
  once : bool
}.

(** The object literal [{ once: true }]. *)
Definition only_once : t :=
  {| validate := None; transform := None; debounce := None;
     throttle := None; once := true |}.
End Options.

(** [config?.field] *)
Definition opt_field {C A} (p : C -> option A) (c : option C) : option A :=
  match c with
  | Some c => p c
  | None => None
  end.

(** [options?.once] *)
Definition opt_flag {C} (p : C -> bool) (c : option C) : bool :=
  match c with
  | Some c => p c
  | None => false
  end.

(** ** Objects *)

Definition ref := nat.

Record Channel := {
  signal : Value;
  storage : StorageMode;
  storageKey : string;
  subscribers : list jsfun;
  ttl : option Z;
  autoCleanup : bool;
  createdAt : Z;
  config : option Config.t;
  isInitialized : bool;
  timeoutId : option positive;
  onChangeDebounceTimer : option positive;
  onChangeLastCall : option Z
}.

Definition set_signal (v : Value) (c : Channel) : Channel :=
  {| signal := v; storage := storage c; storageKey := storageKey c;
     subscribers := subscribers c; ttl := ttl c; autoCleanup := autoCleanup c;
     createdAt := createdAt c; config := config c;
     isInitialized := isInitialized c; timeoutId := timeoutId c;
     onChangeDebounceTimer := onChangeDebounceTimer c;
     onChangeLastCall := onChangeLastCall c |}.

Definition set_subscribers (l : list jsfun) (c : Channel) : Channel :=
  {| signal := signal c; storage := storage c; storageKey := storageKey c;
     subscribers := l; ttl := ttl c; autoCleanup := autoCleanup c;
     createdAt := createdAt c; config := config c;
     isInitialized := isInitialized c; timeoutId := timeoutId c;
     onChangeDebounceTimer := onChangeDebounceTimer c;
     onChangeLastCall := onChangeLastCall c |}.

Definition set_isInitialized (b : bool) (c : Channel) : Channel :=
  {| signal := signal c; storage := storage c; storageKey := storageKey c;
     subscribers := subscribers c; ttl := ttl c; autoCleanup := autoCleanup c;
     createdAt := createdAt c; config := config c;
     isInitialized := b; timeoutId := timeoutId c;
     onChangeDebounceTimer := onChangeDebounceTimer c;
     onChangeLastCall := onChangeLastCall c |}.

Definition set_timeoutId (o : option positive) (c : Channel) : Channel :=
  {| signal := signal c; storage := storage c; storageKey := storageKey c;
     subscribers := subscribers c; ttl := ttl c; autoCleanup := autoCleanup c;
     createdAt := createdAt c; config := config c;
     isInitialized := isInitialized c; timeoutId := o;
     onChangeDebounceTimer := onChangeDebounceTimer c;
     onChangeLastCall := onChangeLastCall c |}.

Definition set_onChangeDebounceTimer (o : option positive) (c : Channel) : Channel :=
  {| signal := signal c; storage := storage c; storageKey := storageKey c;
     subscribers := subscribers c; ttl := ttl c; autoCleanup := autoCleanup c;
     createdAt := createdAt c; config := config c;
     isInitialized := isInitialized c; timeoutId := timeoutId c;
     onChangeDebounceTimer := o;
     onChangeLastCall := onChangeLastCall c |}.

Definition set_onChangeLastCall (o : option Z) (c : Channel) : Channel :=
  {| signal := signal c; storage := storage c; storageKey := storageKey c;
     subscribers := subscribers c; ttl := ttl c; autoCleanup := autoCleanup c;
     createdAt := createdAt c; config := config c;
     isInitialized := isInitialized c; timeoutId := timeoutId c;
     onChangeDebounceTimer := onChangeDebounceTimer c;
     onChangeLastCall := o |}.

(** The closure environment of one call of [on]: its arguments, the [Set]
    object it captured in [listeners], and its three [let] variables. *)
Record Registration := {
  eventName : string;
  listener : jsfun;
  options : option Options.t;
  listeners : ref;
  debounceTimer : option positive;
  lastCallTime : Z;
  hasExecuted : bool
}.

Definition set_debounceTimer (o : option positive) (r : Registration) : Registration :=
  {| eventName := eventName r; listener := listener r; options := options r;
     listeners := listeners r; debounceTimer := o;
     lastCallTime := lastCallTime r; hasExecuted := hasExecuted r |}.

Definition set_lastCallTime (t : Z) (r : Registration) : Registration :=
  {| eventName := eventName r; listener := listener r; options := options r;
     listeners := listeners r; debounceTimer := debounceTimer r;
     lastCallTime := t; hasExecuted := hasExecuted r |}.

Definition set_hasExecuted (b : bool) (r : Registration) : Registration :=
  {| eventName := eventName r; listener := listener r; options := options r;
     listeners := listeners r; debounceTimer := debounceTimer r;
     lastCallTime := lastCallTime r; hasExecuted := b |}.

(** ** Timers and the console *)

(** The three closures the source hands to [setTimeout]. *)
Inductive Closure :=
| TtlExpiry (channelName : string)
| ExecuteCallback (channelName : string) (onChange : jsfun) (newValue oldValue : Value)
| ExecuteListener (registration : ref) (transformedData : Value).

Record Timer := { timer_id : positive; due : Z; callback : Closure }.

(** Call sites of user functions. *)
Inductive Site :=
| SValidate | STransform | SOnInit | SOnChange | SOnClear | SSubscriber
| SEventValidate | SEventTransform | SListener | SStorage | STimer.

#[global] Instance Site_eq_dec : EqDecision Site.
Proof. solve_decision. Defined.

Inductive Event :=
| Invoke (site : Site) (name : string) (f : nat) (args : list Value)
| ConsoleWarn (name : string) (v : Value)
| ConsoleError (site : Site) (name : string) (e : Value)
| ConsoleLog (msg : string).

#[global] Instance Event_eq_dec : EqDecision Event.
Proof. solve_decision. Defined.

(** ** The page: static fields of [EventBus] and host state *)

Record Bus := {
  (* static fields of the class *)
  channels : gmap string ref;
  initialized : bool;
  eventListeners : gmap string ref;
  (* object stores *)
  channelObjects : gmap ref Channel;
  setObjects : gmap ref (list ref);
  registrations : gmap ref Registration;
  nextRef : ref;
  (* host *)
  timers : list Timer;
  nextTimer : positive;
  sessionStorage : gmap string string;
  localStorage : gmap string string;
  JSON_stringify : Value -> json_text;
  JSON_parse : string -> outcome;
  clock : Z;
  trace : list (Z * Event)
}.

Definition set_channels (x : gmap string ref) (s : Bus) : Bus :=
  {| channels := x; initialized := initialized s; eventListeners := eventListeners s;
     channelObjects := channelObjects s; setObjects := setObjects s;
     registrations := registrations s; nextRef := nextRef s; timers := timers s;
     nextTimer := nextTimer s; sessionStorage := sessionStorage s;
     localStorage := localStorage s; JSON_stringify := JSON_stringify s;
     JSON_parse := JSON_parse s; clock := clock s; trace := trace s |}.

Definition set_initialized (x : bool) (s : Bus) : Bus :=
  {| channels := channels s; initialized := x; eventListeners := eventListeners s;
     channelObjects := channelObjects s; setObjects := setObjects s;
     registrations := registrations s; nextRef := nextRef s; timers := timers s;
     nextTimer := nextTimer s; sessionStorage := sessionStorage s;
     localStorage := localStorage s; JSON_stringify := JSON_stringify s;
     JSON_parse := JSON_parse s; clock := clock s; trace := trace s |}.

Definition set_eventListeners (x : gmap string ref) (s : Bus) : Bus :=
  {| channels := channels s; initialized := initialized s; eventListeners := x;
     channelObjects := channelObjects s; setObjects := setObjects s;
     registrations := registrations s; nextRef := nextRef s; timers := timers s;
     nextTimer := nextTimer s; sessionStorage := sessionStorage s;
     localStorage := localStorage s; JSON_stringify := JSON_stringify s;
     JSON_parse := JSON_parse s; clock := clock s; trace := trace s |}.

Definition set_channelObjects (x : gmap ref Channel) (s : Bus) : Bus :=
  {| channels := channels s; initialized := initialized s; eventListeners := eventListeners s;
     channelObjects := x; setObjects := setObjects s;
     registrations := registrations s; nextRef := nextRef s; timers := timers s;
     nextTimer := nextTimer s; sessionStorage := sessionStorage s;
     localStorage := localStorage s; JSON_stringify := JSON_stringify s;
     JSON_parse := JSON_parse s; clock := clock s; trace := trace s |}.

Definition set_setObjects (x : gmap ref (list ref)) (s : Bus) : Bus :=
  {| channels := channels s; initialized := initialized s; eventListeners := eventListeners s;
     channelObjects := channelObjects s; setObjects := x;
     registrations := registrations s; nextRef := nextRef s; timers := timers s;
     nextTimer := nextTimer s; sessionStorage := sessionStorage s;
     localStorage := localStorage s; JSON_stringify := JSON_stringify s;
     JSON_parse := JSON_parse s; clock := clock s; trace := trace s |}.

Definition set_registrations (x : gmap ref Registration) (s : Bus) : Bus :=
  {| channels := channels s; initialized := initialized s; eventListeners := eventListeners s;
     channelObjects := channelObjects s; setObjects := setObjects s;
     registrations := x; nextRef := nextRef s; timers := timers s;
     nextTimer := nextTimer s; sessionStorage := sessionStorage s;
     localStorage := localStorage s; JSON_stringify := JSON_stringify s;
     JSON_parse := JSON_parse s; clock := clock s; trace := trace s |}.

Definition set_nextRef (x : ref) (s : Bus) : Bus :=
  {| channels := channels s; initialized := initialized s; eventListeners := eventListeners s;
     channelObjects := channelObjects s; setObjects := setObjects s;
     registrations := registrations s; nextRef := x; timers := timers s;
     nextTimer := nextTimer s; sessionStorage := sessionStorage s;
     localStorage := localStorage s; JSON_stringify := JSON_stringify s;
     JSON_parse := JSON_parse s; clock := clock s; trace := trace s |}.

Definition set_timers (x : list Timer) (s : Bus) : Bus :=
  {| channels := channels s; initialized := initialized s; eventListeners := eventListeners s;
     channelObjects := channelObjects s; setObjects := setObjects s;
     registrations := registrations s; nextRef := nextRef s; timers := x;
     nextTimer := nextTimer s; sessionStorage := sessionStorage s;
     localStorage := localStorage s; JSON_stringify := JSON_stringify s;
     JSON_parse := JSON_parse s; clock := clock s; trace := trace s |}.

Definition set_nextTimer (x : positive) (s : Bus) : Bus :=
  {| channels := channels s; initialized := initialized s; eventListeners := eventListeners s;
     channelObjects := channelObjects s; setObjects := setObjects s;
     registrations := registrations s; nextRef := nextRef s; timers := timers s;
     nextTimer := x; sessionStorage := sessionStorage s;
     localStorage := localStorage s; JSON_stringify := JSON_stringify s;
     JSON_parse := JSON_parse s; clock := clock s; trace := trace s |}.

Definition set_sessionStorage (x : gmap string string) (s : Bus) : Bus :=
  {| channels := channels s; initialized := initialized s; eventListeners := eventListeners s;
     channelObjects := channelObjects s; setObjects := setObjects s;
     registrations := registrations s; nextRef := nextRef s; timers := timers s;
     nextTimer := nextTimer s; sessionStorage := x;
     localStorage := localStorage s; JSON_stringify := JSON_stringify s;
     JSON_parse := JSON_parse s; clock := clock s; trace := trace s |}.

Definition set_localStorage (x : gmap string string) (s : Bus) : Bus :=
  {| channels := channels s; initialized := initialized s; eventListeners := eventListeners s;
     channelObjects := channelObjects s; setObjects := setObjects s;
     registrations := registrations s; nextRef := nextRef s; timers := timers s;
     nextTimer := nextTimer s; sessionStorage := sessionStorage s;
     localStorage := x; JSON_stringify := JSON_stringify s;
     JSON_parse := JSON_parse s; clock := clock s; trace := trace s |}.

Definition set_clock (x : Z) (s : Bus) : Bus :=
  {| channels := channels s; initialized := initialized s; eventListeners := eventListeners s;
     channelObjects := channelObjects s; setObjects := setObjects s;
     registrations := registrations s; nextRef := nextRef s; timers := timers s;
     nextTimer := nextTimer s; sessionStorage := sessionStorage s;
     localStorage := localStorage s; JSON_stringify := JSON_stringify s;
     JSON_parse := JSON_parse s; clock := x; trace := trace s |}.

Definition set_trace (x : list (Z * Event)) (s : Bus) : Bus :=
  {| channels := channels s; initialized := initialized s; eventListeners := eventListeners s;
     channelObjects := channelObjects s; setObjects := setObjects s;
     registrations := registrations s; nextRef := nextRef s; timers := timers s;
     nextTimer := nextTimer s; sessionStorage := sessionStorage s;
     localStorage := localStorage s; JSON_stringify := JSON_stringify s;
     JSON_parse := JSON_parse s; clock := clock s; trace := x |}.

(** ** Statements: state, exceptions, try/catch *)

Inductive completion (A : Type) :=
| Normal (a : A)
| Abrupt (e : Value).
Arguments Normal {A} a.
Arguments Abrupt {A} e.

Definition M (A : Type) : Type := Bus -> completion A * Bus.

Definition ret {A} (a : A) : M A := fun s => (Normal a, s).

Definition bind {A B} (m : M A) (k : A -> M B) : M B :=
  fun s =>
    match m s with
    | (Normal a, s') => k a s'
    | (Abrupt e, s') => (Abrupt e, s')
    end.

Definition throw {A} (e : Value) : M A := fun s => (Abrupt e, s).

Definition try_catch {A} (m : M A) (handler : Value -> M A) : M A :=
  fun s =>
    match m s with
    | (Normal a, s') => (Normal a, s')
    | (Abrupt e, s') => handler e s'
    end.

Definition gets {A} (f : Bus -> A) : M A := fun s => (Normal (f s), s).

Definition modify (f : Bus -> Bus) : M unit := fun s => (Normal tt, f s).

Notation "'let*' x ':=' m 'in' k" := (bind m (fun x => k))
  (at level 10, x name, m at level 100, k at level 200).
Notation "m ';;;' k" := (bind m (fun _ => k))
  (at level 100, k at level 200, right associativity).

(** [if (b) { m }] *)
Definition when (b : bool) (m : M unit) : M unit := if b then m else ret tt.

(** [if (o) { f(o) }] for an optional timer handle or hook. *)
Definition whenSome {A} (o : option A) (f : A -> M unit) : M unit :=
  match o with
  | Some a => f a
  | None => ret tt
  end.

(** [l.forEach(f)] over a snapshot of the elements. *)
Fixpoint forEach {A} (l : list A) (f : A -> M unit) : M unit :=
  match l with
  | [] => ret tt
  | x :: l' => f x ;;; forEach l' f
  end.

(** State reached by a statement, and its completion. *)
Definition exec {A} (m : M A) (s : Bus) : Bus := snd (m s).
Definition result {A} (m : M A) (s : Bus) : completion A := fst (m s).

(** ** Host facilities *)

Definition Date_now : M Z := gets clock.

Definition log (e : Event) : M unit :=
  modify (fun s => set_trace (trace s ++ [(clock s, e)]) s).

Definition console_warn (name : string) (v : Value) : M unit := log (ConsoleWarn name v).
Definition console_error (site : Site) (name : string) (e : Value) : M unit :=
  log (ConsoleError site name e).
Definition console_log (msg : string) : M unit := log (ConsoleLog msg).

(** A call [f(args)] of a user function: recorded, then completes as [f] says. *)
Definition invoke (site : Site) (name : string) (f : jsfun) (args : list Value) : M Value :=
  log (Invoke site name (fn_id f) args) ;;;
  match fn_call f args with
  | Returns v => ret v
  | Throws e => throw e
  end.

(** The host keeps the delay of a timer in a signed 32-bit integer. *)
Definition TIMEOUT_MAX : Z := 2147483647.

(** The delay the host gives a timer: a negative delay counts as zero, and
    a delay above [TIMEOUT_MAX] does not fit and is replaced by 1 ms, so
    that such a timer runs at once instead of after its nominal delay. *)
Definition timer_delay (delay : Z) : Z :=
  if bool_decide (TIMEOUT_MAX < delay) then 1 else Z.max 0 delay.

(** [setTimeout(callback, delay)]: the timer is due after [timer_delay delay];
    the handle returned is a positive integer. *)
Definition setTimeout (cb : Closure) (delay : Z) : M positive :=
  fun s =>
    let id := nextTimer s in
    (Normal id,
     set_nextTimer (Pos.succ id)
       (set_timers (timers s ++ [{| timer_id := id; due := clock s + timer_delay delay;
                                     callback := cb |}]) s)).

Definition cancel (id : positive) (l : list Timer) : list Timer :=
  filter (fun t => timer_id t ≠ id) l.

Definition clearTimeout (id : positive) : M unit :=
  modify (fun s => set_timers (cancel id (timers s)) s).

(** [storage === 'session' ? sessionStorage : localStorage] *)
Definition getItem (mode : StorageMode) (key : string) : M (option string) :=
  match mode with
  | session => gets (fun s => sessionStorage s !! key)
  | _ => gets (fun s => localStorage s !! key)
  end.

Definition setItem (mode : StorageMode) (key : string) (text : string) : M unit :=
  match mode with
  | session => modify (fun s => set_sessionStorage (<[key := text]> (sessionStorage s)) s)
  | _ => modify (fun s => set_localStorage (<[key := text]> (localStorage s)) s)
  end.

Definition removeItem (mode : StorageMode) (key : string) : M unit :=
  match mode with
  | session => modify (fun s => set_sessionStorage (delete key (sessionStorage s)) s)
  | _ => modify (fun s => set_localStorage (delete key (localStorage s)) s)
  end.

(** ** Object stores *)

Definition dangling : Value := VString "TypeError".

Definition channelAt (a : ref) : M Channel :=
  fun s =>
    match channelObjects s !! a with
    | Some c => (Normal c, s)
    | None => (Abrupt dangling, s)
    end.

Definition updateChannel (a : ref) (f : Channel -> Channel) : M unit :=
  let* c := channelAt a in
  modify (fun s => set_channelObjects (<[a := f c]> (channelObjects s)) s).

Definition setAt (a : ref) : M (list ref) :=
  fun s =>
    match setObjects s !! a with
    | Some l => (Normal l, s)
    | None => (Abrupt dangling, s)
    end.

Definition updateSet (a : ref) (f : list ref -> list ref) : M unit :=
  let* l := setAt a in
  modify (fun s => set_setObjects (<[a := f l]> (setObjects s)) s).

Definition registrationAt (r : ref) : M Registration :=
  fun s =>
    match registrations s !! r with
    | Some x => (Normal x, s)
    | None => (Abrupt dangling, s)
    end.

Definition updateRegistration (r : ref) (f : Registration -> Registration) : M unit :=
  let* x := registrationAt r in
  modify (fun s => set_registrations (<[r := f x]> (registrations s)) s).

Definition fresh : M ref :=
  fun s => (Normal (nextRef s), set_nextRef (S (nextRef s)) s).

(** ** EventBus: storage helpers *)

Definition mode_name (mode : StorageMode) : string :=
  match mode with
  | memory => "memory"
  | session => "session"
  | local => "local"
  end.

Definition getFromStorage (key : string) (storage : StorageMode) : M Value :=
  if bool_decide (storage = memory) then ret VUndefined
  else
    try_catch
      (let* raw := getItem storage key in
       match raw with
       | Some (String _ _ as text) =>
           let* parse := gets JSON_parse in
           match parse text with
           | Returns v => ret v
           | Throws e => throw e
           end
       | _ => ret VUndefined
       end)
      (fun error => console_error SStorage (mode_name storage) error ;;; ret VUndefined).

Definition saveToStorage (key : string) (value : Value) (storage : StorageMode) : M unit :=
  if bool_decide (storage = memory) then ret tt
  else
    try_catch
      (let* stringify := gets JSON_stringify in
       match stringify value with
       | JsonText text => setItem storage key text
       | JsonUndefined => setItem storage key "undefined"
       | JsonThrows e => throw e
       end ;;;
       let* saved := getItem storage key in
       ret tt)
      (fun error => console_error SStorage (mode_name storage) error).

Definition removeFromStorage (key : string) (storage : StorageMode) : M unit :=
  if bool_decide (storage = memory) then ret tt
  else removeItem storage key.

(** ** EventBus: channels *)

(** The [beforeunload] handler registered here runs when the page goes
    away; only the flag is kept. *)
Definition init : M unit :=
  let* done := gets initialized in
  if done then ret tt
  else modify (set_initialized true).

(** [executeCallback] of [executeOnChange]: the closure over [config],
    [newValue] and [oldValue]. *)
Definition executeCallback (channelName : string) (onChange : jsfun)
    (newValue oldValue : Value) : M unit :=
  try_catch
    (invoke SOnChange channelName onChange [newValue; oldValue] ;;; ret tt)
    (fun error => console_error SOnChange channelName error).

Definition clear (channelName : string) : M unit :=
  let* chans := gets channels in
  match chans !! channelName with
  | None => ret tt
  | Some a =>
      let* channel := channelAt a in
      whenSome (opt_field Config.onClear (config channel)) (fun onClear =>
        try_catch
          (invoke SOnClear channelName onClear [] ;;; ret tt)
          (fun error => console_error SOnClear channelName error)) ;;;
      whenSome (timeoutId channel) clearTimeout ;;;
      whenSome (onChangeDebounceTimer channel) clearTimeout ;;;
      when (bool_decide (storage channel ≠ memory))
        (removeFromStorage (storageKey channel) (storage channel)) ;;;
      updateChannel a (set_subscribers []) ;;;
      modify (fun s => set_channels (delete channelName (channels s)) s)
  end.

(** Returns the reference of the channel object, which owns the signal. *)
Definition channel (channelName : string) (config : option Config.t) : M ref :=
  init ;;;
  let* chans := gets channels in
  match chans !! channelName with
  | Some a => ret a
  | None =>
      let initialValue := from_option Config.initialValue VUndefined config in
      let storage := default memory (opt_field Config.storage config) in
      let storageKey :=
        default ("lithium:" +:+ channelName) (opt_field Config.storageKey config) in
      let ttl := opt_field Config.ttl config in
      let autoCleanup := opt_flag Config.autoCleanup config in
      let* storedValue := getFromStorage storageKey storage in
      let value := if strict_eq storedValue VUndefined then initialValue else storedValue in
      let isInitialized := non_absent value in
      let* now := Date_now in
      let* a := fresh in
      modify (fun s => set_channelObjects
        (<[a := {| signal := value; storage := storage; storageKey := storageKey;
                   subscribers := []; ttl := ttl; autoCleanup := autoCleanup;
                   createdAt := now; config := config; isInitialized := isInitialized;
                   timeoutId := None; onChangeDebounceTimer := None;
                   onChangeLastCall := None |}]> (channelObjects s)) s) ;;;
      modify (fun s => set_channels (<[channelName := a]> (channels s)) s) ;;;
      when (truthy_num ttl)
        (let* id := setTimeout (TtlExpiry channelName) (default 0 ttl) in
         updateChannel a (set_timeoutId (Some id))) ;;;
      match opt_field Config.onInit config with
      | Some onInit =>
          when isInitialized
            (try_catch
               (invoke SOnInit channelName onInit [value] ;;; ret tt)
               (fun error => console_error SOnInit channelName error))
      | None => ret tt
      end ;;;
      ret a
  end.

Definition executeOnChange (channelName : string) (a : ref)
    (newValue oldValue : Value) : M unit :=
  let* channel := channelAt a in
  let config := config channel in
  match opt_field Config.onChange config with
  | None => ret tt
  | Some onChange =>
      if truthy_num (opt_field Config.debounce config) then
        whenSome (onChangeDebounceTimer channel) clearTimeout ;;;
        let* id := setTimeout (ExecuteCallback channelName onChange newValue oldValue)
                     (default 0 (opt_field Config.debounce config)) in
        updateChannel a (set_onChangeDebounceTimer (Some id))
      else if truthy_num (opt_field Config.throttle config) then
        let* now := Date_now in
        let lastCall := default 0 (onChangeLastCall channel) in
        let timeSinceLastCall := now - lastCall in
        when (default 0 (opt_field Config.throttle config) <=? timeSinceLastCall)
          (updateChannel a (set_onChangeLastCall (Some now)) ;;;
           executeCallback channelName onChange newValue oldValue)
      else executeCallback channelName onChange newValue oldValue
  end.

Definition publish (channelName : string) (value : Value) : M unit :=
  let* chans := gets channels in
  match chans !! channelName with
  | None =>
      channel channelName (Some (Config.only_initialValue value)) ;;; ret tt
  | Some a =>
      let* channel := channelAt a in
      let oldValue := signal channel in
      let config := config channel in
      let* isValid :=
        match opt_field Config.validate config with
        | Some validate =>
            let* r := invoke SValidate channelName validate [value] in ret (truthy r)
        | None => ret true
        end in
      if negb isValid then console_warn channelName value
      else
        let* transformedValue :=
          match opt_field Config.transform config with
          | Some transform => invoke STransform channelName transform [value]
          | None => ret value
          end in
        updateChannel a (set_signal transformedValue) ;;;
        (if bool_decide (storage channel ≠ memory)
         then saveToStorage (storageKey channel) transformedValue (storage channel)
         else console_log "[EventBus.publish] Skipping storage (memory mode)") ;;;
        let* current := channelAt a in
        when (negb (isInitialized current) && non_absent transformedValue)
          (updateChannel a (set_isInitialized true) ;;;
           whenSome (opt_field Config.onInit config) (fun onInit =>
             try_catch
               (invoke SOnInit channelName onInit [transformedValue] ;;; ret tt)
               (fun error => console_error SOnInit channelName error))) ;;;
        when (bool_decide (is_Some (opt_field Config.onChange config)))
          (executeOnChange channelName a transformedValue oldValue) ;;;
        let* current := channelAt a in
        forEach (subscribers current) (fun callback =>
          try_catch
            (invoke SSubscriber channelName callback [transformedValue] ;;; ret tt)
            (fun error => console_error SSubscriber channelName error))
  end.

(** [subscribers.add(callback)] and [subscribers.delete(callback)]. *)
Definition add_callback (callback : jsfun) (l : list jsfun) : list jsfun :=
  if existsb (same_fn callback) l then l else l ++ [callback].

Definition delete_callback (callback : jsfun) (l : list jsfun) : list jsfun :=
  filter (fun g => fn_id g ≠ fn_id callback) l.

(** The arrow function returned by [subscribe]: it captured [channelName],
    the channel object and [callback]. *)
Record Unsubscribe := {
  sub_channelName : string;
  sub_channel : ref;
  sub_callback : jsfun
}.

Definition subscribe (channelName : string) (callback : jsfun) : M Unsubscribe :=
  let* chans := gets channels in
  when (bool_decide (chans !! channelName = None))
    (channel channelName None ;;; ret tt) ;;;
  let* chans := gets channels in
  match chans !! channelName with
  | None => throw dangling
  | Some a =>
      updateChannel a (fun c => set_subscribers (add_callback callback (subscribers c)) c) ;;;
      ret {| sub_channelName := channelName; sub_channel := a; sub_callback := callback |}
  end.

Definition unsubscribe (h : Unsubscribe) : M unit :=
  updateChannel (sub_channel h)
    (fun c => set_subscribers (delete_callback (sub_callback h) (subscribers c)) c) ;;;
  let* channel := channelAt (sub_channel h) in
  when (autoCleanup channel && bool_decide (length (subscribers channel) = 0%nat))
    (clear (sub_channelName h)).

Definition getSignal (channelName : string) : M (option ref) :=
  gets (fun s => channels s !! channelName).

Definition getValue (channelName : string) : M Value :=
  let* chans := gets channels in
  match chans !! channelName with
  | None => ret VUndefined
  | Some a => let* channel := channelAt a in ret (signal channel)
  end.

(** ** EventBus: instant events *)

(** The arrow function [unlisten] of the registration [r]. *)
Definition unlisten (r : ref) : M unit :=
  let* reg := registrationAt r in
  whenSome (debounceTimer reg) clearTimeout ;;;
  updateSet (listeners reg) (filter (fun w => w ≠ r)) ;;;
  let* set := setAt (listeners reg) in
  when (bool_decide (length set = 0%nat))
    (modify (fun s => set_eventListeners (delete (eventName reg) (eventListeners s)) s)).

(** The arrow function [executeListener] created by one run of the wrapped
    listener of [r]. *)
Definition executeListener (r : ref) (transformedData : Value) : M unit :=
  let* reg := registrationAt r in
  try_catch
    (invoke SListener (eventName reg) (listener reg) [transformedData] ;;;
     updateRegistration r (set_hasExecuted true) ;;;
     when (opt_flag Options.once (options reg)) (unlisten r))
    (fun error => console_error SListener (eventName reg) error).

Definition wrappedListener (r : ref) (data : Value) : M unit :=
  let* reg := registrationAt r in
  let options := options reg in
  if opt_flag Options.once options && hasExecuted reg then ret tt
  else
    let* isValid :=
      match opt_field Options.validate options with
      | Some validate =>
          let* v := invoke SEventValidate (eventName reg) validate [data] in ret (truthy v)
      | None => ret true
      end in
    if negb isValid then ret tt
    else
      let* transformedData :=
        match opt_field Options.transform options with
        | Some transform => invoke SEventTransform (eventName reg) transform [data]
        | None => ret data
        end in
      if truthy_num (opt_field Options.debounce options) then
        whenSome (debounceTimer reg) clearTimeout ;;;
        let* id := setTimeout (ExecuteListener r transformedData)
                     (default 0 (opt_field Options.debounce options)) in
        updateRegistration r (set_debounceTimer (Some id))
      else if truthy_num (opt_field Options.throttle options) then
        let* now := Date_now in
        let timeSinceLastCall := now - lastCallTime reg in
        when (default 0 (opt_field Options.throttle options) <=? timeSinceLastCall)
          (updateRegistration r (set_lastCallTime now) ;;;
           executeListener r transformedData)
      else executeListener r transformedData.

(** [listeners.forEach] visits, in insertion order, the members that are
    still in the set when their turn comes. *)
Definition emit (eventName : string) (data : Value) : M unit :=
  let* table := gets eventListeners in
  match table !! eventName with
  | None => ret tt
  | Some sa =>
      let* snapshot := setAt sa in
      if bool_decide (length snapshot = 0%nat) then ret tt
      else
        forEach snapshot (fun w =>
          let* live := setAt sa in
          when (bool_decide (w ∈ live))
            (try_catch (wrappedListener w data)
               (fun error => console_error SListener eventName error)))
  end.

(** Returns the reference of the new registration; [unlisten] of that
    reference is the function the source returns. *)
Definition on (eventName : string) (listener : jsfun) (options : option Options.t) : M ref :=
  let* table := gets eventListeners in
  when (bool_decide (table !! eventName = None))
    (let* sa := fresh in
     modify (fun s => set_setObjects (<[sa := []]> (setObjects s)) s) ;;;
     modify (fun s => set_eventListeners (<[eventName := sa]> (eventListeners s)) s)) ;;;
  let* table := gets eventListeners in
  match table !! eventName with
  | None => throw dangling
  | Some sa =>
      let* r := fresh in
      modify (fun s => set_registrations
        (<[r := {| eventName := eventName; listener := listener; options := options;
                   listeners := sa; debounceTimer := None; lastCallTime := 0;
                   hasExecuted := false |}]> (registrations s)) s) ;;;
      updateSet sa (fun l => l ++ [r]) ;;;
      ret r
  end.

Definition once (eventName : string) (listener : jsfun) : M ref :=
  on eventName listener (Some Options.only_once).

Definition off (eventName : string) : M unit :=
  modify (fun s => set_eventListeners (delete eventName (eventListeners s)) s).

(** ** The host's timer loop *)

Definition runClosure (c : Closure) : M unit :=
  match c with
  | TtlExpiry channelName => clear channelName
  | ExecuteCallback channelName onChange newValue oldValue =>
      executeCallback channelName onChange newValue oldValue
  | ExecuteListener r transformedData => executeListener r transformedData
  end.

(** The timer [id] fires, unless it was cancelled: it leaves the table, the
    clock reads its due time, its closure runs. *)
Definition fireTimer (id : positive) : M unit :=
  let* pending := gets timers in
  match List.find (fun t => bool_decide (timer_id t = id)) pending with
  | None => ret tt
  | Some t =>
      modify (fun s => set_timers (cancel id (timers s)) s) ;;;
      modify (fun s => set_clock (Z.max (clock s) (due t)) s) ;;;
      runClosure (callback t)
  end.

(** An exception that escapes a timer callback is reported by the host and
    does not keep the other timers from firing. *)
Definition fireTimerGuarded (id : positive) : M unit :=
  try_catch (fireTimer id) (fun error => console_error STimer "" error).

Definition fires_before (a b : Timer) : bool :=
  (due a <? due b) || ((due a =? due b) && (timer_id a <=? timer_id b)%positive).

Fixpoint schedule_insert (t : Timer) (l : list Timer) : list Timer :=
  match l with
  | [] => [t]
  | x :: l' => if fires_before t x then t :: l else x :: schedule_insert t l'
  end.

Definition schedule (l : list Timer) : list Timer := foldr schedule_insert [] l.

(** Time passes until the clock reads [t]: every timer due by then fires, in
    order of due time, then of creation.  No closure of the bus creates a
    timer, so the timers to fire are known when the wait starts; one that
    an earlier firing cancels is skipped by [fireTimer]. *)
Definition runTimers (t : Z) : M unit :=
  let* pending := gets timers in
  forEach (schedule (filter (fun x => due x <= t) pending))
    (fun x => fireTimerGuarded (timer_id x)) ;;;
  modify (fun s => set_clock (Z.max (clock s) t) s).

(** The host clock reads [t] at the next call, no timer having fired. *)
Definition at_time (t : Z) (s : Bus) : Bus := set_clock t s.

(** ** A fresh page *)

Definition fresh_page (stringify : Value -> json_text) (parse : string -> outcome)
    (now : Z) : Bus :=
  {| channels := ∅; initialized := false; eventListeners := ∅;
     channelObjects := ∅; setObjects := ∅; registrations := ∅; nextRef := 0%nat;
     timers := []; nextTimer := 1%positive; sessionStorage := ∅; localStorage := ∅;
     JSON_stringify := stringify; JSON_parse := parse; clock := now; trace := [] |}.

(** ** Reading traces *)

(** The entries a statement appends to the trace. *)
Definition produced {A} (m : M A) (s : Bus) : list (Z * Event) :=
  drop (length (trace s)) (trace (exec m s)).

Definition is_call (site : Site) (name : string) (e : Z * Event) : bool :=
  match e.2 with
  | Invoke site' name' _ _ => bool_decide (site' = site) && bool_decide (name' = name)
  | _ => false
  end.

(** The calls made from [site] for the channel or event [name], with the
    clock reading of each. *)
Definition calls_at (site : Site) (name : string) (tr : list (Z * Event)) : list (Z * Event) :=
  List.filter (is_call site name) tr.

Definition is_warning (name : string) (e : Z * Event) : bool :=
  match e.2 with
  | ConsoleWarn name' _ => bool_decide (name' = name)
  | _ => false
  end.

(** ** What a successful [publish] does, in closed form

    The functions below describe, field by field, the page that [publish]
    leaves behind on an existing channel when validation passes; the lemma
    [publish_accepted] proves that [publish] computes exactly that. *)

Definition stamp (t : Z) (es : list Event) : list (Z * Event) := map (pair t) es.

Definition log_events (es : list Event) (s : Bus) : Bus :=
  set_trace (trace s ++ stamp (clock s) es) s.

(** Events of [try { f(args) } catch (error) { console.error(...) }]. *)
Definition guarded_events (site : Site) (name : string) (f : jsfun) (args : list Value)
    : list Event :=
  Invoke site name (fn_id f) args ::
  match fn_call f args with
  | Returns _ => []
  | Throws e => [ConsoleError site name e]
  end.

Definition call_events (site : Site) (name : string) (f : option jsfun) (args : list Value)
    : list Event :=
  match f with
  | Some f => [Invoke site name (fn_id f) args]
  | None => []
  end.

(** The value that reaches the signal: [None] when validation rejects the
    value or a hook throws. *)
Definition transformed (transform : option jsfun) (value : Value) : option Value :=
  match transform with
  | Some t =>
      match fn_call t [value] with
      | Returns w => Some w
      | Throws _ => None
      end
  | None => Some value
  end.

Definition validated (validate : option jsfun) (value : Value) : bool :=
  match validate with
  | Some f =>
      match fn_call f [value] with
      | Returns r => truthy r
      | Throws _ => false
      end
  | None => true
  end.

Definition published_value (cfg : option Config.t) (value : Value) : option Value :=
  if validated (opt_field Config.validate cfg) value
  then transformed (opt_field Config.transform cfg) value
  else None.

(** The text [saveToStorage] writes for [w], if [JSON.stringify] returns. *)
Definition persisted_text (s : Bus) (w : Value) : option string :=
  match JSON_stringify s w with
  | JsonText text => Some text
  | JsonUndefined => Some "undefined"
  | JsonThrows _ => None
  end.

Definition write_text (key : string) (text : option string) (store : gmap string string)
    : gmap string string :=
  match text with
  | Some t => <[key := t]> store
  | None => store
  end.

Definition persist_events (s : Bus) (mode : StorageMode) (w : Value) : list Event :=
  match mode with
  | memory => [ConsoleLog "[EventBus.publish] Skipping storage (memory mode)"]
  | _ =>
      match JSON_stringify s w with
      | JsonThrows e => [ConsoleError SStorage (mode_name mode) e]
      | _ => []
      end
  end.

Definition debounced (cfg : option Config.t) : bool :=
  bool_decide (is_Some (opt_field Config.onChange cfg))
  && truthy_num (opt_field Config.debounce cfg).

Definition throttled (cfg : option Config.t) : bool :=
  bool_decide (is_Some (opt_field Config.onChange cfg))
  && negb (truthy_num (opt_field Config.debounce cfg))
  && truthy_num (opt_field Config.throttle cfg).

(** Does the throttle let a call through at clock reading [now]? *)
Definition throttle_open (ch : Channel) (now : Z) : bool :=
  default 0 (opt_field Config.throttle (config ch)) <=? now - default 0 (onChangeLastCall ch).

Definition onInit_events (name : string) (ch : Channel) (w : Value) : list Event :=
  if negb (isInitialized ch) && non_absent w
  then match opt_field Config.onInit (config ch) with
       | Some f => guarded_events SOnInit name f [w]
       | None => []
       end
  else [].

Definition onChange_events (name : string) (ch : Channel) (now : Z) (w : Value) : list Event :=
  match opt_field Config.onChange (config ch) with
  | None => []
  | Some f =>
      if truthy_num (opt_field Config.debounce (config ch)) then []
      else if truthy_num (opt_field Config.throttle (config ch)) then
        if throttle_open ch now then guarded_events SOnChange name f [w; signal ch] else []
      else guarded_events SOnChange name f [w; signal ch]
  end.

Definition subscriber_events (name : string) (ch : Channel) (w : Value) : list Event :=
  concat (map (fun cb => guarded_events SSubscriber name cb [w]) (subscribers ch)).

Definition publish_events (s : Bus) (name : string) (ch : Channel) (value w : Value)
    : list Event :=
  call_events SValidate name (opt_field Config.validate (config ch)) [value]
  ++ call_events STransform name (opt_field Config.transform (config ch)) [value]
  ++ persist_events s (storage ch) w
  ++ onInit_events name ch w
  ++ onChange_events name ch (clock s) w
  ++ subscriber_events name ch w.

Definition published_channel (s : Bus) (ch : Channel) (w : Value) : Channel :=
  {| signal := w; storage := storage ch; storageKey := storageKey ch;
     subscribers := subscribers ch; ttl := ttl ch; autoCleanup := autoCleanup ch;
     createdAt := createdAt ch; config := config ch;
     isInitialized := isInitialized ch || non_absent w;
     timeoutId := timeoutId ch;
     onChangeDebounceTimer :=
       if debounced (config ch) then Some (nextTimer s) else onChangeDebounceTimer ch;
     onChangeLastCall :=
       if throttled (config ch) && throttle_open ch (clock s)
       then Some (clock s) else onChangeLastCall ch |}.

Definition cancel_opt (o : option positive) (l : list Timer) : list Timer :=
  match o with
  | Some id => cancel id l
  | None => l
  end.

Definition onChange_timer (s : Bus) (name : string) (ch : Channel) (w : Value) : list Timer :=
  match opt_field Config.onChange (config ch) with
  | Some f =>
      [{| timer_id := nextTimer s;
          due := clock s + timer_delay (default 0 (opt_field Config.debounce (config ch)));
          callback := ExecuteCallback name f w (signal ch) |}]
  | None => []
  end.

Definition publish_result (name : string) (a : ref) (ch : Channel) (w : Value) (value : Value)
    (s : Bus) : Bus :=
  {| channels := channels s;
     initialized := initialized s;
     eventListeners := eventListeners s;
     channelObjects := <[a := published_channel s ch w]> (channelObjects s);
     setObjects := setObjects s;
     registrations := registrations s;
     nextRef := nextRef s;
     timers :=
       if debounced (config ch)
       then cancel_opt (onChangeDebounceTimer ch) (timers s) ++ onChange_timer s name ch w
       else timers s;
     nextTimer := if debounced (config ch) then Pos.succ (nextTimer s) else nextTimer s;
     sessionStorage :=
       if bool_decide (storage ch = session)
       then write_text (storageKey ch) (persisted_text s w) (sessionStorage s)
       else sessionStorage s;
     localStorage :=
       if bool_decide (storage ch = local)
       then write_text (storageKey ch) (persisted_text s w) (localStorage s)
       else localStorage s;
     JSON_stringify := JSON_stringify s;
     JSON_parse := JSON_parse s;
     clock := clock s;
     trace := trace s ++ stamp (clock s) (publish_events s name ch value w) |}.

(** The page after each statement of a successful [publish]. *)

Definition persist_step (key : string) (w : Value) (mode : StorageMode) (s : Bus) : Bus :=
  set_trace (trace s ++ stamp (clock s) (persist_events s mode w))
    (set_sessionStorage
       (if bool_decide (mode = session)
        then write_text key (persisted_text s w) (sessionStorage s) else sessionStorage s)
       (set_localStorage
          (if bool_decide (mode = local)
           then write_text key (persisted_text s w) (localStorage s) else localStorage s) s)).

Definition init_step (name : string) (a : ref) (ch : Channel) (w : Value) (s : Bus) : Bus :=
  set_trace (trace s ++ stamp (clock s) (onInit_events name ch w))
    (set_channelObjects
       (<[a := set_isInitialized (isInitialized ch || non_absent w) (set_signal w ch)]>
          (channelObjects s)) s).

Definition change_step (name : string) (a : ref) (ch : Channel) (w old : Value) (s : Bus) : Bus :=
  set_trace (trace s ++ stamp (clock s) (onChange_events name (set_signal old ch) (clock s) w))
    (set_channelObjects
       (<[a := if debounced (config ch) then set_onChangeDebounceTimer (Some (nextTimer s)) ch
               else if throttled (config ch) && throttle_open ch (clock s)
               then set_onChangeLastCall (Some (clock s)) ch else ch]> (channelObjects s))
       (set_nextTimer (if debounced (config ch) then Pos.succ (nextTimer s) else nextTimer s)
          (set_timers
             (if debounced (config ch)
              then cancel_opt (onChangeDebounceTimer ch) (timers s)
                   ++ onChange_timer s name (set_signal old ch) w
              else timers s) s))).

(** Events of a [publish] that does not reach the signal: validation said
    no (a warning), or a hook threw (the exception reaches the caller). *)
Definition refused_events (name : string) (ch : Channel) (value : Value) : list Event :=
  call_events SValidate name (opt_field Config.validate (config ch)) [value]
  ++ (if validated (opt_field Config.validate (config ch)) value
      then call_events STransform name (opt_field Config.transform (config ch)) [value]
      else match opt_field Config.validate (config ch) with
           | Some f =>
               match fn_call f [value] with
               | Returns _ => [ConsoleWarn name value]
               | Throws _ => []
               end
           | None => []
           end).

(** ** What [channel] does for a new name, in closed form *)

Definition storeOf (mode : StorageMode) (s : Bus) : gmap string string :=
  match mode with
  | session => sessionStorage s
  | _ => localStorage s
  end.

Definition config_storage (cfg : option Config.t) : StorageMode :=
  default memory (opt_field Config.storage cfg).

Definition config_storageKey (name : string) (cfg : option Config.t) : string :=
  default ("lithium:" +:+ name) (opt_field Config.storageKey cfg).

(** What [getFromStorage] returns and logs. *)
Definition stored_value (s : Bus) (key : string) (mode : StorageMode) : Value :=
  match mode with
  | memory => VUndefined
  | _ =>
      match storeOf mode s !! key with
      | Some (String _ _ as text) =>
          match JSON_parse s text with
          | Returns v => v
          | Throws _ => VUndefined
          end
      | _ => VUndefined
      end
  end.

Definition storage_read_events (s : Bus) (key : string) (mode : StorageMode) : list Event :=
  match mode with
  | memory => []
  | _ =>
      match storeOf mode s !! key with
      | Some (String _ _ as text) =>
          match JSON_parse s text with
          | Returns _ => []
          | Throws e => [ConsoleError SStorage (mode_name mode) e]
          end
      | _ => []
      end
  end.

(** The value a new channel starts with: the stored one if there is one,
    else [initialValue]. *)
Definition resolved_value (s : Bus) (name : string) (cfg : option Config.t) : Value :=
  let stored := stored_value s (config_storageKey name cfg) (config_storage cfg) in
  if strict_eq stored VUndefined
  then from_option Config.initialValue VUndefined cfg
  else stored.

Definition created_channel (s : Bus) (name : string) (cfg : option Config.t) : Channel :=
  {| signal := resolved_value s name cfg;
     storage := config_storage cfg;
     storageKey := config_storageKey name cfg;
     subscribers := [];
     ttl := opt_field Config.ttl cfg;
     autoCleanup := opt_flag Config.autoCleanup cfg;
     createdAt := clock s;
     config := cfg;
     isInitialized := non_absent (resolved_value s name cfg);
     timeoutId :=
       if truthy_num (opt_field Config.ttl cfg) then Some (nextTimer s) else None;
     onChangeDebounceTimer := None;
     onChangeLastCall := None |}.

Definition creation_events (s : Bus) (name : string) (cfg : option Config.t) : list Event :=
  storage_read_events s (config_storageKey name cfg) (config_storage cfg)
  ++ match opt_field Config.onInit cfg with
     | Some f =>
         if non_absent (resolved_value s name cfg)
         then guarded_events SOnInit name f [resolved_value s name cfg]
         else []
     | None => []
     end.

Definition channel_result (name : string) (cfg : option Config.t) (s : Bus) : Bus :=
  {| channels := <[name := nextRef s]> (channels s);
     initialized := true;
     eventListeners := eventListeners s;
     channelObjects := <[nextRef s := created_channel s name cfg]> (channelObjects s);
     setObjects := setObjects s;
     registrations := registrations s;
     nextRef := S (nextRef s);
     timers :=
       if truthy_num (opt_field Config.ttl cfg)
       then timers s ++ [{| timer_id := nextTimer s;
                            due := clock s + timer_delay (default 0 (opt_field Config.ttl cfg));
                            callback := TtlExpiry name |}]
       else timers s;
     nextTimer :=
       if truthy_num (opt_field Config.ttl cfg) then Pos.succ (nextTimer s) else nextTimer s;
     sessionStorage := sessionStorage s;
     localStorage := localStorage s;
     JSON_stringify := JSON_stringify s;
     JSON_parse := JSON_parse s;
     clock := clock s;
     trace := trace s ++ stamp (clock s) (creation_events s name cfg) |}.

(** ** Scenarios *)

(** A call [publish(name, v)] made when the clock reads [t]. *)
Definition publish_at (name : string) (tv : Z * Value) (s : Bus) : Bus :=
  exec (publish name tv.2) (at_time tv.1 s).

(** Successive calls of [publish] on one name, each with its clock reading. *)
Definition publish_calls (name : string) (tvs : list (Z * Value)) (s : Bus) : Bus :=
  foldl (fun s tv => publish_at name tv s) s tvs.

(** The host waits until [t], firing the timers that come due, then calls
    [publish(name, v)]. *)
Definition publish_after_wait (name : string) (tv : Z * Value) (s : Bus) : Bus :=
  exec (publish name tv.2) (exec (runTimers tv.1) s).

Definition publish_schedule (name : string) (tvs : list (Z * Value)) (s : Bus) : Bus :=
  foldl (fun s tv => publish_after_wait name tv s) s tvs.

(** The first call of a sequence that brings a value that is neither
    [undefined] nor [null] to the signal, with that value. *)
Fixpoint first_present (cfg : option Config.t) (tvs : list (Z * Value)) : option (Z * Value) :=
  match tvs with
  | [] => None
  | (t, v) :: rest =>
      match published_value cfg v with
      | Some w => if non_absent w then Some (t, w) else first_present cfg rest
      | None => first_present cfg rest
      end
  end.

(** Every call comes at or after the previous one and less than [D] later. *)
Fixpoint separated (D : Z) (t : Z) (rest : list (Z * Value)) : Prop :=
  match rest with
  | [] => True
  | (t', _) :: rest' => t <= t' < t + D /\ separated D t' rest'
  end.

(** Clock reading of the last call of a sequence that starts at [t]. *)
Fixpoint last_time (t : Z) (rest : list (Z * Value)) : Z :=
  match rest with
  | [] => t
  | (t', _) :: rest' => last_time t' rest'
  end.

(** The value of the last accepted call of a sequence, and the value the
    signal held just before that call. *)
Fixpoint last_change (cfg : option Config.t) (old w : Value) (rest : list (Z * Value))
    : Value * Value :=
  match rest with
  | [] => (w, old)
  | (_, v) :: rest' =>
      match published_value cfg v with
      | Some w' => last_change cfg w w' rest'
      | None => last_change cfg old w rest'
      end
  end.

(** ** What [clear] does to an existing channel, in closed form *)

Definition onClear_events (name : string) (ch : Channel) : list Event :=
  match opt_field Config.onClear (config ch) with
  | Some f => guarded_events SOnClear name f []
  | None => []
  end.

Definition clear_result (name : string) (a : ref) (ch : Channel) (s : Bus) : Bus :=
  {| channels := delete name (channels s);
     initialized := initialized s;
     eventListeners := eventListeners s;
     channelObjects := <[a := set_subscribers [] ch]> (channelObjects s);
     setObjects := setObjects s;
     registrations := registrations s;
     nextRef := nextRef s;
     timers := cancel_opt (onChangeDebounceTimer ch) (cancel_opt (timeoutId ch) (timers s));
     nextTimer := nextTimer s;
     sessionStorage :=
       if bool_decide (storage ch = session)
       then delete (storageKey ch) (sessionStorage s) else sessionStorage s;
     localStorage :=
       if bool_decide (storage ch = local)
       then delete (storageKey ch) (localStorage s) else localStorage s;
     JSON_stringify := JSON_stringify s;
     JSON_parse := JSON_parse s;
     clock := clock s;
     trace := trace s ++ stamp (clock s) (onClear_events name ch) |}.

(** Is a timer with handle [id] in the table? *)
Definition pending (id : positive) (s : Bus) : option Timer :=
  List.find (fun t => bool_decide (timer_id t = id)) (timers s).

(** The timer a debounced [publish] leaves in the table. *)
Definition debounce_timer (name : string) (f : jsfun) (id : positive) (fire_at : Z)
    (w old : Value) : Timer :=
  {| timer_id := id; due := fire_at; callback := ExecuteCallback name f w old |}.

(** ** Well-formed pages

    Timer handles are issued in increasing order, each at most once; a
    handle kept in a channel object or in a registration was issued before;
    a pending debounced [onChange] is the one its channel keeps in
    [onChangeDebounceTimer]; two names never share a channel object, and
    the references in the registry were allocated before.  Every page
    reached from a fresh one is well formed ([page_wf_run]). *)

Definition handle_below (bound : positive) (o : option positive) : Prop :=
  match o with
  | Some id => (id < bound)%positive
  | None => True
  end.

#[global] Instance handle_below_dec B o : Decision (handle_below B o).
Proof. destruct o; simpl; apply _. Defined.

(** [channels.get(n)?.onChangeDebounceTimer] *)
Definition recorded_onChange (s : Bus) (n : string) : option positive :=
  match channels s !! n with
  | Some a =>
      match channelObjects s !! a with
      | Some ch => onChangeDebounceTimer ch
      | None => None
      end
  | None => None
  end.

Definition timer_accounted (s : Bus) (tm : Timer) : Prop :=
  match callback tm with
  | ExecuteCallback n _ _ _ => recorded_onChange s n = Some (timer_id tm)
  | _ => True
  end.

Record page_wf (s : Bus) : Prop := {
  wf_timer_ids : Forall (fun tm => (timer_id tm < nextTimer s)%positive) (timers s);
  wf_timer_nodup : NoDup (timer_id <$> timers s);
  wf_timer_accounted : Forall (timer_accounted s) (timers s);
  wf_channel_handles :
    map_Forall (fun _ ch => handle_below (nextTimer s) (timeoutId ch)
                            ∧ handle_below (nextTimer s) (onChangeDebounceTimer ch))
      (channelObjects s);
  wf_registration_handles :
    map_Forall (fun _ reg => handle_below (nextTimer s) (debounceTimer reg))
      (registrations s);
  wf_channels_inj :
    ∀ n n' a, channels s !! n = Some a → channels s !! n' = Some a → n = n';
  wf_channel_refs : map_Forall (fun _ a => (a < nextRef s)%nat) (channels s)
}.

(** The statement [m] keeps a page well formed, however it completes. *)
Definition keeps {A} (m : M A) : Prop := ∀ s, page_wf s → page_wf (exec m s).

(** ** Timers firing around a pending debounced [onChange] *)

(** The page when the timer [tm], of handle [id], has left the table and
    the clock reads its due time, before its closure runs. *)
Definition fired (id : positive) (tm : Timer) (s : Bus) : Bus :=
  set_clock (Z.max (clock s) (due tm)) (set_timers (cancel id (timers s)) s).

(** What [executeListener] of the registration [r] may change: it cancels
    at most the debounce timer of [r], leaves channels alone, and calls no
    [onChange]. *)
Record listener_frame (r : ref) (s0 s1 : Bus) : Prop := {
  lf_channels : channels s1 = channels s0;
  lf_objects : channelObjects s1 = channelObjects s0;
  lf_nextTimer : nextTimer s1 = nextTimer s0;
  lf_clock : clock s1 = clock s0;
  lf_timers : timers s1 = timers s0
              ∨ ∃ reg, registrations s0 !! r = Some reg
                       ∧ timers s1 = cancel_opt (debounceTimer reg) (timers s0);
  lf_registrations : ∀ r' reg', registrations s1 !! r' = Some reg' →
    ∃ reg, registrations s0 !! r' = Some reg ∧ debounceTimer reg' = debounceTimer reg;
  lf_trace : ∃ tr, trace s1 = trace s0 ++ tr ∧ ∀ name, calls_at SOnChange name tr = []
}.

(** From [s] to [s'] the channel [name], its object [a] and its timer [id]
    were left alone, and [onChange] of [name] was not called. *)
Record undisturbed (name : string) (a : ref) (id : positive) (s s' : Bus) : Prop := {
  und_channel : channels s' !! name = channels s !! name;
  und_channels : ∀ n b, channels s' !! n = Some b → channels s !! n = Some b;
  und_object : channelObjects s' !! a = channelObjects s !! a;
  und_objects : ∀ b c', channelObjects s' !! b = Some c' → b ≠ a →
    ∃ c, channelObjects s !! b = Some c ∧ timeoutId c' = timeoutId c
         ∧ onChangeDebounceTimer c' = onChangeDebounceTimer c;
  und_registrations : ∀ r reg', registrations s' !! r = Some reg' →
    ∃ reg, registrations s !! r = Some reg ∧ debounceTimer reg' = debounceTimer reg;
  und_pending : pending id s' = pending id s;
  und_timers : timers s' `sublist_of` timers s;
  und_nextTimer : nextTimer s' = nextTimer s;
  und_trace : ∃ tr, trace s' = trace s ++ tr ∧ calls_at SOnChange name tr = []
}.

(** The page between two calls of a debounced sequence.  The channel
    [name] is registered, holds [w], and its debounce timer [id] is pending,
    set to call [onChange] with [w] and [old] at [fire]; every other timer
    was issued before [B], is not a debounced [onChange] of [name], and is
    not an expiry of [name] due by [horizon]; no call of [onChange] of
    [name] has been made since the trace was [before]. *)
Record debounce_pending_at (name : string) (a : ref) (cfg : option Config.t) (f : jsfun)
    (id : positive) (fire : Z) (w old : Value) (B : positive) (horizon : Z)
    (before : list (Z * Event)) (ch : Channel) (tr : list (Z * Event)) (s : Bus) : Prop := {
  dp_channel : channels s !! name = Some a;
  dp_object : channelObjects s !! a = Some ch;
  dp_config : config ch = cfg;
  dp_signal : signal ch = w;
  dp_recorded : onChangeDebounceTimer ch = Some id;
  dp_id : (B <= id)%positive ∧ (id < nextTimer s)%positive;
  dp_pending : pending id s = Some (debounce_timer name f id fire w old);
  dp_foreign : ∀ tm, tm ∈ timers s → timer_id tm ≠ id →
    (timer_id tm < B)%positive
    ∧ (∀ f' w' o', callback tm ≠ ExecuteCallback name f' w' o')
    ∧ (callback tm = TtlExpiry name → horizon < due tm);
  dp_nodup : NoDup (timer_id <$> timers s);
  dp_inj : ∀ n, channels s !! n = Some a → n = name;
  dp_objects : ∀ b c, channelObjects s !! b = Some c → b ≠ a →
    handle_below B (timeoutId c) ∧ handle_below B (onChangeDebounceTimer c);
  dp_registrations : ∀ r reg, registrations s !! r = Some reg →
    handle_below B (debounceTimer reg);
  dp_trace : trace s = before ++ tr;
  dp_calls : calls_at SOnChange name tr = []
}.

Definition debounce_pending (name : string) (a : ref) (cfg : option Config.t) (f : jsfun)
    (id : positive) (fire : Z) (w old : Value) (B : positive) (horizon : Z)
    (before : list (Z * Event)) (s : Bus) : Prop :=
  ∃ ch tr, debounce_pending_at name a cfg f id fire w old B horizon before ch tr s.

(** The page once the debounce timer has fired: one call of [onChange] of
    [name] since the trace was [before], and no debounced [onChange] of
    [name] left in the table. *)
Definition debounce_done (name : string) (f : jsfun) (w old : Value) (horizon : Z)
    (before : list (Z * Event)) (s : Bus) : Prop :=
  ∃ tr,
    trace s = before ++ tr
    ∧ calls_at SOnChange name tr = [(horizon, Invoke SOnChange name (fn_id f) [w; old])]
    ∧ ∀ tm, tm ∈ timers s → ∀ f' w' o', callback tm ≠ ExecuteCallback name f' w' o'.

(** ** Timers firing around a throttled channel *)

(** From [s] to [s'] the channel [name] and its object [a] were left alone,
    no timer was created, and [onChange] of [name] was not called. *)
Record left_alone (name : string) (a : ref) (s s' : Bus) : Prop := {
  la_channel : channels s' !! name = channels s !! name;
  la_channels : ∀ n b, channels s' !! n = Some b → channels s !! n = Some b;
  la_object : channelObjects s' !! a = channelObjects s !! a;
  la_timers : timers s' `sublist_of` timers s;
  la_trace : ∃ tr, trace s' = trace s ++ tr ∧ calls_at SOnChange name tr = []
}.

(** The page around the calls of a throttled sequence.  The channel [name]
    is registered with the object [a], which no other name shares; timer
    handles are unique; no pending timer is a debounced [onChange] of
    [name], or an expiry of [name] due by [horizon]. *)
Record throttle_quiet (name : string) (a : ref) (horizon : Z) (s : Bus) : Prop := {
  tq_channel : channels s !! name = Some a;
  tq_inj : ∀ n, channels s !! n = Some a → n = name;
  tq_foreign : ∀ tm, tm ∈ timers s →
    (∀ f' w' o', callback tm ≠ ExecuteCallback name f' w' o')
    ∧ (callback tm = TtlExpiry name → horizon < due tm);
  tq_nodup : NoDup (timer_id <$> timers s)
}.

(** ** Sample pages

    Concrete functions, configurations and pages on which the properties
    below are exercised. *)

Module Sample.

(** [JSON.stringify] and [JSON.parse] on the values without structure;
    strings are taken to need no escaping. *)
Definition quote : string := String "034"%char EmptyString.

Definition stringify (v : Value) : json_text :=
  match v with
  | VUndefined => JsonUndefined
  | VNull => JsonText "null"
  | VBool true => JsonText "true"
  | VBool false => JsonText "false"
  | VNumber n => JsonText (pretty n)
  | VString s => JsonText (quote +:+ s +:+ quote)
  | VObject _ => JsonText "{}"
  end.

Definition digit (c : ascii) : option Z :=
  let n := Z.of_nat (nat_of_ascii c) in
  if (48 <=? n) && (n <=? 57) then Some (n - 48) else None.

Fixpoint digits (acc : Z) (text : string) : option Z :=
  match text with
  | EmptyString => Some acc
  | String c rest =>
      match digit c with
      | Some d => digits (10 * acc + d) rest
      | None => None
      end
  end.

Definition number (text : string) : option Z :=
  match text with
  | EmptyString => None
  | String "-"%char EmptyString => None
  | String "-"%char rest => Z.opp <$> digits 0 rest
  | _ => digits 0 text
  end.

(** The text between the quotes of a string literal. *)
Fixpoint quoted (text : string) : option string :=
  match text with
  | EmptyString => None
  | String c rest =>
      if Ascii.eqb c "034"%char then (if String.eqb rest EmptyString then Some EmptyString else None)
      else String c <$> quoted rest
  end.

Definition parse (text : string) : outcome :=
  if String.eqb text "null" then Returns VNull
  else if String.eqb text "true" then Returns (VBool true)
  else if String.eqb text "false" then Returns (VBool false)
  else
    match number text, text with
    | Some n, _ => Returns (VNumber n)
    | None, String "034"%char rest =>
        match quoted rest with
        | Some s => Returns (VString s)
        | None => Throws (VString "SyntaxError")
        end
    | None, _ => Throws (VString "SyntaxError")
    end.

Definition page : Bus := fresh_page stringify parse 1000.

Definition returning (id : nat) (v : Value) : jsfun :=
  {| fn_id := id; fn_call := fun _ => Returns v |}.

Definition throwing (id : nat) : jsfun :=
  {| fn_id := id; fn_call := fun _ => Throws (VString "boom") |}.

(** [v => v > 0] *)
Definition is_positive : jsfun :=
  {| fn_id := 10;
     fn_call := fun args =>
       match args with
       | VNumber n :: _ => Returns (VBool (0 <? n))
       | _ => Returns (VBool false)
       end |}.

(** [v => 2 * v] *)
Definition double : jsfun :=
  {| fn_id := 11;
     fn_call := fun args =>
       match args with
       | VNumber n :: _ => Returns (VNumber (2 * n))
       | _ => Returns VUndefined
       end |}.

Definition onChange : jsfun := returning 1 VUndefined.
Definition onInit : jsfun := returning 2 VUndefined.
Definition onClear : jsfun := returning 3 VUndefined.
Definition subscriber : jsfun := returning 4 VUndefined.
Definition first_listener : jsfun := returning 5 VUndefined.
Definition second_listener : jsfun := returning 6 VUndefined.

Definition plain : Config.t := Config.only_initialValue VUndefined.

Definition with_validate : Config.t :=
  {| Config.initialValue := VNumber 1; Config.storage := Some session;
     Config.storageKey := None; Config.ttl := None; Config.autoCleanup := false;
     Config.validate := Some is_positive; Config.transform := None;
     Config.onChange := Some onChange; Config.onInit := Some onInit;
     Config.onClear := None; Config.debounce := None; Config.throttle := None |}.

Definition with_transform : Config.t :=
  {| Config.initialValue := VUndefined; Config.storage := Some session;
     Config.storageKey := None; Config.ttl := None; Config.autoCleanup := false;
     Config.validate := Some is_positive; Config.transform := Some double;
     Config.onChange := None; Config.onInit := None;
     Config.onClear := None; Config.debounce := None; Config.throttle := None |}.

Definition with_onInit : Config.t :=
  {| Config.initialValue := VUndefined; Config.storage := None;
     Config.storageKey := None; Config.ttl := None; Config.autoCleanup := false;
     Config.validate := None; Config.transform := None;
     Config.onChange := None; Config.onInit := Some onInit;
     Config.onClear := None; Config.debounce := None; Config.throttle := None |}.

Definition with_debounce (ttl : option Z) : Config.t :=
  {| Config.initialValue := VNumber 0; Config.storage := None;
     Config.storageKey := None; Config.ttl := ttl; Config.autoCleanup := false;
     Config.validate := None; Config.transform := None;
     Config.onChange := Some onChange; Config.onInit := None;
     Config.onClear := None; Config.debounce := Some 100; Config.throttle := None |}.

Definition with_throttle : Config.t :=
  {| Config.initialValue := VNumber 0; Config.storage := None;
     Config.storageKey := None; Config.ttl := None; Config.autoCleanup := false;
     Config.validate := None; Config.transform := None;
     Config.onChange := Some onChange; Config.onInit := None;
     Config.onClear := None; Config.debounce := None; Config.throttle := Some 100 |}.

Definition with_throttle_and_ttl (ttl : Z) : Config.t :=
  {| Config.initialValue := VNumber 0; Config.storage := None;
     Config.storageKey := None; Config.ttl := Some ttl; Config.autoCleanup := false;
     Config.validate := None; Config.transform := None;
     Config.onChange := Some onChange; Config.onInit := None;
     Config.onClear := None; Config.debounce := None; Config.throttle := Some 100 |}.

Definition with_autoCleanup : Config.t :=
  {| Config.initialValue := VNumber 0; Config.storage := Some local;
     Config.storageKey := Some "kept"; Config.ttl := Some 5000;
     Config.autoCleanup := true;
     Config.validate := None; Config.transform := None;
     Config.onChange := Some onChange; Config.onInit := None;
     Config.onClear := Some onClear; Config.debounce := Some 100;
     Config.throttle := None |}.

Definition debounced_listener : Options.t :=
  {| Options.validate := None; Options.transform := None;
     Options.debounce := Some 100; Options.throttle := None; Options.once := false |}.

(** The page after [EventBus.channel(name, cfg)]. *)
Definition page_with (name : string) (cfg : Config.t) : Bus :=
  exec (channel name (Some cfg)) page.

(** The channel object of that page. *)
Definition object_of (name : string) (cfg : Config.t) : Channel :=
  created_channel page name (Some cfg).

(** The channel object registered under [name] on the page [s], and the
    registration and timer behind a reference or handle. *)
Definition channel_on (s : Bus) (name : string) : Channel :=
  default (object_of name plain)
    (match channels s !! name with
     | Some a => channelObjects s !! a
     | None => None
     end).

Definition registration_on (s : Bus) (r : ref) : Registration :=
  default {| eventName := ""; listener := first_listener; options := None; listeners := 0%nat;
             debounceTimer := None; lastCallTime := 0; hasExecuted := false |}
    (registrations s !! r).

Definition timer_on (s : Bus) (id : positive) : Timer :=
  default {| timer_id := id; due := 0; callback := TtlExpiry "" |} (pending id s).

(** Pages used below. *)
Definition validated_page : Bus := page_with "count" with_validate.

Definition transformed_page : Bus :=
  exec (subscribe "n" subscriber) (page_with "n" with_transform).

Definition debounced_page : Bus := page_with "c" (with_debounce (Some 300)).

Definition throttled_page : Bus := page_with "c" with_throttle.

(** A throttled channel ["c"] with a TTL of five seconds, beside a channel
    ["d"] whose debounced [onChange] is pending. *)
Definition busy_throttled_page : Bus :=
  exec (publish "d" (VNumber 7))
    (exec (channel "d" (Some (with_debounce None)))
       (page_with "c" (with_throttle_and_ttl 5000))).

(** A throttled channel on a page whose clock reads less than the throttle. *)
Definition early_throttled_page : Bus :=
  exec (channel "c" (Some with_throttle)) (fresh_page stringify parse 50).

Definition subscribed_page : Bus :=
  exec (subscribe "c" subscriber)
    (exec (publish "c" (VNumber 42)) (page_with "c" with_autoCleanup)).

Definition the_handle : Unsubscribe :=
  {| sub_channelName := "c"; sub_channel := 0%nat; sub_callback := subscriber |}.

Definition listening_page : Bus :=
  exec (emit "e" (VNumber 1)) (exec (on "e" first_listener (Some debounced_listener)) page).

End Sample.

(** * EventBus: the rest of the interface *)

(** ** Iterating over [channels]

    A JavaScript [Map] is visited in insertion order.  [channels.set] is
    called by [channel] only, for a name that is not in the map, with the
    channel object that call allocates; references are allocated in
    increasing order.  So the entries of [channels] are in insertion order
    when they are in the order of their references. *)

Definition inserted_before (x y : string * ref) : Prop := (x.2 ≤ y.2)%nat.

#[global] Instance inserted_before_dec x y : Decision (inserted_before x y).
Proof. unfold inserted_before. apply _. Defined.

Definition entries (m : gmap string ref) : list (string * ref) :=
  merge_sort inserted_before (map_to_list m).

(** [this.channels.forEach((channel, name) => ...)]: an entry deleted
    before its turn is not visited.  (The callbacks used here add none.) *)
Definition forEachChannel (f : ref -> string -> M unit) : M unit :=
  let* chans := gets channels in
  forEach (entries chans) (fun e =>
    let* live := gets channels in
    when (bool_decide (live !! e.1 = Some e.2)) (f e.2 e.1)).

(** [channel.storage], as a JavaScript value. *)
Definition storage_value (mode : StorageMode) : Value := VString (mode_name mode).

(** The listener [init] registers for [beforeunload]. *)
Definition beforeunload_listener : M unit :=
  forEachChannel (fun a name =>
    let* channel := channelAt a in
    when (bool_decide (storage channel = memory)) (clear name)).

(** The page goes away: the host dispatches [beforeunload]; the listener
    is there if [init] has run. *)
Definition beforeunload : M unit :=
  let* registered := gets initialized in
  when registered beforeunload_listener.

Definition clearAll (storageOnly : Value) : M unit :=
  if truthy storageOnly then
    forEachChannel (fun a channelName =>
      let* channel := channelAt a in
      when (strict_eq (storage_value (storage channel)) storageOnly) (clear channelName))
  else forEachChannel (fun _ channelName => clear channelName).

(** The object [getChannelInfo] returns. *)
Record ChannelInfo := {
  info_storage : StorageMode;
  info_storageKey : string;
  info_subscribersCount : nat;
  info_ttl : option Z;
  info_autoCleanup : bool;
  info_createdAt : Z;
  info_age : Z
}.

Definition getChannelInfo (channelName : string) : M (option ChannelInfo) :=
  let* chans := gets channels in
  match chans !! channelName with
  | None => ret None
  | Some a =>
      let* channel := channelAt a in
      let* now := Date_now in
      ret (Some {| info_storage := storage channel;
                   info_storageKey := storageKey channel;
                   info_subscribersCount := length (subscribers channel);
                   info_ttl := ttl channel;
                   info_autoCleanup := autoCleanup channel;
                   info_createdAt := createdAt channel;
                   info_age := now - createdAt channel |})
  end.

(** [Array.from(this.channels.keys())] *)
Definition listChannels : M (list string) :=
  gets (fun s => (entries (channels s)).*1).

(** ** What the iterations over [channels] do, in closed form *)

(** The visit of the entry [e], when [sel] tells which channels are to be
    cleared. *)
Definition clear_entry (sel : Channel -> bool) (s : Bus) (e : string * ref) : Bus :=
  match channelObjects s !! e.2 with
  | Some ch => if sel ch then clear_result e.1 e.2 ch s else s
  | None => s
  end.

Definition clear_entries (sel : Channel -> bool) (l : list (string * ref)) (s : Bus) : Bus :=
  foldl (clear_entry sel) s l.

(** Which channels [clearAll(storageOnly)] clears. *)
Definition cleared_by (storageOnly : Value) (ch : Channel) : bool :=
  negb (truthy storageOnly) || strict_eq (storage_value (storage ch)) storageOnly.

Definition in_memory (ch : Channel) : bool := bool_decide (storage ch = memory).

(** Is the object behind [a] one that [sel] selects? *)
Definition selected (sel : Channel -> bool) (s : Bus) (a : ref) : bool :=
  match channelObjects s !! a with
  | Some ch => sel ch
  | None => false
  end.

(** The error, if any, that the call of the subscriber [cb] with [w] at
    time [t] reports. *)
Definition subscriber_error (name : string) (w : Value) (t : Z) (cb : jsfun)
    : list (Z * Event) :=
  match fn_call cb [w] with
  | Returns _ => []
  | Throws e => [(t, ConsoleError SSubscriber name e)]
  end.

(** ** Reading traces, continued *)

Definition is_error (site : Site) (name : string) (e : Z * Event) : bool :=
  match e.2 with
  | ConsoleError site' name' _ => bool_decide (site' = site) && bool_decide (name' = name)
  | _ => false
  end.

(** The errors reported from [site] for the channel or event [name]. *)
Definition errors_at (site : Site) (name : string) (tr : list (Z * Event)) : list (Z * Event) :=
  List.filter (is_error site name) tr.

(** ** Instant events, in closed form *)

(** The data that reaches the listener of a registration with [options]:
    [None] when [validate] says no or an option throws. *)
Definition event_value (options : option Options.t) (data : Value) : option Value :=
  if validated (opt_field Options.validate options) data
  then transformed (opt_field Options.transform options) data
  else None.

(** A registration whose listener is called during [emit]: no [debounce],
    no [throttle], and not [once]. *)
Definition immediate (reg : Registration) : Prop :=
  truthy_num (opt_field Options.debounce (options reg)) = false
  ∧ truthy_num (opt_field Options.throttle (options reg)) = false
  ∧ opt_flag Options.once (options reg) = false.

(** The call that [emit] makes to the listener of [reg], if any. *)
Definition delivery (name : string) (data : Value) (t : Z) (reg : Registration)
    : list (Z * Event) :=
  match event_value (options reg) data with
  | Some w => [(t, Invoke SListener name (fn_id (listener reg)) [w])]
  | None => []
  end.

(** [emit(name, d)] for each [d] of [ds], in turn. *)
Definition emit_all (name : string) (ds : list Value) (s : Bus) : Bus :=
  foldl (fun s d => exec (emit name d) s) s ds.


(** The [Set] behind [sa] is in the store. *)
Definition set_kept (sa : ref) (s : Bus) : Prop := is_Some (setObjects s !! sa).

(** ** Consistent registries

    In the source a [Map] holds its values: a name in [channels] has its
    channel object, a name in [eventListeners] has its [Set].  With stores
    indexed by reference that is a property of the page, kept by every
    method; so is the fact that a channel exists only once [init] has run. *)
Record registry_wf (s : Bus) : Prop := {
  rw_channels : map_Forall (fun _ a => is_Some (channelObjects s !! a)) (channels s);
  rw_listeners : map_Forall (fun _ sa => is_Some (setObjects s !! sa)) (eventListeners s);
  rw_initialized : channels s ≠ ∅ → initialized s = true
}.

(** The statement [m] keeps the property [P] of pages, however it
    completes. *)
Definition preserves (P : Bus → Prop) {A} (m : M A) : Prop :=
  ∀ s, P s → P (exec m s).

(** ** The life of a page *)

(** One step in the life of a page: the host program calls a method of the
    bus or a function the bus returned to it, time passes, or the page goes
    away. *)
Inductive Step :=
  | CallChannel (channelName : string) (config : option Config.t)
  | CallPublish (channelName : string) (value : Value)
  | CallSubscribe (channelName : string) (callback : jsfun)
  | CallUnsubscribe (h : Unsubscribe)
  | CallGetValue (channelName : string)
  | CallClear (channelName : string)
  | CallClearAll (storageOnly : Value)
  | CallGetChannelInfo (channelName : string)
  | CallEmit (eventName : string) (data : Value)
  | CallOn (eventName : string) (listener : jsfun) (options : option Options.t)
  | CallOnce (eventName : string) (listener : jsfun)
  | CallOff (eventName : string)
  | CallUnlisten (r : ref)
  | Wait (t : Z)
  | ClockReads (t : Z)
  | Unload.

Definition step (c : Step) (s : Bus) : Bus :=
  match c with
  | CallChannel channelName config => exec (channel channelName config) s
  | CallPublish channelName value => exec (publish channelName value) s
  | CallSubscribe channelName callback => exec (subscribe channelName callback) s
  | CallUnsubscribe h => exec (unsubscribe h) s
  | CallGetValue channelName => exec (getValue channelName) s
  | CallClear channelName => exec (clear channelName) s
  | CallClearAll storageOnly => exec (clearAll storageOnly) s
  | CallGetChannelInfo channelName => exec (getChannelInfo channelName) s
  | CallEmit eventName data => exec (emit eventName data) s
  | CallOn eventName listener options => exec (on eventName listener options) s
  | CallOnce eventName listener => exec (once eventName listener) s
  | CallOff eventName => exec (off eventName) s
  | CallUnlisten r => exec (unlisten r) s
  | Wait t => exec (runTimers t) s
  | ClockReads t => at_time t s
  | Unload => exec beforeunload s
  end.

Fixpoint run (steps : list Step) (s : Bus) : Bus :=
  match steps with
  | [] => s
  | c :: steps' => run steps' (step c s)
  end.

(** ** More sample pages *)

Module Demo.

(** A serialiser that fails on the object [0], as [JSON.stringify] does on
    a cyclic structure. *)
Definition stringify (v : Value) : json_text :=
  match v with
  | VObject 0 => JsonThrows (VString "TypeError")
  | _ => Sample.stringify v
  end.

Definition page : Bus := fresh_page stringify Sample.parse 1000.

Definition in_session : Config.t :=
  {| Config.initialValue := VNumber 1; Config.storage := Some session;
     Config.storageKey := None; Config.ttl := None; Config.autoCleanup := false;
     Config.validate := None; Config.transform := None;
     Config.onChange := None; Config.onInit := Some Sample.onInit;
     Config.onClear := Some Sample.onClear; Config.debounce := None;
     Config.throttle := None |}.

Definition in_local : Config.t :=
  {| Config.initialValue := VNumber 2; Config.storage := Some local;
     Config.storageKey := Some "kept"; Config.ttl := None; Config.autoCleanup := false;
     Config.validate := None; Config.transform := None;
     Config.onChange := None; Config.onInit := None;
     Config.onClear := None; Config.debounce := None; Config.throttle := None |}.

Definition failing_transform : Config.t :=
  {| Config.initialValue := VNumber 1; Config.storage := Some session;
     Config.storageKey := None; Config.ttl := None; Config.autoCleanup := false;
     Config.validate := Some Sample.is_positive; Config.transform := Some (Sample.throwing 8);
     Config.onChange := Some Sample.onChange; Config.onInit := None;
     Config.onClear := None; Config.debounce := None; Config.throttle := None |}.

Definition expiring : Config.t :=
  {| Config.initialValue := VNumber 1; Config.storage := Some session;
     Config.storageKey := None; Config.ttl := Some 5000; Config.autoCleanup := false;
     Config.validate := None; Config.transform := None;
     Config.onChange := None; Config.onInit := None;
     Config.onClear := Some Sample.onClear; Config.debounce := None;
     Config.throttle := None |}.

(** A TTL one millisecond longer than the host's timer keeps. *)
Definition overlong : Config.t :=
  {| Config.initialValue := VNumber 1; Config.storage := Some session;
     Config.storageKey := None; Config.ttl := Some 2147483648; Config.autoCleanup := false;
     Config.validate := None; Config.transform := None;
     Config.onChange := None; Config.onInit := None;
     Config.onClear := Some Sample.onClear; Config.debounce := None;
     Config.throttle := None |}.

Definition cleaning : Config.t :=
  {| Config.initialValue := VNumber 0; Config.storage := None;
     Config.storageKey := None; Config.ttl := None; Config.autoCleanup := true;
     Config.validate := None; Config.transform := None;
     Config.onChange := None; Config.onInit := None;
     Config.onClear := Some Sample.onClear; Config.debounce := None;
     Config.throttle := None |}.

Definition filtering : Options.t :=
  {| Options.validate := Some Sample.is_positive; Options.transform := Some Sample.double;
     Options.debounce := None; Options.throttle := None; Options.once := false |}.


(** A page whose session storage holds [text] under ["lithium:n"]. *)
Definition stored_page (text : string) : Bus :=
  set_sessionStorage {[ "lithium:n" := text ]} Sample.page.

(** A channel with a subscriber that throws and one that returns. *)
Definition two_subscribers : Bus :=
  run [CallChannel "c" (Some Sample.plain); CallSubscribe "c" (Sample.throwing 7);
       CallSubscribe "c" Sample.subscriber] Sample.page.

(** A channel persisted in session storage, with a subscriber, on a page
    whose serialiser may fail. *)
Definition persisted : Bus :=
  run [CallChannel "n" (Some in_session); CallSubscribe "n" Sample.subscriber] page.

Definition with_failing_transform : Bus :=
  run [CallChannel "n" (Some failing_transform)] Sample.page.

Definition plain_channel : Bus := run [CallChannel "c" (Some Sample.plain)] Sample.page.

(** A channel with [autoCleanup] is subscribed to and cleared; another
    channel is created under its name and subscribed to. *)
Definition recreated : Bus :=
  run [CallChannel "c" (Some cleaning); CallSubscribe "c" Sample.first_listener;
       CallClear "c"; CallChannel "c" (Some Sample.plain);
       CallSubscribe "c" Sample.second_listener] Sample.page.

Definition stale_handle : Unsubscribe :=
  {| sub_channelName := "c"; sub_channel := 0%nat; sub_callback := Sample.first_listener |}.

(** Three channels, one for each storage mode. *)
Definition three_channels : Bus :=
  run [CallChannel "m" (Some Sample.plain); CallChannel "s" (Some in_session);
       CallChannel "l" (Some in_local)] Sample.page.

(** Two listeners of one event, the second with [validate] and
    [transform]. *)
Definition two_listeners : Bus :=
  run [CallOn "e" Sample.first_listener None;
       CallOn "e" Sample.second_listener (Some filtering)] Sample.page.


Definition once_listener : Bus := run [CallOnce "e" Sample.first_listener] Sample.page.

Definition throwing_listener : Bus :=
  run [CallOn "e" (Sample.throwing 7) (Some filtering)] Sample.page.

(** The page after a reload of the page on which ["n"] was published:
    session storage is what it was, the bus is new. *)
Definition reloaded : Bus :=
  set_sessionStorage
    (sessionStorage (exec (publish "n" (VNumber 21)) Sample.transformed_page)) Sample.page.

End Demo.

(** * Properties *)

(** ** Stepping through statements *)

Lemma bind_eq {A B} (m : M A) (k : A → M B) s a s' :
  m s = (Normal a, s') → bind m k s = k a s'.
Proof. unfold bind. by intros ->. Qed.

Lemma bus_ext (s1 s2 : Bus) :
  channels s1 = channels s2 → initialized s1 = initialized s2 →
  eventListeners s1 = eventListeners s2 → channelObjects s1 = channelObjects s2 →
  setObjects s1 = setObjects s2 → registrations s1 = registrations s2 →
  nextRef s1 = nextRef s2 → timers s1 = timers s2 → nextTimer s1 = nextTimer s2 →
  sessionStorage s1 = sessionStorage s2 → localStorage s1 = localStorage s2 →
  JSON_stringify s1 = JSON_stringify s2 → JSON_parse s1 = JSON_parse s2 →
  clock s1 = clock s2 → trace s1 = trace s2 → s1 = s2.
Proof. destruct s1, s2; simpl; intros; by subst. Qed.

Lemma channel_ext (c1 c2 : Channel) :
  signal c1 = signal c2 → storage c1 = storage c2 → storageKey c1 = storageKey c2 →
  subscribers c1 = subscribers c2 → ttl c1 = ttl c2 → autoCleanup c1 = autoCleanup c2 →
  createdAt c1 = createdAt c2 → config c1 = config c2 →
  isInitialized c1 = isInitialized c2 → timeoutId c1 = timeoutId c2 →
  onChangeDebounceTimer c1 = onChangeDebounceTimer c2 →
  onChangeLastCall c1 = onChangeLastCall c2 → c1 = c2.
Proof. destruct c1, c2; simpl; intros; by subst. Qed.

Ltac bus_simpl :=
  cbn [channels initialized eventListeners channelObjects setObjects registrations nextRef
       timers nextTimer sessionStorage localStorage JSON_stringify JSON_parse clock trace
       set_channels set_initialized set_eventListeners set_channelObjects set_setObjects
       set_registrations set_nextRef set_timers set_nextTimer set_sessionStorage
       set_localStorage set_clock set_trace log_events at_time
       signal storage storageKey subscribers ttl autoCleanup createdAt config isInitialized
       timeoutId onChangeDebounceTimer onChangeLastCall
       set_signal set_subscribers set_isInitialized set_timeoutId set_onChangeDebounceTimer
       set_onChangeLastCall
       eventName listener options listeners debounceTimer lastCallTime hasExecuted
       set_debounceTimer set_lastCallTime set_hasExecuted
       timer_id due callback fst snd] in *.

Lemma log_events_nil s : log_events [] s = s.
Proof. destruct s. unfold log_events, set_trace. simpl. by rewrite app_nil_r. Qed.

Lemma log_events_app es1 es2 s :
  log_events es2 (log_events es1 s) = log_events (es1 ++ es2) s.
Proof. unfold log_events, set_trace, stamp. simpl. by rewrite map_app, app_assoc. Qed.

Lemma invoke_eq site name f args s :
  invoke site name f args s =
    (match fn_call f args with Returns v => Normal v | Throws e => Abrupt e end,
     log_events [Invoke site name (fn_id f) args] s).
Proof. unfold invoke, bind, log, modify, log_events. simpl. by destruct (fn_call f args). Qed.

Lemma guarded_eq site name f args s :
  try_catch (invoke site name f args ;;; ret tt) (fun e => console_error site name e) s =
    (Normal tt, log_events (guarded_events site name f args) s).
Proof.
  unfold try_catch, bind. rewrite invoke_eq. unfold guarded_events.
  destruct (fn_call f args); simpl; [done|].
  unfold console_error, log, modify, log_events. simpl. by rewrite <- app_assoc.
Qed.

Lemma forEach_subscribers name w subs s :
  forEach subs (fun callback =>
    try_catch (invoke SSubscriber name callback [w] ;;; ret tt)
      (fun error => console_error SSubscriber name error)) s =
  (Normal tt,
   log_events (concat (map (fun cb => guarded_events SSubscriber name cb [w]) subs)) s).
Proof.
  revert s. induction subs as [|cb subs IH]; intros s; simpl.
  - by rewrite log_events_nil.
  - unfold bind at 1. rewrite guarded_eq, IH. by rewrite log_events_app.
Qed.

Lemma updateChannel_eq a f c s :
  channelObjects s !! a = Some c →
  updateChannel a f s = (Normal tt, set_channelObjects (<[a := f c]> (channelObjects s)) s).
Proof. intros H. unfold updateChannel, bind, channelAt. by rewrite H. Qed.

Lemma persist_eq key w mode s :
  (if bool_decide (mode ≠ memory) then saveToStorage key w mode
   else console_log "[EventBus.publish] Skipping storage (memory mode)") s =
  (Normal tt, persist_step key w mode s).
Proof.
  destruct s as [? ? ? ? ? ? ? ? ? ? ? stringify parse ? ?].
  unfold persist_step, persist_events, persisted_text, saveToStorage.
  destruct mode; simpl; [done| |];
    unfold try_catch, bind, gets; simpl;
    destruct (stringify w); simpl; rewrite ?app_nil_r; done.
Qed.

Lemma validate_step name vopt value s :
  validated vopt value = true →
  match vopt with
  | Some validate => let* r := invoke SValidate name validate [value] in ret (truthy r)
  | None => ret true
  end s = (Normal true, log_events (call_events SValidate name vopt [value]) s).
Proof.
  unfold validated. destruct vopt as [f|]; simpl.
  - unfold bind. rewrite invoke_eq. destruct (fn_call f [value]); [|done].
    by intros ->.
  - intros _. by rewrite log_events_nil.
Qed.

Lemma transform_step name topt value w s :
  transformed topt value = Some w →
  match topt with
  | Some transform => invoke STransform name transform [value]
  | None => ret value
  end s = (Normal w, log_events (call_events STransform name topt [value]) s).
Proof.
  unfold transformed. destruct topt as [f|]; simpl.
  - rewrite invoke_eq. destruct (fn_call f [value]); [|done]. by intros [= ->].
  - intros [= ->]. by rewrite log_events_nil.
Qed.

Lemma init_step_eq name a ch w s :
  channelObjects s !! a = Some (set_signal w ch) →
  when (negb (isInitialized (set_signal w ch)) && non_absent w)
     (updateChannel a (set_isInitialized true) ;;;
      whenSome (opt_field Config.onInit (config ch)) (fun onInit =>
        try_catch (invoke SOnInit name onInit [w] ;;; ret tt)
          (fun error => console_error SOnInit name error))) s =
  (Normal tt, init_step name a ch w s).
Proof.
  intros Ha. unfold init_step, onInit_events.
  destruct s, ch as [sig sto key subs ttl0 ac cr cfg ini tid dt lc]; simpl in *.
  destruct ini; simpl.
  - rewrite app_nil_r, insert_id by done. done.
  - destruct (non_absent w); simpl.
    + unfold bind at 1. erewrite updateChannel_eq by done. simpl.
      destruct (opt_field Config.onInit cfg) as [f|]; simpl.
      * by rewrite guarded_eq.
      * by rewrite app_nil_r.
    + rewrite app_nil_r, insert_id by done. done.
Qed.

Lemma executeOnChange_eq name a ch w old s :
  channelObjects s !! a = Some ch →
  when (bool_decide (is_Some (opt_field Config.onChange (config ch))))
    (executeOnChange name a w old) s = (Normal tt, change_step name a ch w old s).
Proof.
  intros Ha.
  unfold change_step, onChange_events, onChange_timer, debounced, throttled,
    throttle_open, executeOnChange.
  destruct s, ch as [sig sto key subs ttl0 ac cr cfg ini tid dt lc]; simpl in *.
  destruct (opt_field Config.onChange cfg) as [f|] eqn:Hf; simpl.
  2:{ rewrite app_nil_r, insert_id by done. done. }
  unfold bind at 1. unfold channelAt at 1. simpl. rewrite Ha. simpl. rewrite Hf.
  destruct (truthy_num (opt_field Config.debounce cfg)) eqn:Hd; simpl.
  - unfold bind, whenSome, clearTimeout, modify, updateChannel, channelAt, setTimeout, bind;
      simpl.
    destruct dt; simpl; rewrite Ha; simpl; rewrite app_nil_r; done.
  - destruct (truthy_num (opt_field Config.throttle cfg)) eqn:Ht; simpl.
    + unfold bind, Date_now, gets, when. simpl.
      destruct (_ <=? _) eqn:Ho.
      * erewrite updateChannel_eq by done. unfold executeCallback. by rewrite guarded_eq.
      * rewrite app_nil_r, insert_id by done. done.
    + unfold executeCallback. rewrite guarded_eq. rewrite insert_id by done. done.
Qed.

(** [publish] on an existing channel, when validation passes and no hook
    throws, computes [publish_result]. *)
Lemma publish_accepted (s : Bus) (name : string) (value w : Value) (a : ref) (ch : Channel) :
  channels s !! name = Some a →
  channelObjects s !! a = Some ch →
  published_value (config ch) value = Some w →
  publish name value s = (Normal tt, publish_result name a ch w value s).
Proof.
  intros Hn Ha Hp. unfold publish.
  erewrite bind_eq by (unfold gets; reflexivity). cbv beta. rewrite Hn.
  erewrite bind_eq by (unfold channelAt; rewrite Ha; reflexivity). cbv beta.
  unfold published_value in Hp.
  destruct (validated _ _) eqn:Hv; [|done].
  erewrite bind_eq by (apply validate_step, Hv). cbv beta. cbn [negb].
  erewrite bind_eq by (apply transform_step, Hp). cbv beta.
  erewrite bind_eq by (apply updateChannel_eq; simpl; exact Ha). cbv beta.
  erewrite bind_eq by (apply persist_eq). cbv beta.
  erewrite bind_eq by (unfold channelAt; simpl; rewrite lookup_insert_eq; reflexivity).
  cbv beta.
  erewrite bind_eq by (apply init_step_eq; simpl; apply lookup_insert_eq). cbv beta.
  erewrite bind_eq by
    (apply (executeOnChange_eq name a
              (set_isInitialized (isInitialized ch || non_absent w) (set_signal w ch)));
     simpl; apply lookup_insert_eq). cbv beta.
  erewrite bind_eq by (unfold channelAt; simpl; rewrite lookup_insert_eq; reflexivity).
  cbv beta.
  rewrite forEach_subscribers.
  f_equal.
  unfold publish_result, change_step, init_step, persist_step, published_channel.
  apply bus_ext; bus_simpl; try reflexivity.
  - rewrite !insert_insert_eq. f_equal. unfold throttle_open. bus_simpl.
    unfold debounced, throttled.
    destruct (bool_decide _), (truthy_num (opt_field Config.debounce _)),
      (truthy_num (opt_field Config.throttle _)), (_ <=? _);
      by apply channel_ext.
  - unfold publish_events, stamp. rewrite !map_app, <- !app_assoc.
    do 4 f_equal. apply (f_equal2 app).
    + reflexivity.
    + unfold subscriber_events.
      destruct (debounced (config ch)); [done|].
      by destruct (throttled (config ch) && _).
Qed.

(** [publish] on an existing channel, when validation says no or a hook
    throws, only adds to the trace. *)
Lemma publish_refused (s : Bus) (name : string) (value : Value) (a : ref) (ch : Channel) :
  channels s !! name = Some a →
  channelObjects s !! a = Some ch →
  published_value (config ch) value = None →
  exec (publish name value) s = log_events (refused_events name ch value) s.
Proof.
  intros Hn Ha Hp. unfold exec, publish.
  erewrite bind_eq by (unfold gets; reflexivity). cbv beta. rewrite Hn.
  erewrite bind_eq by (unfold channelAt; rewrite Ha; reflexivity). cbv beta.
  unfold published_value in Hp. unfold refused_events.
  destruct (validated _ _) eqn:Hv.
  - erewrite bind_eq by (apply validate_step, Hv). cbv beta. cbn [negb].
    unfold transformed in Hp.
    destruct (opt_field Config.transform (config ch)) as [t|]; [|done].
    unfold bind. rewrite invoke_eq. destruct (fn_call t [value]); [done|].
    simpl. by rewrite log_events_app.
  - unfold validated in Hv.
    destruct (opt_field Config.validate (config ch)) as [f|]; [|done].
    unfold bind at 1. unfold bind at 1. rewrite invoke_eq.
    destruct (fn_call f [value]) as [r|e]; simpl.
    + rewrite Hv. simpl. unfold console_warn, log, modify, log_events. simpl.
      by rewrite <- app_assoc.
    + done.
Qed.

Lemma getFromStorage_eq key mode s :
  getFromStorage key mode s =
    (Normal (stored_value s key mode), log_events (storage_read_events s key mode) s).
Proof.
  unfold getFromStorage, stored_value, storage_read_events, storeOf.
  destruct mode; simpl.
  - by rewrite log_events_nil.
  - unfold try_catch, bind, gets. simpl.
    destruct (sessionStorage s !! key) as [[|c text]|]; simpl; rewrite ?log_events_nil; try done.
    destruct (JSON_parse s (String c text)); simpl; by rewrite ?log_events_nil.
  - unfold try_catch, bind, gets. simpl.
    destruct (localStorage s !! key) as [[|c text]|]; simpl; rewrite ?log_events_nil; try done.
    destruct (JSON_parse s (String c text)); simpl; by rewrite ?log_events_nil.
Qed.

(** [channel] on a name that has no channel computes [channel_result]. *)
Lemma channel_new (s : Bus) (name : string) (cfg : option Config.t) :
  channels s !! name = None →
  channel name cfg s = (Normal (nextRef s), channel_result name cfg s).
Proof.
  intros Hn. unfold channel.
  assert (Hinit : init s = (Normal tt, set_initialized true s)).
  { unfold init, bind, gets, modify. destruct s. simpl. by destruct initialized0. }
  erewrite bind_eq by exact Hinit. cbv beta.
  erewrite bind_eq by (unfold gets; reflexivity). cbv beta. bus_simpl. rewrite Hn.
  erewrite bind_eq by apply getFromStorage_eq. cbv beta.
  erewrite bind_eq by (unfold Date_now, gets; reflexivity). cbv beta.
  erewrite bind_eq by (unfold fresh; reflexivity). cbv beta.
  erewrite bind_eq by (unfold modify; reflexivity). cbv beta.
  erewrite bind_eq by (unfold modify; reflexivity). cbv beta.
  unfold channel_result, created_channel, creation_events, resolved_value, config_storage,
    config_storageKey.
  set (v := if strict_eq _ _ then _ else _).
  destruct (truthy_num (opt_field Config.ttl cfg)) eqn:Httl; cbn [when].
  - erewrite bind_eq.
    2:{ erewrite bind_eq by (unfold setTimeout; reflexivity). cbv beta.
        apply updateChannel_eq. bus_simpl. apply lookup_insert_eq. }
    cbv beta.
    destruct (opt_field Config.onInit cfg) as [f|]; [destruct (non_absent v) eqn:Hv|];
      cbn [when]; rewrite ?(bind_eq _ _ _ _ _ (guarded_eq _ _ _ _ _));
      unfold ret, bind; f_equal; apply bus_ext; bus_simpl; try reflexivity;
      first [ rewrite insert_insert_eq; f_equal; by apply channel_ext
            | unfold stamp; by rewrite ?map_app, <- ?app_assoc, ?app_nil_r ].
  - unfold ret at 1. unfold bind at 1.
    destruct (opt_field Config.onInit cfg) as [f|]; [destruct (non_absent v) eqn:Hv|];
      cbn [when]; rewrite ?(bind_eq _ _ _ _ _ (guarded_eq _ _ _ _ _));
      unfold ret, bind; f_equal; apply bus_ext; bus_simpl; try reflexivity;
      first [ f_equal; by apply channel_ext
            | unfold stamp; by rewrite ?map_app, <- ?app_assoc, ?app_nil_r ].
Qed.

(** ** Reading the trace *)

Lemma produced_eq {A} (m : M A) s tr :
  trace (exec m s) = trace s ++ tr → produced m s = tr.
Proof. intros H. unfold produced. rewrite H. apply drop_app_length. Qed.

Lemma produced_publish_accepted s name value w a ch :
  channels s !! name = Some a →
  channelObjects s !! a = Some ch →
  published_value (config ch) value = Some w →
  produced (publish name value) s = stamp (clock s) (publish_events s name ch value w).
Proof.
  intros Hn Ha Hp. apply produced_eq. unfold exec.
  by rewrite (publish_accepted _ _ _ _ _ _ Hn Ha Hp).
Qed.

Lemma stamp_app t l1 l2 : stamp t (l1 ++ l2) = stamp t l1 ++ stamp t l2.
Proof. apply map_app. Qed.

Lemma calls_at_app site name l1 l2 :
  calls_at site name (l1 ++ l2) = calls_at site name l1 ++ calls_at site name l2.
Proof. apply List.filter_app. Qed.

Lemma calls_at_call_events site name site' name' f args t :
  site' ≠ site →
  calls_at site name (stamp t (call_events site' name' f args)) = [].
Proof.
  intros Hs. destruct f as [f|]; [|done]. unfold calls_at. simpl. unfold is_call. simpl.
  by rewrite (bool_decide_eq_false_2 _ Hs).
Qed.

Lemma calls_at_guarded_other site name site' name' f args t :
  site' ≠ site →
  calls_at site name (stamp t (guarded_events site' name' f args)) = [].
Proof.
  intros Hs. unfold calls_at, guarded_events. simpl. unfold is_call at 1. simpl.
  rewrite (bool_decide_eq_false_2 _ Hs). simpl.
  by destruct (fn_call f args).
Qed.

Lemma calls_at_guarded site name f args t :
  calls_at site name (stamp t (guarded_events site name f args)) =
    [(t, Invoke site name (fn_id f) args)].
Proof.
  unfold calls_at, guarded_events. simpl. unfold is_call at 1. simpl.
  rewrite !bool_decide_eq_true_2 by done. simpl.
  by destruct (fn_call f args).
Qed.

Lemma calls_at_persist site name s mode w t :
  calls_at site name (stamp t (persist_events s mode w)) = [].
Proof.
  unfold persist_events. destruct mode; [done| |]; by destruct (JSON_stringify s w).
Qed.

Lemma calls_at_onInit_other site name name' ch w t :
  site ≠ SOnInit →
  calls_at site name (stamp t (onInit_events name' ch w)) = [].
Proof.
  intros Hs. unfold onInit_events.
  destruct (negb _ && _); [|done].
  destruct (opt_field Config.onInit (config ch)); [|done].
  by apply calls_at_guarded_other.
Qed.

Lemma calls_at_onChange_other site name name' ch now w t :
  site ≠ SOnChange →
  calls_at site name (stamp t (onChange_events name' ch now w)) = [].
Proof.
  intros Hs. unfold onChange_events.
  destruct (opt_field Config.onChange (config ch)); [|done].
  destruct (truthy_num (opt_field Config.debounce _)); [done|].
  destruct (truthy_num (opt_field Config.throttle _)); [destruct (throttle_open _ _)|];
    try done; by apply calls_at_guarded_other.
Qed.

Lemma calls_at_subscribers_other site name name' ch w t :
  site ≠ SSubscriber →
  calls_at site name (stamp t (subscriber_events name' ch w)) = [].
Proof.
  intros Hs. unfold subscriber_events.
  induction (subscribers ch) as [|cb l IH]; [done|].
  cbn [map concat]. rewrite stamp_app, calls_at_app, IH.
  by rewrite (calls_at_guarded_other site name SSubscriber name' cb [w] t).
Qed.

Lemma calls_at_subscribers name ch w t :
  calls_at SSubscriber name (stamp t (subscriber_events name ch w)) =
    map (fun cb => (t, Invoke SSubscriber name (fn_id cb) [w])) (subscribers ch).
Proof.
  unfold subscriber_events.
  induction (subscribers ch) as [|cb l IH]; [done|].
  cbn [map concat]. rewrite stamp_app, calls_at_app, IH.
  by rewrite (calls_at_guarded SSubscriber name cb [w] t).
Qed.

Lemma calls_at_refused site name name' ch value t :
  site ≠ SValidate → site ≠ STransform →
  calls_at site name (stamp t (refused_events name' ch value)) = [].
Proof.
  intros H1 H2. unfold refused_events. rewrite stamp_app, calls_at_app.
  rewrite (calls_at_call_events _ _ SValidate) by done.
  destruct (validated _ _).
  - by rewrite (calls_at_call_events _ _ STransform).
  - destruct (opt_field Config.validate (config ch)) as [f|]; [|done].
    by destruct (fn_call f [value]).
Qed.

(** The calls of [site] among the events of a successful [publish]. *)
Lemma calls_at_publish_events site name s ch value w t :
  site ≠ SValidate → site ≠ STransform →
  calls_at site name (stamp t (publish_events s name ch value w)) =
    calls_at site name (stamp t (onInit_events name ch w))
    ++ calls_at site name (stamp t (onChange_events name ch (clock s) w))
    ++ calls_at site name (stamp t (subscriber_events name ch w)).
Proof.
  intros H1 H2. unfold publish_events. rewrite !stamp_app, !calls_at_app.
  rewrite (calls_at_call_events _ _ SValidate), (calls_at_call_events _ _ STransform) by done.
  by rewrite (calls_at_persist site name s (storage ch) w t).
Qed.

Lemma getValue_eq s name a ch :
  channels s !! name = Some a →
  channelObjects s !! a = Some ch →
  getValue name s = (Normal (signal ch), s).
Proof.
  intros Hn Ha. unfold getValue, bind, gets, channelAt. by rewrite Hn, Ha.
Qed.

(** ** Channels: validation, transformation, implicit creation *)

(** C1.  On an existing channel whose [validate] hook returns [false] (or
    any other falsy value) for the published value, [publish] returns having
    changed nothing on the page but the trace: the signal, both storages,
    the timers and every channel are as before, and the only events are the
    call of [validate] followed by one warning; so no [onInit], [onChange]
    or subscriber call happened. *)
Theorem publish_rejected_is_atomic (s : Bus) (channelName : string) (value r : Value)
    (a : ref) (ch : Channel) (cfg : Config.t) (validate : jsfun) :
  channels s !! channelName = Some a →
  channelObjects s !! a = Some ch →
  config ch = Some cfg →
  Config.validate cfg = Some validate →
  fn_call validate [value] = Returns r →
  truthy r = false →
  publish channelName value s =
    (Normal tt,
     set_trace (trace s ++ [(clock s, Invoke SValidate channelName (fn_id validate) [value]);
                            (clock s, ConsoleWarn channelName value)]) s).
Proof.
  intros Hn Ha Hc Hv Hr Ht.
  unfold publish, bind, gets. simpl. rewrite Hn. unfold channelAt. rewrite Ha, Hc. simpl.
  rewrite Hv. unfold invoke, bind, log, modify. simpl. rewrite Hr. unfold ret.
  rewrite Ht. simpl. unfold console_warn, log, modify. simpl.
  by rewrite <- app_assoc.
Qed.

(** C2.  On an existing channel with a [transform] hook, for a value that
    passes validation: [transform] is called on the raw value after the
    call of [validate]; what it returns is what [getValue] returns
    afterwards, what is serialised into the channel's storage entry when
    the storage mode is not [memory], and the argument of every subscriber
    call, one call per subscriber. *)
Theorem publish_delivers_transform_output (s : Bus) (name : string) (value w : Value)
    (a : ref) (ch : Channel) (transform : jsfun) :
  channels s !! name = Some a →
  channelObjects s !! a = Some ch →
  opt_field Config.transform (config ch) = Some transform →
  validated (opt_field Config.validate (config ch)) value = true →
  fn_call transform [value] = Returns w →
  let s' := exec (publish name value) s in
  result (publish name value) s = Normal tt
  ∧ (∃ later,
       produced (publish name value) s =
         stamp (clock s)
           (call_events SValidate name (opt_field Config.validate (config ch)) [value]
            ++ Invoke STransform name (fn_id transform) [value] :: later))
  ∧ result (getValue name) s' = Normal w
  ∧ (storage ch ≠ memory →
     ∀ text, JSON_stringify s w = JsonText text →
       storeOf (storage ch) s' !! storageKey ch = Some text)
  ∧ calls_at SSubscriber name (produced (publish name value) s) =
      map (fun cb => (clock s, Invoke SSubscriber name (fn_id cb) [w])) (subscribers ch).
Proof.
  intros Hn Ha Ht Hv Hr s'.
  assert (Hp : published_value (config ch) value = Some w).
  { unfold published_value. rewrite Hv, Ht. simpl. by rewrite Hr. }
  pose proof (publish_accepted _ _ _ _ _ _ Hn Ha Hp) as Heq.
  assert (Hs' : s' = publish_result name a ch w value s).
  { unfold s', exec. by rewrite Heq. }
  split; [unfold result; by rewrite Heq|].
  split.
  { rewrite (produced_publish_accepted _ _ _ _ _ _ Hn Ha Hp).
    unfold publish_events. rewrite Ht. simpl. eauto. }
  split.
  { rewrite Hs'. unfold result.
    by erewrite getValue_eq; [|exact Hn|apply lookup_insert_eq]. }
  split.
  { intros Hm text Htext. rewrite Hs'. unfold publish_result, storeOf, persisted_text.
    rewrite Htext. destruct (storage ch); [done| |]; simpl; apply lookup_insert_eq. }
  rewrite (produced_publish_accepted _ _ _ _ _ _ Hn Ha Hp).
  rewrite calls_at_publish_events by done.
  rewrite calls_at_onInit_other, calls_at_onChange_other by done.
  apply calls_at_subscribers.
Qed.

(** C9.  [publish] on a name that has no channel is [channel] with the
    configuration [{ initialValue: value }]: the new channel is in memory
    mode with no hooks, no subscribers and no timer, [getValue] returns the
    published value, and the call produces no event at all, hence no
    [onChange] and no subscriber call. *)
Theorem publish_creates_missing_channel (s : Bus) (name : string) (value : Value) :
  channels s !! name = None →
  let s' := exec (publish name value) s in
  result (publish name value) s = Normal tt
  ∧ s' = exec (channel name (Some (Config.only_initialValue value))) s
  ∧ channels s' !! name = Some (nextRef s)
  ∧ channelObjects s' !! nextRef s =
      Some {| signal := value; storage := memory; storageKey := "lithium:" +:+ name;
              subscribers := []; ttl := None; autoCleanup := false;
              createdAt := clock s;
              config := Some (Config.only_initialValue value);
              isInitialized := non_absent value; timeoutId := None;
              onChangeDebounceTimer := None; onChangeLastCall := None |}
  ∧ result (getValue name) s' = Normal value
  ∧ produced (publish name value) s = []
  ∧ timers s' = timers s
  ∧ sessionStorage s' = sessionStorage s
  ∧ localStorage s' = localStorage s.
Proof.
  intros Hn s'.
  pose proof (channel_new s name (Some (Config.only_initialValue value)) Hn) as Hc.
  assert (Hpub : publish name value s =
                 (Normal tt, channel_result name (Some (Config.only_initialValue value)) s)).
  { unfold publish. erewrite bind_eq by (unfold gets; reflexivity). cbv beta. rewrite Hn.
    by erewrite bind_eq by exact Hc. }
  assert (Hs' : s' = channel_result name (Some (Config.only_initialValue value)) s).
  { unfold s', exec. by rewrite Hpub. }
  assert (Hres : resolved_value s name (Some (Config.only_initialValue value)) = value).
  { unfold resolved_value, config_storage. simpl. done. }
  split; [unfold result; by rewrite Hpub|].
  split; [unfold exec; by rewrite Hs', Hc|].
  rewrite Hs'. unfold channel_result. bus_simpl.
  split; [apply lookup_insert_eq|].
  split.
  { rewrite lookup_insert_eq. unfold created_channel. by rewrite Hres. }
  split.
  { unfold result. erewrite getValue_eq; bus_simpl; try apply lookup_insert_eq.
    unfold created_channel. bus_simpl. by rewrite Hres. }
  split.
  { apply produced_eq. unfold exec. rewrite Hpub. simpl.
    unfold creation_events. simpl. by rewrite app_nil_r. }
  done.
Qed.

(** ** Channels: [onInit] *)

Lemma calls_at_onInit name ch f w t :
  opt_field Config.onInit (config ch) = Some f →
  calls_at SOnInit name (stamp t (onInit_events name ch w)) =
    if negb (isInitialized ch) && non_absent w
    then [(t, Invoke SOnInit name (fn_id f) [w])]
    else [].
Proof.
  intros Hf. unfold onInit_events. rewrite Hf.
  destruct (negb _ && _); [|done]. apply calls_at_guarded.
Qed.

(** One call of [publish] on an existing channel: the channel stays
    registered with the same configuration, and [onInit] is called exactly
    when the channel was not initialised and the call brings a present
    value to the signal. *)
Lemma publish_at_onInit (name : string) (f : jsfun) (t : Z) (v : Value)
    (s : Bus) (a : ref) (ch : Channel) :
  channels s !! name = Some a →
  channelObjects s !! a = Some ch →
  opt_field Config.onInit (config ch) = Some f →
  ∃ ch' tr,
    channels (publish_at name (t, v) s) !! name = Some a
    ∧ channelObjects (publish_at name (t, v) s) !! a = Some ch'
    ∧ config ch' = config ch
    ∧ trace (publish_at name (t, v) s) = trace s ++ tr
    ∧ match published_value (config ch) v with
      | Some w =>
          isInitialized ch' = isInitialized ch || non_absent w
          ∧ calls_at SOnInit name tr =
              if negb (isInitialized ch) && non_absent w
              then [(t, Invoke SOnInit name (fn_id f) [w])] else []
      | None => isInitialized ch' = isInitialized ch ∧ calls_at SOnInit name tr = []
      end.
Proof.
  intros Hn Ha Hf. unfold publish_at. cbn [fst snd].
  destruct (published_value (config ch) v) as [w|] eqn:Hp.
  - unfold exec.
    rewrite (publish_accepted (at_time t s) name v w a ch Hn Ha Hp). cbn [snd].
    exists (published_channel (at_time t s) ch w),
      (stamp t (publish_events (at_time t s) name ch v w)).
    unfold publish_result. bus_simpl.
    split; [done|]. split; [apply lookup_insert_eq|]. split; [done|]. split; [done|].
    split; [done|].
    rewrite calls_at_publish_events by done.
    rewrite calls_at_onChange_other, calls_at_subscribers_other by done.
    rewrite !app_nil_r. by apply calls_at_onInit.
  - rewrite (publish_refused (at_time t s) name v a ch Hn Ha Hp).
    exists ch, (stamp t (refused_events name ch v)). bus_simpl.
    repeat split; try done. by apply calls_at_refused.
Qed.

Lemma publish_calls_onInit (name : string) (f : jsfun) (tvs : list (Z * Value)) :
  ∀ (s : Bus) (a : ref) (ch : Channel),
    channels s !! name = Some a →
    channelObjects s !! a = Some ch →
    opt_field Config.onInit (config ch) = Some f →
    ∃ tr,
      trace (publish_calls name tvs s) = trace s ++ tr
      ∧ calls_at SOnInit name tr =
          if isInitialized ch then []
          else match first_present (config ch) tvs with
               | Some (t, w) => [(t, Invoke SOnInit name (fn_id f) [w])]
               | None => []
               end.
Proof.
  induction tvs as [|[t v] tvs IH]; intros s a ch Hn Ha Hf.
  - exists []. simpl. rewrite app_nil_r. split; [done|]. by destruct (isInitialized ch).
  - destruct (publish_at_onInit name f t v s a ch Hn Ha Hf)
      as (ch' & tr & Hn' & Ha' & Hcfg & Htr & Hcase).
    assert (Hf' : opt_field Config.onInit (config ch') = Some f) by (by rewrite Hcfg).
    destruct (IH _ a ch' Hn' Ha' Hf') as (tr' & Htr' & Hcalls).
    exists (tr ++ tr'). unfold publish_calls in *. cbn [foldl].
    split; [by rewrite Htr', Htr, app_assoc|].
    rewrite calls_at_app, Hcalls. cbn [first_present]. rewrite Hcfg.
    destruct (published_value (config ch) v) as [w|].
    + destruct Hcase as [-> ->].
      destruct (isInitialized ch); [done|]. simpl.
      destruct (non_absent w); [done|]. done.
    + destruct Hcase as [-> ->]. done.
Qed.

(** C3.  A channel created with an [onInit] hook, then published to any
    number of times: [onInit] is called once at creation, with the resolved
    initial value (the stored value if there is one, else [initialValue]),
    when that value is neither [undefined] nor [null]; otherwise it is
    called once, by the first call of [publish] that brings such a value
    to the signal, with that value; otherwise never.  No other call of
    [onInit] occurs, however many calls of [publish] follow. *)
Theorem onInit_fires_once (s : Bus) (name : string) (cfg : Config.t) (f : jsfun)
    (tvs : list (Z * Value)) :
  channels s !! name = None →
  Config.onInit cfg = Some f →
  let v0 := resolved_value s name (Some cfg) in
  let s0 := exec (channel name (Some cfg)) s in
  calls_at SOnInit name (drop (length (trace s)) (trace (publish_calls name tvs s0))) =
    if non_absent v0 then [(clock s, Invoke SOnInit name (fn_id f) [v0])]
    else match first_present (Some cfg) tvs with
         | Some (t, w) => [(t, Invoke SOnInit name (fn_id f) [w])]
         | None => []
         end.
Proof.
  intros Hn Hf v0 s0.
  assert (Hs0 : s0 = channel_result name (Some cfg) s).
  { unfold s0, exec. by rewrite (channel_new s name (Some cfg) Hn). }
  destruct (publish_calls_onInit name f tvs s0 (nextRef s) (created_channel s name (Some cfg)))
    as (tr & Htr & Hcalls).
  { rewrite Hs0. apply lookup_insert_eq. }
  { rewrite Hs0. apply lookup_insert_eq. }
  { exact Hf. }
  rewrite Htr, Hs0. unfold channel_result at 1. bus_simpl.
  rewrite <- app_assoc, drop_app_length, calls_at_app, Hcalls.
  unfold creation_events. rewrite stamp_app, calls_at_app.
  cbn [created_channel isInitialized config opt_field]. rewrite Hf. fold v0.
  assert (Hread : calls_at SOnInit name
            (stamp (clock s)
               (storage_read_events s (config_storageKey name (Some cfg))
                  (config_storage (Some cfg)))) = []).
  { unfold storage_read_events.
    destruct (config_storage _); [done| |];
      (destruct (storeOf _ _ !! _) as [[|c text]|]; [done| |done];
       by destruct (JSON_parse s (String c text))). }
  rewrite Hread. destruct (non_absent v0).
  - by rewrite calls_at_guarded.
  - done.
Qed.

(** ** Channels: throttled [onChange] *)

Lemma calls_at_onChange_publish site name s ch value w t :
  site = SOnChange →
  calls_at site name (stamp t (publish_events s name ch value w)) =
    calls_at site name (stamp t (onChange_events name ch (clock s) w)).
Proof.
  intros ->. rewrite calls_at_publish_events by done.
  rewrite calls_at_onInit_other, calls_at_subscribers_other by done.
  by rewrite app_nil_r.
Qed.

(** One call of [publish] on a channel whose [onChange] is throttled. *)
Lemma publish_throttled (name : string) (f : jsfun) (T : Z) (s : Bus) (a : ref)
    (ch : Channel) (v w : Value) :
  channels s !! name = Some a →
  channelObjects s !! a = Some ch →
  opt_field Config.onChange (config ch) = Some f →
  opt_field Config.throttle (config ch) = Some T →
  T ≠ 0 →
  truthy_num (opt_field Config.debounce (config ch)) = false →
  published_value (config ch) v = Some w →
  let s' := exec (publish name v) s in
  let fires := T <=? clock s - default 0 (onChangeLastCall ch) in
  channels s' !! name = Some a
  ∧ channelObjects s' !! a = Some (published_channel s ch w)
  ∧ config (published_channel s ch w) = config ch
  ∧ signal (published_channel s ch w) = w
  ∧ onChangeLastCall (published_channel s ch w) =
      (if fires then Some (clock s) else onChangeLastCall ch)
  ∧ timers s' = timers s
  ∧ clock s' = clock s
  ∧ ∃ tr, trace s' = trace s ++ tr
      ∧ calls_at SOnChange name tr =
          if fires then [(clock s, Invoke SOnChange name (fn_id f) [w; signal ch])] else [].
Proof.
  intros Hn Ha Hf HT HT0 Hd Hp s' fires.
  assert (Hs' : s' = publish_result name a ch w v s).
  { unfold s', exec. by rewrite (publish_accepted _ _ _ _ _ _ Hn Ha Hp). }
  assert (Hdeb : debounced (config ch) = false).
  { unfold debounced. rewrite Hd. apply andb_false_r. }
  assert (Hthr : throttled (config ch) = true).
  { unfold throttled. rewrite Hf, Hd, HT. cbn [truthy_num negb andb].
    rewrite bool_decide_eq_true_2 by eauto. cbn [andb].
    apply negb_true_iff, Z.eqb_neq, HT0. }
  assert (Hopen : throttle_open ch (clock s) = fires).
  { unfold throttle_open, fires. by rewrite HT. }
  rewrite Hs'. unfold publish_result, published_channel. bus_simpl.
  rewrite Hdeb, Hthr, Hopen. cbn [andb].
  split; [done|]. split; [apply lookup_insert_eq|]. do 5 (split; [done|]).
  eexists. split; [reflexivity|].
  rewrite calls_at_onChange_publish by done.
  unfold onChange_events. rewrite Hf, Hd, HT. cbn [truthy_num].
  replace (negb (T =? 0)) with true by (symmetry; apply negb_true_iff, Z.eqb_neq, HT0).
  rewrite Hopen. destruct fires; [|done]. apply calls_at_guarded.
Qed.

(** ** Channels: [clear] and auto-cleanup *)

Lemma whenSome_clearTimeout o s :
  whenSome o clearTimeout s = (Normal tt, set_timers (cancel_opt o (timers s)) s).
Proof. destruct o; simpl; [done|]. by destruct s. Qed.

Lemma clear_eq (name : string) (a : ref) (ch : Channel) (s : Bus) :
  channels s !! name = Some a →
  channelObjects s !! a = Some ch →
  clear name s = (Normal tt, clear_result name a ch s).
Proof.
  intros Hn Ha. unfold clear.
  erewrite bind_eq by (unfold gets; reflexivity). cbv beta. rewrite Hn.
  erewrite bind_eq by (unfold channelAt; rewrite Ha; reflexivity). cbv beta.
  assert (Hhook : whenSome (opt_field Config.onClear (config ch)) (fun onClear =>
            try_catch (invoke SOnClear name onClear [] ;;; ret tt)
              (fun error => console_error SOnClear name error)) s =
          (Normal tt, log_events (onClear_events name ch) s)).
  { unfold onClear_events. destruct (opt_field Config.onClear (config ch)); simpl.
    - apply guarded_eq.
    - by rewrite log_events_nil. }
  erewrite bind_eq by exact Hhook. cbv beta.
  erewrite bind_eq by apply whenSome_clearTimeout. cbv beta.
  erewrite bind_eq by apply whenSome_clearTimeout. cbv beta.
  erewrite bind_eq.
  2:{ unfold when, removeFromStorage.
      instantiate (1 :=
        set_sessionStorage
          (if bool_decide (storage ch = session)
           then delete (storageKey ch) (sessionStorage s) else sessionStorage s)
          (set_localStorage
             (if bool_decide (storage ch = local)
              then delete (storageKey ch) (localStorage s) else localStorage s)
             (set_timers (cancel_opt (onChangeDebounceTimer ch)
                            (cancel_opt (timeoutId ch) (timers s)))
                (log_events (onClear_events name ch) s)))).
      instantiate (1 := tt).
      destruct s. by destruct (storage ch). }
  cbv beta.
  erewrite bind_eq by (apply updateChannel_eq; bus_simpl; exact Ha). cbv beta.
  unfold modify, clear_result. f_equal.
Qed.

Lemma cancel_not_in id l tm : tm ∈ cancel id l → timer_id tm ≠ id.
Proof. unfold cancel. rewrite list_elem_of_filter. tauto. Qed.

Lemma cancel_opt_subseteq o l tm : tm ∈ cancel_opt o l → tm ∈ l.
Proof.
  destruct o; simpl; [|done]. unfold cancel. rewrite list_elem_of_filter. tauto.
Qed.

Lemma calls_at_onClear name ch t :
  calls_at SOnClear name (stamp t (onClear_events name ch)) =
    match opt_field Config.onClear (config ch) with
    | Some g => [(t, Invoke SOnClear name (fn_id g) [])]
    | None => []
    end.
Proof.
  unfold onClear_events. destruct (opt_field Config.onClear (config ch)); [|done].
  apply calls_at_guarded.
Qed.

(** The handle that [subscribe] returns on an existing channel refers to
    the channel object registered under the name, which now has the
    callback among its subscribers. *)
Lemma subscribe_handle (s : Bus) (name : string) (a : ref) (ch : Channel) (cb : jsfun) :
  channels s !! name = Some a →
  channelObjects s !! a = Some ch →
  subscribe name cb s =
    (Normal {| sub_channelName := name; sub_channel := a; sub_callback := cb |},
     set_channelObjects
       (<[a := set_subscribers (add_callback cb (subscribers ch)) ch]> (channelObjects s)) s).
Proof.
  intros Hn Ha. unfold subscribe.
  erewrite bind_eq by (unfold gets; reflexivity). cbv beta. rewrite Hn.
  rewrite bool_decide_eq_false_2 by done. cbn [when].
  erewrite bind_eq by (unfold ret; reflexivity). cbv beta.
  erewrite bind_eq by (unfold gets; reflexivity). cbv beta. rewrite Hn.
  erewrite bind_eq by (apply updateChannel_eq, Ha). done.
Qed.

(** C6.  On a channel with [autoCleanup] set, the unsubscribe handle of the
    only subscriber left clears the channel: [onClear], when configured, is
    called once; the TTL timer and the debounce timer of the channel are
    out of the timer table; the storage entry is gone when the storage mode
    is not [memory]; the name is out of the registry. *)
Theorem unsubscribe_last_clears_channel (s : Bus) (name : string) (a : ref)
    (ch : Channel) (cb : jsfun) :
  channels s !! name = Some a →
  channelObjects s !! a = Some ch →
  autoCleanup ch = true →
  subscribers ch = [cb] →
  let h := {| sub_channelName := name; sub_channel := a; sub_callback := cb |} in
  let s' := exec (unsubscribe h) s in
  result (unsubscribe h) s = Normal tt
  ∧ channels s' !! name = None
  ∧ calls_at SOnClear name (produced (unsubscribe h) s) =
      match opt_field Config.onClear (config ch) with
      | Some g => [(clock s, Invoke SOnClear name (fn_id g) [])]
      | None => []
      end
  ∧ timers s' = cancel_opt (onChangeDebounceTimer ch) (cancel_opt (timeoutId ch) (timers s))
  ∧ (∀ id tm, timeoutId ch = Some id ∨ onChangeDebounceTimer ch = Some id →
       tm ∈ timers s' → timer_id tm ≠ id)
  ∧ (storage ch ≠ memory → storeOf (storage ch) s' !! storageKey ch = None).
Proof.
  intros Hn Ha Hauto Hsubs h s'.
  set (ch1 := set_subscribers (delete_callback cb (subscribers ch)) ch).
  set (s1 := set_channelObjects (<[a := ch1]> (channelObjects s)) s).
  assert (Hempty : subscribers ch1 = []).
  { unfold ch1, delete_callback. rewrite Hsubs. cbn [subscribers set_subscribers].
    by rewrite filter_cons_False, filter_nil by (intros H; by apply H). }
  assert (Heq : unsubscribe h s = (Normal tt, clear_result name a ch1 s1)).
  { unfold unsubscribe, h. cbn [sub_channel sub_callback sub_channelName].
    erewrite bind_eq by (apply updateChannel_eq, Ha). cbv beta. fold ch1. fold s1.
    erewrite bind_eq by (unfold channelAt, s1; bus_simpl; rewrite lookup_insert_eq;
                         reflexivity).
    cbv beta. rewrite Hempty. unfold ch1 at 1. cbn [autoCleanup set_subscribers].
    rewrite Hauto. cbn [andb length when]. rewrite bool_decide_eq_true_2 by done.
    apply clear_eq; unfold s1; bus_simpl; [done|apply lookup_insert_eq]. }
  assert (Hs' : s' = clear_result name a ch1 s1) by (unfold s', exec; by rewrite Heq).
  split; [unfold result; by rewrite Heq|].
  assert (Htimers : timers s' =
            cancel_opt (onChangeDebounceTimer ch) (cancel_opt (timeoutId ch) (timers s))).
  { by rewrite Hs'. }
  split; [rewrite Hs'; apply lookup_delete_eq|].
  split.
  { erewrite produced_eq; [|unfold exec; rewrite Heq; reflexivity].
    apply (calls_at_onClear name ch1). }
  split; [done|].
  split.
  { intros id tm Hid Htm. rewrite Htimers in Htm. destruct Hid as [Hid|Hid]; rewrite Hid in Htm.
    - apply cancel_opt_subseteq in Htm. by apply cancel_not_in in Htm.
    - by apply cancel_not_in in Htm. }
  intros Hmode. rewrite Hs'. unfold clear_result, storeOf. cbn [storage storageKey ch1 set_subscribers].
  destruct (storage ch); [done| |]; simpl; apply lookup_delete_eq.
Qed.

(** ** Instant events: [off] and pending debounce timers *)

Lemma unlisten_trace r s : trace (exec (unlisten r) s) = trace s.
Proof.
  unfold exec, unlisten, bind, registrationAt.
  destruct (registrations s !! r) as [reg|]; [|done].
  rewrite whenSome_clearTimeout. unfold updateSet, bind, setAt. bus_simpl.
  destruct (setObjects s !! listeners reg) as [l|]; [|done].
  unfold modify. bus_simpl. rewrite lookup_insert_eq.
  by destruct (bool_decide _).
Qed.

(** [executeListener] calls the listener, whatever else it does. *)
Lemma executeListener_trace (r : ref) (reg : Registration) (d : Value) (s : Bus) :
  registrations s !! r = Some reg →
  ∃ tr,
    trace (exec (executeListener r d) s) =
      trace s ++ (clock s, Invoke SListener (eventName reg) (fn_id (listener reg)) [d]) :: tr
    ∧ calls_at SListener (eventName reg) tr = [].
Proof.
  intros Hr. unfold exec, executeListener.
  erewrite bind_eq by (unfold registrationAt; rewrite Hr; reflexivity). cbv beta.
  unfold try_catch. unfold bind at 1. rewrite invoke_eq.
  destruct (fn_call (listener reg) [d]) as [v|e].
  - erewrite bind_eq.
    2:{ unfold updateRegistration. erewrite bind_eq
          by (unfold registrationAt; bus_simpl; rewrite Hr; reflexivity).
        reflexivity. }
    cbv beta. destruct (opt_flag Options.once (options reg)); cbn [when].
    + match goal with |- context [unlisten r ?s0] =>
        pose proof (unlisten_trace r s0) as Hu; unfold exec in Hu;
        destruct (unlisten r s0) as [[[]|e] s1] end.
      * exists []. split; [|done]. cbn [snd] in *. rewrite Hu. done.
      * exists [(clock s1, ConsoleError SListener (eventName reg) e)].
        split; [|done]. cbn [snd] in *. unfold console_error, log, modify. bus_simpl.
        rewrite Hu. bus_simpl. by rewrite <- app_assoc.
    + exists []. by split.
  - exists [(clock s, ConsoleError SListener (eventName reg) e)]. split; [|done].
    unfold console_error, log, modify. bus_simpl. by rewrite <- app_assoc.
Qed.

Lemma find_cancel id l :
  List.find (fun t => bool_decide (timer_id t = id)) (cancel id l) = None.
Proof.
  unfold cancel. induction l as [|x l IH]; [done|].
  destruct (decide (timer_id x = id)) as [He|Hne].
  - by rewrite filter_cons_False by (intros H; by apply H).
  - rewrite filter_cons_True by done. simpl.
    by rewrite bool_decide_eq_false_2 by done.
Qed.

(** C10.  A registration [r] whose debounce timer [id] is pending, waiting
    to call the listener with [d].  [off] deletes the listener-set entry
    of the event name and leaves the timer table as it is; when the timer
    then fires, the listener is called with [d].  The [unlisten] function
    of the registration takes the timer out of the table, after which its
    firing does nothing. *)
Theorem off_leaves_debounce_timer_pending (s : Bus) (r : ref) (reg : Registration)
    (id : positive) (tm : Timer) (d : Value) (set : list ref) :
  registrations s !! r = Some reg →
  debounceTimer reg = Some id →
  pending id s = Some tm →
  callback tm = ExecuteListener r d →
  setObjects s !! listeners reg = Some set →
  let s1 := exec (off (eventName reg)) s in
  let s2 := exec (unlisten r) s in
  eventListeners s1 !! eventName reg = None
  ∧ timers s1 = timers s
  ∧ calls_at SListener (eventName reg) (produced (fireTimer id) s1) =
      [(Z.max (clock s) (due tm),
        Invoke SListener (eventName reg) (fn_id (listener reg)) [d])]
  ∧ timers s2 = cancel id (timers s)
  ∧ produced (fireTimer id) s2 = [].
Proof.
  intros Hr Hid Hpend Hcb Hset s1 s2.
  split; [apply lookup_delete_eq|]. split; [done|].
  split.
  { unfold produced, exec, fireTimer.
    erewrite bind_eq by (unfold gets; reflexivity). cbv beta.
    change (timers s1) with (timers s). unfold pending in Hpend. rewrite Hpend.
    erewrite bind_eq by (unfold modify; reflexivity). cbv beta.
    erewrite bind_eq by (unfold modify; reflexivity). cbv beta.
    rewrite Hcb. cbn [runClosure].
    match goal with |- context [executeListener r d ?s0] =>
      destruct (executeListener_trace r reg d s0 Hr) as (tr & Htr & Hcalls);
      unfold exec in Htr; rewrite Htr end.
    bus_simpl. change (trace s1) with (trace s). rewrite drop_app_length.
    unfold calls_at in *. cbn [List.filter is_call snd].
    rewrite !bool_decide_eq_true_2 by done. cbn [andb]. by rewrite Hcalls. }
  assert (Hs2 : timers s2 = cancel id (timers s) ∧ trace s2 = trace s).
  { split; [|apply unlisten_trace].
    unfold s2, exec, unlisten.
    erewrite bind_eq by (unfold registrationAt; rewrite Hr; reflexivity). cbv beta.
    erewrite bind_eq by apply whenSome_clearTimeout. cbv beta. rewrite Hid.
    erewrite bind_eq.
    2:{ unfold updateSet. erewrite bind_eq
          by (unfold setAt; bus_simpl; rewrite Hset; reflexivity).
        reflexivity. }
    cbv beta.
    erewrite bind_eq
      by (unfold setAt, modify; bus_simpl; rewrite lookup_insert_eq; reflexivity).
    cbv beta. by destruct (bool_decide _). }
  destruct Hs2 as [Htm2 Htr2]. split; [done|].
  apply produced_eq. unfold exec, fireTimer.
  erewrite bind_eq by (unfold gets; reflexivity). cbv beta.
  rewrite Htm2, find_cancel. simpl. by rewrite app_nil_r.
Qed.

(** ** Well-formed pages

    A fresh page is well formed, and every method of the bus and every
    firing of a timer keeps a page well formed, whether it returns or
    throws. *)

Lemma cancel_sublist id l : cancel id l `sublist_of` l.
Proof. apply sublist_filter. Qed.

Lemma cancel_opt_sublist o l : cancel_opt o l `sublist_of` l.
Proof. destruct o; [apply cancel_sublist|done]. Qed.

Lemma handle_below_mono B B' o :
  (B <= B')%positive → handle_below B o → handle_below B' o.
Proof. destruct o; simpl; lia. Qed.

Lemma page_wf_fresh stringify parse now : page_wf (fresh_page stringify parse now).
Proof.
  split; simpl; try done; try apply map_Forall_empty.
  all: constructor.
Qed.

Lemma page_wf_frame s s' :
  channels s' = channels s → channelObjects s' = channelObjects s →
  registrations s' = registrations s → timers s' = timers s →
  nextTimer s' = nextTimer s → nextRef s' = nextRef s →
  page_wf s → page_wf s'.
Proof.
  intros E1 E2 E3 E4 E5 E6 [W1 W2 W3 W4 W5 W6 W7].
  split; rewrite ?E1, ?E2, ?E3, ?E4, ?E5, ?E6; try done.
  eapply list.Forall_impl; [exact W3|]. intros tm.
  unfold timer_accounted, recorded_onChange. by rewrite E1, E2.
Qed.

Lemma page_wf_log es s : page_wf s → page_wf (log_events es s).
Proof. by apply page_wf_frame. Qed.

Lemma sublist_Forall' {A} (P : A → Prop) (l k : list A) :
  l `sublist_of` k → Forall P k → Forall P l.
Proof.
  intros Hs Hk. apply list.Forall_forall. intros x Hx.
  eapply list.Forall_forall; [exact Hk|]. by eapply elem_of_sublist.
Qed.

Lemma page_wf_timers l s :
  l `sublist_of` timers s → page_wf s → page_wf (set_timers l s).
Proof.
  intros Hl [W1 W2 W3 W4 W5 W6 W7]. split; simpl; try done.
  - by eapply sublist_Forall'.
  - eapply sublist_NoDup; [exact W2|by apply fmap_sublist].
  - by eapply sublist_Forall'.
Qed.

Lemma page_wf_object a c c' s :
  channelObjects s !! a = Some c →
  onChangeDebounceTimer c' = onChangeDebounceTimer c →
  handle_below (nextTimer s) (timeoutId c') →
  page_wf s →
  page_wf (set_channelObjects (<[a := c']> (channelObjects s)) s).
Proof.
  intros Ha Hd Ht [W1 W2 W3 W4 W5 W6 W7]. split; simpl; try done.
  - eapply list.Forall_impl; [exact W3|]. intros tm.
    unfold timer_accounted, recorded_onChange. simpl.
    destruct (callback tm); try done.
    destruct (channels s !! channelName) as [b|]; [|done].
    destruct (decide (b = a)) as [->|Hne].
    + by rewrite lookup_insert_eq, Ha, Hd.
    + by rewrite lookup_insert_ne.
  - apply map_Forall_insert_2; [|done]. split; [done|]. rewrite Hd.
    by apply (W4 a c Ha).
Qed.

Lemma page_wf_registration r reg s :
  handle_below (nextTimer s) (debounceTimer reg) →
  page_wf s →
  page_wf (set_registrations (<[r := reg]> (registrations s)) s).
Proof.
  intros Hr [W1 W2 W3 W4 W5 W6 W7]. split; simpl; try done.
  by apply map_Forall_insert_2.
Qed.

Lemma page_wf_setTimeout cb delay s :
  (∀ n f w o, cb ≠ ExecuteCallback n f w o) →
  page_wf s → page_wf (exec (setTimeout cb delay) s).
Proof.
  intros Hcb [W1 W2 W3 W4 W5 W6 W7]. unfold exec, setTimeout. split; simpl; try done.
  - apply Forall_app. split.
    + eapply list.Forall_impl; [exact W1|]. simpl. intros; lia.
    + repeat constructor. simpl. lia.
  - rewrite fmap_app. apply list.NoDup_app. split; [done|]. split.
    + intros x Hx Hx'. simpl in Hx'. apply list_elem_of_singleton in Hx'. subst x.
      apply list_elem_of_fmap in Hx as (tm & Heq & Htm).
      eapply list.Forall_forall in W1; [|exact Htm]. simpl in W1. lia.
    + simpl. apply NoDup_singleton.
  - apply Forall_app. split.
    + eapply list.Forall_impl; [exact W3|]. by intros tm.
    + repeat constructor. unfold timer_accounted. simpl.
      destruct cb; try done. by destruct (Hcb _ _ _ _ eq_refl).
  - eapply map_Forall_impl; [exact W4|]. simpl. intros _ c [H1 H2].
    split; (eapply handle_below_mono; [|eassumption]); lia.
  - eapply map_Forall_impl; [exact W5|]. simpl. intros _ c H1.
    eapply handle_below_mono; [|eassumption]. lia.
Qed.

Lemma page_wf_nextRef s : page_wf s → page_wf (set_nextRef (S (nextRef s)) s).
Proof.
  intros [W1 W2 W3 W4 W5 W6 W7]. split; simpl; try done.
  eapply map_Forall_impl; [exact W7|]. simpl. intros; lia.
Qed.

Lemma page_wf_alloc name c s :
  channels s !! name = None →
  onChangeDebounceTimer c = None →
  handle_below (nextTimer s) (timeoutId c) →
  page_wf s →
  page_wf (set_nextRef (S (nextRef s))
             (set_channels (<[name := nextRef s]> (channels s))
                (set_channelObjects (<[nextRef s := c]> (channelObjects s)) s))).
Proof.
  intros Hn Hd Ht [W1 W2 W3 W4 W5 W6 W7]. split; simpl; try done.
  - eapply list.Forall_impl; [exact W3|]. intros tm.
    unfold timer_accounted, recorded_onChange. simpl.
    destruct (callback tm); try done.
    destruct (decide (channelName = name)) as [->|Hne]; [by rewrite Hn|].
    rewrite lookup_insert_ne by done.
    destruct (channels s !! channelName) as [b|] eqn:Hb; [|done].
    apply W7 in Hb. simpl in Hb. rewrite lookup_insert_ne by lia. done.
  - apply map_Forall_insert_2; [|done]. by rewrite Hd.
  - intros n n' a Hl Hl'.
    destruct (decide (n = name)) as [->|Hne], (decide (n' = name)) as [->|Hne']; [done|..].
    + rewrite lookup_insert_eq in Hl. rewrite lookup_insert_ne in Hl' by done.
      injection Hl as <-. apply W7 in Hl'. simpl in Hl'. lia.
    + rewrite lookup_insert_eq in Hl'. rewrite lookup_insert_ne in Hl by done.
      injection Hl' as <-. apply W7 in Hl. simpl in Hl. lia.
    + rewrite lookup_insert_ne in Hl, Hl' by done. by eapply W6.
  - apply map_Forall_insert_2; [lia|].
    eapply map_Forall_impl; [exact W7|]. simpl. intros; lia.
Qed.

Lemma page_wf_channel_result name cfg s :
  channels s !! name = None → page_wf s → page_wf (channel_result name cfg s).
Proof.
  intros Hn Hwf.
  set (delay := default 0 (opt_field Config.ttl cfg)).
  set (s1 := if truthy_num (opt_field Config.ttl cfg)
             then exec (setTimeout (TtlExpiry name) delay) s else s).
  assert (Hwf1 : page_wf s1).
  { unfold s1. destruct (truthy_num _); [|done]. by apply page_wf_setTimeout. }
  assert (Hn1 : channels s1 !! name = None).
  { unfold s1. by destruct (truthy_num _). }
  assert (Href : nextRef s1 = nextRef s).
  { unfold s1. by destruct (truthy_num _). }
  assert (Hobj : channelObjects s1 = channelObjects s).
  { unfold s1. by destruct (truthy_num _). }
  assert (Hch : channels s1 = channels s).
  { unfold s1. by destruct (truthy_num _). }
  eapply (page_wf_frame _ _); [..|
    apply (page_wf_alloc name (created_channel s name cfg) s1 Hn1 eq_refl); [|exact Hwf1]].
  - simpl. by rewrite Href, Hch.
  - simpl. by rewrite Href, Hobj.
  - simpl. unfold s1. by destruct (truthy_num _).
  - simpl. unfold s1. by destruct (truthy_num _).
  - simpl. unfold s1. by destruct (truthy_num _).
  - simpl. by rewrite Href.
  - simpl. unfold s1. destruct (truthy_num _); simpl; [lia|done].
Qed.

Lemma page_wf_debounce name a c c' f d w o s :
  channels s !! name = Some a →
  channelObjects s !! a = Some c →
  timeoutId c' = timeoutId c →
  onChangeDebounceTimer c' = Some (nextTimer s) →
  page_wf s →
  page_wf (set_nextTimer (Pos.succ (nextTimer s))
             (set_timers (cancel_opt (onChangeDebounceTimer c) (timers s)
                          ++ [{| timer_id := nextTimer s; due := d;
                                 callback := ExecuteCallback name f w o |}])
                (set_channelObjects (<[a := c']> (channelObjects s)) s))).
Proof.
  intros Hn Ha Ht Hd [W1 W2 W3 W4 W5 W6 W7].
  pose proof (cancel_opt_sublist (onChangeDebounceTimer c) (timers s)) as Hsub.
  split; simpl; try done.
  - apply Forall_app. split.
    + eapply sublist_Forall'; [exact Hsub|].
      eapply list.Forall_impl; [exact W1|]. simpl. intros; lia.
    + repeat constructor. simpl. lia.
  - rewrite fmap_app. apply list.NoDup_app. split.
    { eapply sublist_NoDup; [exact W2|by apply fmap_sublist]. }
    split; [|apply NoDup_singleton].
    intros x Hx Hx'. simpl in Hx'. apply list_elem_of_singleton in Hx'. subst x.
    apply list_elem_of_fmap in Hx as (tm & Heq & Htm).
    eapply elem_of_sublist in Htm; [|exact Hsub].
    eapply list.Forall_forall in W1; [|exact Htm]. simpl in W1. lia.
  - apply Forall_app. split.
    + apply list.Forall_forall. intros tm Htm.
      assert (Htm' : tm ∈ timers s) by (by eapply elem_of_sublist).
      eapply list.Forall_forall in W3; [|exact Htm'].
      revert W3. unfold timer_accounted, recorded_onChange. simpl.
      destruct (callback tm); try done.
      destruct (channels s !! channelName) as [b|] eqn:Hb; [|done].
      destruct (decide (b = a)) as [->|Hne].
      * rewrite Ha. intros Hrec. rewrite Hrec in Htm. simpl in Htm.
        by apply cancel_not_in in Htm.
      * by rewrite lookup_insert_ne.
    + repeat constructor. unfold timer_accounted, recorded_onChange. simpl.
      by rewrite Hn, lookup_insert_eq.
  - apply map_Forall_insert_2.
    + rewrite Ht, Hd. split; [|simpl; lia].
      eapply handle_below_mono; [|apply (W4 a c Ha)]. lia.
    + eapply map_Forall_impl; [exact W4|]. simpl. intros _ x [H1 H2].
      split; (eapply handle_below_mono; [|eassumption]); lia.
  - eapply map_Forall_impl; [exact W5|]. simpl. intros _ x H1.
    eapply handle_below_mono; [|eassumption]. lia.
Qed.

Lemma page_wf_publish_result name a ch w value s :
  channels s !! name = Some a →
  channelObjects s !! a = Some ch →
  page_wf s → page_wf (publish_result name a ch w value s).
Proof.
  intros Hn Ha Hwf. destruct (debounced (config ch)) eqn:Hdeb.
  - assert (Hf : ∃ f, opt_field Config.onChange (config ch) = Some f).
    { unfold debounced in Hdeb. apply andb_prop in Hdeb as [Hf _].
      apply bool_decide_eq_true in Hf as [f Hf]. by exists f. }
    destruct Hf as [f Hf].
    eapply (page_wf_frame _ _); [..|
      apply (page_wf_debounce name a ch (published_channel s ch w) f
               (clock s + timer_delay (default 0 (opt_field Config.debounce (config ch))))
               w (signal ch) s Hn Ha eq_refl); [|exact Hwf]].
    all: simpl; rewrite ?Hdeb; try done.
    unfold onChange_timer. by rewrite Hf.
  - eapply (page_wf_frame _ _); [..|
      apply (page_wf_object a ch (published_channel s ch w) s Ha); [| |exact Hwf]].
    all: simpl; rewrite ?Hdeb; try done.
    destruct Hwf as [_ _ _ W4 _ _ _]. apply (W4 a ch Ha).
Qed.

Lemma page_wf_clear_result name a ch s :
  channels s !! name = Some a →
  channelObjects s !! a = Some ch →
  page_wf s → page_wf (clear_result name a ch s).
Proof.
  intros Hn Ha [W1 W2 W3 W4 W5 W6 W7].
  assert (Hsub : cancel_opt (onChangeDebounceTimer ch) (cancel_opt (timeoutId ch) (timers s))
                 `sublist_of` timers s).
  { etransitivity; apply cancel_opt_sublist. }
  split; simpl; try done.
  - by eapply sublist_Forall'.
  - eapply sublist_NoDup; [exact W2|by apply fmap_sublist].
  - apply list.Forall_forall. intros tm Htm.
    assert (Htm' : tm ∈ timers s) by (by eapply elem_of_sublist).
    eapply list.Forall_forall in W3; [|exact Htm'].
    revert W3. unfold timer_accounted, recorded_onChange. simpl.
    destruct (callback tm); try done.
    destruct (decide (channelName = name)) as [->|Hne].
    + rewrite Hn, Ha. intros Hrec. rewrite Hrec in Htm. simpl in Htm.
      by apply cancel_not_in in Htm.
    + rewrite lookup_delete_ne by done.
      destruct (channels s !! channelName) as [b|] eqn:Hb; [|done].
      destruct (decide (b = a)) as [->|Hba]; [by destruct Hne; eapply W6|].
      by rewrite lookup_insert_ne.
  - apply map_Forall_insert_2; [|done]. apply (W4 a ch Ha).
  - intros n n' b Hl Hl'.
    apply lookup_delete_Some in Hl as [_ Hl]. apply lookup_delete_Some in Hl' as [_ Hl'].
    by eapply W6.
  - by apply map_Forall_delete.
Qed.

(** Statements built from statements that keep pages well formed. *)

Lemma keeps_ret {A} (a : A) : keeps (ret a).
Proof. by intros s. Qed.

Lemma keeps_throw {A} e : keeps (@throw A e).
Proof. by intros s. Qed.

Lemma keeps_gets {A} (f : Bus → A) : keeps (gets f).
Proof. by intros s. Qed.

Lemma keeps_bind {A B} (m : M A) (k : A → M B) :
  keeps m → (∀ a, keeps (k a)) → keeps (bind m k).
Proof.
  intros Hm Hk s Hs. specialize (Hm s Hs). unfold exec, bind in *.
  destruct (m s) as [[a|e] s1]; simpl in *; [by apply Hk|done].
Qed.

Lemma keeps_try_catch {A} (m : M A) (h : Value → M A) :
  keeps m → (∀ e, keeps (h e)) → keeps (try_catch m h).
Proof.
  intros Hm Hh s Hs. specialize (Hm s Hs). unfold exec, try_catch in *.
  destruct (m s) as [[a|e] s1]; simpl in *; [done|by apply Hh].
Qed.

Lemma keeps_when b m : keeps m → keeps (when b m).
Proof. destruct b; [done|intros _; apply keeps_ret]. Qed.

Lemma keeps_whenSome {A} (o : option A) f : (∀ a, keeps (f a)) → keeps (whenSome o f).
Proof. destruct o; simpl; [done|intros _; apply keeps_ret]. Qed.

Lemma keeps_forEach {A} (l : list A) f : (∀ a, keeps (f a)) → keeps (forEach l f).
Proof.
  intros Hf. induction l as [|x l IH]; simpl; [apply keeps_ret|].
  apply keeps_bind; [apply Hf|by intros _].
Qed.

Lemma keeps_modify (f : Bus → Bus) : (∀ s, page_wf s → page_wf (f s)) → keeps (modify f).
Proof. intros Hf s Hs. by apply Hf. Qed.

Ltac keeps_step :=
  lazymatch goal with
  | |- keeps (ret _) => apply keeps_ret
  | |- keeps (throw _) => apply keeps_throw
  | |- keeps (gets _) => apply keeps_gets
  | |- keeps (bind _ _) => apply keeps_bind; [|intros ?]
  | |- keeps (try_catch _ _) => apply keeps_try_catch; [|intros ?]
  | |- keeps (when _ _) => apply keeps_when
  | |- keeps (whenSome _ _) => apply keeps_whenSome; intros ?
  | |- keeps (forEach _ _) => apply keeps_forEach; intros ?
  | |- keeps (if ?b then _ else _) => destruct b
  end.

Create HintDb keeps.

Ltac keeps_auto := repeat keeps_step; auto with keeps nocore.

(** Host facilities and object stores. *)

Lemma keeps_log e : keeps (log e).
Proof. apply keeps_modify. intros s. by apply page_wf_frame. Qed.

Lemma keeps_invoke site name f args : keeps (invoke site name f args).
Proof.
  unfold invoke. apply keeps_bind; [apply keeps_log|intros _].
  destruct (fn_call f args); [apply keeps_ret|apply keeps_throw].
Qed.

Lemma keeps_clearTimeout id : keeps (clearTimeout id).
Proof. apply keeps_modify. intros s. apply page_wf_timers, cancel_sublist. Qed.

Lemma keeps_channelAt a : keeps (channelAt a).
Proof. intros s Hs. unfold exec, channelAt. by destruct (channelObjects s !! a). Qed.

Lemma keeps_setAt a : keeps (setAt a).
Proof. intros s Hs. unfold exec, setAt. by destruct (setObjects s !! a). Qed.

Lemma keeps_registrationAt r : keeps (registrationAt r).
Proof. intros s Hs. unfold exec, registrationAt. by destruct (registrations s !! r). Qed.

Lemma keeps_updateChannel a f :
  (∀ c, timeoutId (f c) = timeoutId c) →
  (∀ c, onChangeDebounceTimer (f c) = onChangeDebounceTimer c) →
  keeps (updateChannel a f).
Proof.
  intros Ht Hd s Hs. unfold exec, updateChannel, bind, channelAt.
  destruct (channelObjects s !! a) as [c|] eqn:Ha; simpl; [|done].
  apply (page_wf_object a c (f c) s Ha (Hd c)); [|done]. rewrite Ht.
  destruct Hs as [_ _ _ W4 _ _ _]. apply (W4 a c Ha).
Qed.

Lemma keeps_updateSet a f : keeps (updateSet a f).
Proof.
  unfold updateSet. apply keeps_bind; [apply keeps_setAt|intros l].
  apply keeps_modify. intros s. by apply page_wf_frame.
Qed.

Lemma keeps_updateRegistration r f :
  (∀ x, debounceTimer (f x) = debounceTimer x) → keeps (updateRegistration r f).
Proof.
  intros Hd s Hs. unfold exec, updateRegistration, bind, registrationAt.
  destruct (registrations s !! r) as [x|] eqn:Hr; simpl; [|done].
  apply page_wf_registration; [|done]. rewrite Hd.
  destruct Hs as [_ _ _ _ W5 _ _]. apply (W5 r x Hr).
Qed.

Lemma keeps_fresh : keeps fresh.
Proof. intros s. apply page_wf_nextRef. Qed.

(** Channels. *)

Lemma keeps_clear name : keeps (clear name).
Proof.
  intros s Hs.
  destruct (channels s !! name) as [a|] eqn:Hn.
  - destruct (channelObjects s !! a) as [ch|] eqn:Ha.
    + unfold exec. rewrite (clear_eq name a ch s Hn Ha). by apply page_wf_clear_result.
    + unfold exec, clear. erewrite bind_eq by (unfold gets; reflexivity). cbv beta.
      rewrite Hn. unfold bind at 1, channelAt. by rewrite Ha.
  - unfold exec, clear. erewrite bind_eq by (unfold gets; reflexivity). cbv beta.
    by rewrite Hn.
Qed.

Lemma keeps_channel name cfg : keeps (channel name cfg).
Proof.
  intros s Hs.
  destruct (channels s !! name) as [a|] eqn:Hn.
  - unfold exec, channel.
    assert (Hinit : ∃ s1, init s = (Normal tt, s1) ∧ channels s1 = channels s ∧ page_wf s1).
    { unfold init, bind, gets, modify. destruct (initialized s).
      - by exists s.
      - exists (set_initialized true s). split; [done|]. split; [done|].
        by apply (page_wf_frame s). }
    destruct Hinit as (s1 & Hinit & Hc & Hs1).
    erewrite bind_eq by exact Hinit. cbv beta.
    erewrite bind_eq by (unfold gets; reflexivity). cbv beta. by rewrite Hc, Hn.
  - unfold exec. rewrite (channel_new s name cfg Hn). by apply page_wf_channel_result.
Qed.

Lemma keeps_publish name value : keeps (publish name value).
Proof.
  intros s Hs.
  destruct (channels s !! name) as [a|] eqn:Hn.
  - destruct (channelObjects s !! a) as [ch|] eqn:Ha.
    + destruct (published_value (config ch) value) as [w|] eqn:Hp.
      * unfold exec. rewrite (publish_accepted s name value w a ch Hn Ha Hp).
        by apply page_wf_publish_result.
      * rewrite (publish_refused s name value a ch Hn Ha Hp). by apply page_wf_log.
    + unfold exec, publish. erewrite bind_eq by (unfold gets; reflexivity). cbv beta.
      rewrite Hn. unfold bind at 1, channelAt. by rewrite Ha.
  - unfold exec, publish. erewrite bind_eq by (unfold gets; reflexivity). cbv beta.
    rewrite Hn. rewrite (bind_eq _ _ _ _ _ (channel_new s name _ Hn)).
    by apply page_wf_channel_result.
Qed.

#[local] Hint Resolve keeps_log keeps_invoke keeps_clearTimeout keeps_channelAt keeps_setAt
  keeps_registrationAt keeps_updateSet keeps_fresh keeps_clear keeps_channel keeps_publish
  : keeps.

Lemma keeps_subscribe name cb : keeps (subscribe name cb).
Proof.
  unfold subscribe. keeps_auto.
  destruct (_ !! name); keeps_auto. by apply keeps_updateChannel.
Qed.

Lemma keeps_unsubscribe h : keeps (unsubscribe h).
Proof. unfold unsubscribe. keeps_auto. by apply keeps_updateChannel. Qed.

Lemma keeps_getValue name : keeps (getValue name).
Proof. unfold getValue. keeps_auto. destruct (_ !! name); keeps_auto. Qed.

(** Instant events. *)

Lemma keeps_frame (f : Bus → Bus) :
  (∀ s, channels (f s) = channels s) → (∀ s, channelObjects (f s) = channelObjects s) →
  (∀ s, registrations (f s) = registrations s) → (∀ s, timers (f s) = timers s) →
  (∀ s, nextTimer (f s) = nextTimer s) → (∀ s, nextRef (f s) = nextRef s) →
  keeps (modify f).
Proof. intros E1 E2 E3 E4 E5 E6. apply keeps_modify. intros s. by apply page_wf_frame. Qed.

Lemma keeps_unlisten r : keeps (unlisten r).
Proof. unfold unlisten. keeps_auto. by apply keeps_frame. Qed.

Lemma keeps_executeCallback name f w o : keeps (executeCallback name f w o).
Proof. unfold executeCallback, console_error. keeps_auto. Qed.

#[local] Hint Resolve keeps_unlisten keeps_executeCallback : keeps.

Lemma keeps_executeListener r d : keeps (executeListener r d).
Proof.
  unfold executeListener, console_error. keeps_auto. by apply keeps_updateRegistration.
Qed.

Lemma keeps_debounce_listener r d delay :
  keeps (let* id := setTimeout (ExecuteListener r d) delay in
         updateRegistration r (set_debounceTimer (Some id))).
Proof.
  intros s Hs. unfold exec.
  pose proof (page_wf_setTimeout (ExecuteListener r d) delay s ltac:(done) Hs) as Hs1.
  unfold exec in Hs1.
  assert (Hid : (setTimeout (ExecuteListener r d) delay s).1 = Normal (nextTimer s)) by done.
  assert (Hnt : nextTimer (setTimeout (ExecuteListener r d) delay s).2
                = Pos.succ (nextTimer s)) by done.
  destruct (setTimeout (ExecuteListener r d) delay s) as [c s1] eqn:Heq.
  simpl in Hs1, Hid, Hnt. subst c. erewrite bind_eq by exact Heq.
  unfold updateRegistration, bind, registrationAt.
  destruct (registrations s1 !! r) as [x|]; simpl; [|done].
  apply page_wf_registration; [|done]. simpl. rewrite Hnt. lia.
Qed.

#[local] Hint Resolve keeps_executeListener keeps_debounce_listener : keeps.

Lemma keeps_wrappedListener r data : keeps (wrappedListener r data).
Proof.
  unfold wrappedListener. apply keeps_bind; [apply keeps_registrationAt|intros reg].
  destruct (_ && _); [apply keeps_ret|].
  apply keeps_bind; [destruct (opt_field Options.validate _); keeps_auto|intros isValid].
  destruct (negb isValid); [apply keeps_ret|].
  apply keeps_bind; [destruct (opt_field Options.transform _); keeps_auto|intros d].
  destruct (truthy_num (opt_field Options.debounce _)).
  { apply keeps_bind; [keeps_auto|intros _; apply keeps_debounce_listener]. }
  unfold Date_now. keeps_auto. by apply keeps_updateRegistration.
Qed.

#[local] Hint Resolve keeps_wrappedListener : keeps.

Lemma keeps_emit name data : keeps (emit name data).
Proof.
  unfold emit, console_error. keeps_auto.
  destruct (_ !! name) as [sa|]; keeps_auto.
Qed.

Lemma keeps_on name l opts : keeps (on name l opts).
Proof.
  unfold on. keeps_auto; try by apply keeps_frame.
  destruct (_ !! name) as [sa|]; keeps_auto.
  apply keeps_modify. intros s. by apply page_wf_registration.
Qed.

Lemma keeps_off name : keeps (off name).
Proof. by apply keeps_frame. Qed.

(** The timer loop. *)

Lemma keeps_fireTimerGuarded id : keeps (fireTimerGuarded id).
Proof.
  unfold fireTimerGuarded, fireTimer, console_error. keeps_auto.
  destruct (List.find _ _) as [tm|]; keeps_auto.
  - apply keeps_modify. intros s. apply page_wf_timers, cancel_sublist.
  - by apply keeps_frame.
  - destruct (callback tm); simpl; auto with keeps nocore.
Qed.

#[local] Hint Resolve keeps_fireTimerGuarded : keeps.

Lemma keeps_runTimers t : keeps (runTimers t).
Proof. unfold runTimers. keeps_auto. by apply keeps_frame. Qed.

(** ** Channels: debounced [onChange] *)

Lemma separated_last_time D t rest : separated D t rest → t <= last_time t rest.
Proof.
  revert t. induction rest as [|[t' v] rest IH]; intros t; simpl; [lia|].
  intros [Ht Hrest]. specialize (IH _ Hrest). lia.
Qed.

(** A delay that fits the host's integer is kept as it is. *)
Lemma timer_delay_fits d : 0 <= d <= TIMEOUT_MAX → timer_delay d = d.
Proof.
  intros Hd. unfold timer_delay.
  rewrite bool_decide_eq_false_2 by lia. lia.
Qed.

(** A delay that does not fit makes the timer due one millisecond later. *)
Lemma timer_delay_overflow d : TIMEOUT_MAX < d → timer_delay d = 1.
Proof. intros Hd. unfold timer_delay. by rewrite bool_decide_eq_true_2. Qed.

(** One call of [publish] on a channel whose [onChange] is debounced. *)
Lemma publish_debounced (name : string) (f : jsfun) (D : Z) (s : Bus) (a : ref)
    (ch : Channel) (v w : Value) :
  channels s !! name = Some a →
  channelObjects s !! a = Some ch →
  opt_field Config.onChange (config ch) = Some f →
  opt_field Config.debounce (config ch) = Some D →
  0 < D <= TIMEOUT_MAX →
  published_value (config ch) v = Some w →
  let s' := exec (publish name v) s in
  channels s' !! name = Some a
  ∧ channelObjects s' !! a = Some (published_channel s ch w)
  ∧ config (published_channel s ch w) = config ch
  ∧ signal (published_channel s ch w) = w
  ∧ onChangeDebounceTimer (published_channel s ch w) = Some (nextTimer s)
  ∧ timers s' =
      cancel_opt (onChangeDebounceTimer ch) (timers s)
      ++ [debounce_timer name f (nextTimer s) (clock s + D) w (signal ch)]
  ∧ nextTimer s' = Pos.succ (nextTimer s)
  ∧ clock s' = clock s
  ∧ ∃ tr, trace s' = trace s ++ tr ∧ calls_at SOnChange name tr = [].
Proof.
  intros Hn Ha Hf HD HD0 Hp s'.
  assert (Hs' : s' = publish_result name a ch w v s).
  { unfold s', exec. by rewrite (publish_accepted _ _ _ _ _ _ Hn Ha Hp). }
  assert (Htruthy : truthy_num (opt_field Config.debounce (config ch)) = true).
  { rewrite HD. cbn [truthy_num]. apply negb_true_iff, Z.eqb_neq. lia. }
  assert (Hdeb : debounced (config ch) = true).
  { unfold debounced. rewrite Hf, Htruthy. by rewrite bool_decide_eq_true_2 by eauto. }
  rewrite Hs'. unfold publish_result, published_channel. bus_simpl. rewrite Hdeb.
  split; [done|]. split; [apply lookup_insert_eq|]. do 3 (split; [done|]).
  split.
  { unfold onChange_timer, debounce_timer. rewrite Hf, HD. cbn [default from_option id].
    by rewrite timer_delay_fits by lia. }
  do 2 (split; [done|]).
  eexists. split; [reflexivity|].
  rewrite calls_at_onChange_publish by done.
  unfold onChange_events. by rewrite Hf, Htruthy.
Qed.

Lemma find_cancel_ne id id' l :
  id ≠ id' →
  List.find (fun t => bool_decide (timer_id t = id)) (cancel id' l) =
  List.find (fun t => bool_decide (timer_id t = id)) l.
Proof.
  intros Hne. unfold cancel. induction l as [|x l IH]; [done|].
  destruct (decide (timer_id x = id')) as [He|Hne'].
  - rewrite filter_cons_False by (intros H; by apply H). simpl.
    rewrite bool_decide_eq_false_2 by congruence. done.
  - rewrite filter_cons_True by done. simpl. by rewrite IH.
Qed.

Lemma find_cancel_opt_ne id o l :
  o ≠ Some id →
  List.find (fun t => bool_decide (timer_id t = id)) (cancel_opt o l) =
  List.find (fun t => bool_decide (timer_id t = id)) l.
Proof.
  destruct o as [id'|]; [|done]. intros Hne. apply find_cancel_ne. congruence.
Qed.

Lemma pending_Some id s tm : pending id s = Some tm → tm ∈ timers s ∧ timer_id tm = id.
Proof.
  unfold pending. intros H. apply List.find_some in H. destruct H as [Hin Hid].
  split; [by apply list_elem_of_In|]. by apply bool_decide_eq_true in Hid.
Qed.

(** firing: closed forms *)

Lemma fireTimer_pending id tm s :
  pending id s = Some tm →
  fireTimer id s = runClosure (callback tm) (fired id tm s).
Proof.
  intros Hp. unfold fireTimer.
  erewrite bind_eq by (unfold gets; reflexivity). cbv beta.
  unfold pending in Hp. rewrite Hp.
  erewrite bind_eq by (unfold modify; reflexivity). cbv beta.
  erewrite bind_eq by (unfold modify; reflexivity). done.
Qed.

Lemma fireTimer_cancelled id s :
  pending id s = None → fireTimerGuarded id s = (Normal tt, s).
Proof.
  intros Hp. unfold fireTimerGuarded, try_catch, fireTimer.
  erewrite bind_eq by (unfold gets; reflexivity). cbv beta.
  unfold pending in Hp. by rewrite Hp.
Qed.

Lemma fire_callback id tm s n f w o :
  pending id s = Some tm →
  callback tm = ExecuteCallback n f w o →
  fireTimerGuarded id s =
    (Normal tt, log_events (guarded_events SOnChange n f [w; o]) (fired id tm s)).
Proof.
  intros Hp Hc. unfold fireTimerGuarded, try_catch.
  rewrite (fireTimer_pending id tm s Hp), Hc. cbn [runClosure]. unfold executeCallback.
  by rewrite guarded_eq.
Qed.

Lemma fire_ttl_absent id tm s n :
  pending id s = Some tm →
  callback tm = TtlExpiry n →
  channels s !! n = None →
  fireTimerGuarded id s = (Normal tt, fired id tm s).
Proof.
  intros Hp Hc Hn. unfold fireTimerGuarded, try_catch.
  rewrite (fireTimer_pending id tm s Hp), Hc. cbn [runClosure]. unfold clear.
  erewrite bind_eq by (unfold gets; reflexivity). cbv beta.
  change (channels (fired id tm s)) with (channels s). by rewrite Hn.
Qed.

Lemma fire_ttl_dangling id tm s n a :
  pending id s = Some tm →
  callback tm = TtlExpiry n →
  channels s !! n = Some a →
  channelObjects s !! a = None →
  fireTimerGuarded id s =
    (Normal tt, log_events [ConsoleError STimer "" dangling] (fired id tm s)).
Proof.
  intros Hp Hc Hn Ha. unfold fireTimerGuarded, try_catch.
  rewrite (fireTimer_pending id tm s Hp), Hc. cbn [runClosure]. unfold clear.
  erewrite bind_eq by (unfold gets; reflexivity). cbv beta.
  change (channels (fired id tm s)) with (channels s). rewrite Hn.
  unfold bind, channelAt. change (channelObjects (fired id tm s)) with (channelObjects s).
  by rewrite Ha.
Qed.

Lemma fire_ttl id tm s n a ch :
  pending id s = Some tm →
  callback tm = TtlExpiry n →
  channels s !! n = Some a →
  channelObjects s !! a = Some ch →
  fireTimerGuarded id s = (Normal tt, clear_result n a ch (fired id tm s)).
Proof.
  intros Hp Hc Hn Ha. unfold fireTimerGuarded, try_catch.
  rewrite (fireTimer_pending id tm s Hp), Hc. cbn [runClosure].
  by rewrite (clear_eq n a ch (fired id tm s)).
Qed.

Lemma listener_frame_log r s0 s1 site name e :
  site ≠ SOnChange →
  listener_frame r s0 s1 →
  listener_frame r s0 (log_events [ConsoleError site name e] s1).
Proof.
  intros Hsite [H1 H2 H3 H4 H5 H6 (tr & Htr & Hcalls)].
  split; try done.
  exists (tr ++ [(clock s1, ConsoleError site name e)]).
  split.
  - unfold log_events. cbn [trace set_trace stamp map]. by rewrite Htr, app_assoc.
  - intros n. by rewrite calls_at_app, Hcalls.
Qed.

Lemma listener_frame_refl r s : listener_frame r s s.
Proof.
  split; try done; [by left|eauto|]. exists []. by rewrite app_nil_r.
Qed.

Lemma unlisten_frame r reg s :
  registrations s !! r = Some reg →
  ∃ c s1, unlisten r s = (c, s1)
    ∧ channels s1 = channels s
    ∧ channelObjects s1 = channelObjects s
    ∧ nextTimer s1 = nextTimer s
    ∧ clock s1 = clock s
    ∧ timers s1 = cancel_opt (debounceTimer reg) (timers s)
    ∧ registrations s1 = registrations s
    ∧ trace s1 = trace s.
Proof.
  intros Hr. unfold unlisten.
  erewrite bind_eq by (unfold registrationAt; rewrite Hr; reflexivity). cbv beta.
  erewrite bind_eq by apply whenSome_clearTimeout. cbv beta.
  unfold updateSet. unfold bind at 1. unfold bind at 1. unfold setAt at 1.
  cbn [setObjects set_timers].
  destruct (setObjects s !! listeners reg) as [l|]; [|by eexists _, _].
  unfold modify at 1. unfold bind. unfold setAt.
  cbn [setObjects set_setObjects set_timers]. rewrite lookup_insert_eq.
  destruct (bool_decide _); cbn [when]; by eexists _, _.
Qed.

Lemma executeListener_frame r d s :
  ∃ c s1, executeListener r d s = (c, s1)
    ∧ (c = Normal tt ∨ (c = Abrupt dangling ∧ s1 = s))
    ∧ listener_frame r s s1.
Proof.
  unfold executeListener. unfold bind at 1. unfold registrationAt at 1.
  destruct (registrations s !! r) as [reg|] eqn:Hr.
  2:{ eexists _, _. split; [done|]. split; [by right|]. apply listener_frame_refl. }
  unfold try_catch. unfold bind at 1. rewrite invoke_eq.
  assert (Hbase : listener_frame r s
            (log_events [Invoke SListener (eventName reg) (fn_id (listener reg)) [d]] s)).
  { split; try done; [by left|eauto|]. eexists. split; [reflexivity|]. done. }
  destruct (fn_call (listener reg) [d]) as [v|e].
  - set (s0 := log_events _ s) in *.
    assert (Hr0 : registrations s0 !! r = Some reg) by done.
    erewrite bind_eq.
    2:{ unfold updateRegistration. erewrite bind_eq
          by (unfold registrationAt; rewrite Hr0; reflexivity).
        reflexivity. }
    cbv beta.
    set (s2 := set_registrations _ s0).
    assert (Hs2 : listener_frame r s s2).
    { destruct Hbase as [H1 H2 H3 H4 H5 H6 H7]. split; try done.
      intros r' reg'. unfold s2. cbn [registrations set_registrations].
      destruct (decide (r' = r)) as [->|Hne].
      - rewrite lookup_insert_eq. intros [= <-]. by exists reg.
      - rewrite lookup_insert_ne by done. intros H. by exists reg'. }
    destruct (opt_flag Options.once (options reg)); cbn [when].
    2:{ eexists _, _. split; [done|]. split; [by left|]. exact Hs2. }
    destruct (unlisten_frame r (set_hasExecuted true reg) s2)
      as (c & s3 & Heq & U1 & U2 & U3 & U4 & U5 & U6 & U7).
    { unfold s2. cbn [registrations set_registrations]. apply lookup_insert_eq. }
    rewrite Heq.
    assert (Hs3 : listener_frame r s s3).
    { destruct Hs2 as [H1 H2 H3 H4 H5 H6 (tr & Htr & Hcalls)]. split.
      - by rewrite U1.
      - by rewrite U2.
      - by rewrite U3.
      - by rewrite U4.
      - right. exists reg. split; [done|]. rewrite U5. cbn [debounceTimer set_hasExecuted].
        destruct H5 as [->|(reg0 & Hreg0 & ->)]; [done|].
        rewrite Hr in Hreg0. injection Hreg0 as <-.
        destruct (debounceTimer reg) as [i|]; [|done]. cbn [cancel_opt]. unfold cancel.
        rewrite list_filter_filter. apply list_filter_iff. tauto.
      - intros r' reg'. rewrite U6. apply H6.
      - exists tr. split; [by rewrite U7|done]. }
    destruct c as [[]|e].
    + eexists _, _. split; [done|]. split; [by left|]. exact Hs3.
    + eexists _, _. split; [done|]. split; [by left|].
      by apply listener_frame_log.
  - eexists _, _. split; [done|]. split; [by left|].
    by apply listener_frame_log.
Qed.

Lemma undisturbed_keeps name a cfg f id fire w old B horizon before ch tr s s' :
  debounce_pending_at name a cfg f id fire w old B horizon before ch tr s →
  undisturbed name a id s s' →
  ∃ tr', debounce_pending_at name a cfg f id fire w old B horizon before ch tr' s'.
Proof.
  intros [D1 D2 D3 D4 D5 D6 D7 D8 D9 D10 D11 D12 D13 D14]
         [U1 U2 U3 U4 U5 U6 U7 U8 (tr' & Htr' & Hcalls')].
  exists (tr ++ tr'). split; try done.
  - by rewrite U1.
  - by rewrite U3.
  - by rewrite U8.
  - by rewrite U6.
  - intros tm Htm. apply D8. by eapply elem_of_sublist.
  - eapply sublist_NoDup; [exact D9|]. by apply fmap_sublist.
  - intros n Hn. apply D10. by apply U2.
  - intros b c' Hb Hne. destruct (U4 b c' Hb Hne) as (c & Hc & -> & ->). by eapply D11.
  - intros r reg' Hr. destruct (U5 r reg' Hr) as (reg & Hreg & ->). by eapply D12.
  - by rewrite Htr', D13, app_assoc.
  - by rewrite calls_at_app, D14, Hcalls'.
Qed.

Lemma calls_at_guarded_other_name site name name' f args t :
  name' ≠ name →
  calls_at site name (stamp t (guarded_events site name' f args)) = [].
Proof.
  intros Hn. unfold calls_at, guarded_events. simpl. unfold is_call at 1. simpl.
  rewrite (bool_decide_eq_false_2 (name' = name)) by done. rewrite andb_false_r.
  by destruct (fn_call f args).
Qed.

Lemma handle_below_ne B id o : handle_below B o → (B <= id)%positive → o ≠ Some id.
Proof. destruct o as [i|]; [|done]. simpl. intros Hi Hid [= ->]. lia. Qed.

Lemma undisturbed_fired name a id id' tm s :
  id' ≠ id →
  undisturbed name a id s (fired id' tm s).
Proof.
  intros Hne. split; try done.
  - intros b c' Hb _. by exists c'.
  - intros r reg' Hr. by exists reg'.
  - unfold pending, fired. cbn [timers set_timers set_clock]. apply find_cancel_ne. done.
  - apply cancel_sublist.
  - exists []. by rewrite app_nil_r.
Qed.

Lemma undisturbed_log name a id s s' es :
  calls_at SOnChange name (stamp (clock s') es) = [] →
  undisturbed name a id s s' →
  undisturbed name a id s (log_events es s').
Proof.
  intros Hes [U1 U2 U3 U4 U5 U6 U7 U8 (tr' & Htr' & Hcalls')].
  split; try done.
  exists (tr' ++ stamp (clock s') es). split.
  - unfold log_events. cbn [trace set_trace]. by rewrite Htr', app_assoc.
  - by rewrite calls_at_app, Hcalls', Hes.
Qed.

(** Firing a timer that is neither the channel's debounce timer nor an
    expiry of the channel leaves the channel and its timer alone. *)
Lemma fire_undisturbed name a cfg f id fire w old B horizon before ch tr s id' tm :
  debounce_pending_at name a cfg f id fire w old B horizon before ch tr s →
  pending id' s = Some tm →
  id' ≠ id →
  due tm <= horizon →
  undisturbed name a id s (exec (fireTimerGuarded id') s)
  ∧ clock (exec (fireTimerGuarded id') s) = Z.max (clock s) (due tm).
Proof.
  intros Hdp Hp Hne Hdue.
  destruct (pending_Some _ _ _ Hp) as [Htm Hid'].
  destruct Hdp as [D1 D2 D3 D4 D5 [D6 D6'] D7 D8 D9 D10 D11 D12 D13 D14].
  destruct (D8 tm Htm ltac:(congruence)) as (Hlow & Hnocb & Httl).
  pose proof (undisturbed_fired name a id id' tm s Hne) as Hbase.
  unfold exec.
  destruct (callback tm) as [n|n f' w' o'|r d] eqn:Hcb.
  - (* TtlExpiry *)
    assert (Hn : n ≠ name) by (intros ->; specialize (Httl eq_refl); lia).
    destruct (channels s !! n) as [a'|] eqn:Hcn.
    2:{ by rewrite (fire_ttl_absent id' tm s n Hp Hcb Hcn). }
    destruct (channelObjects s !! a') as [ch'|] eqn:Hca.
    2:{ rewrite (fire_ttl_dangling id' tm s n a' Hp Hcb Hcn Hca). cbn [snd].
        split; [|done]. by apply undisturbed_log. }
    rewrite (fire_ttl id' tm s n a' ch' Hp Hcb Hcn Hca). cbn [snd].
    split; [|done].
    assert (Ha' : a' ≠ a) by (intros ->; by apply Hn, D10).
    destruct (D11 a' ch' Hca Ha') as [Ht1 Ht2].
    destruct Hbase as [U1 U2 U3 U4 U5 U6 U7 U8 U9].
    unfold clear_result. split; cbn [channels channelObjects registrations timers nextTimer trace].
    + rewrite lookup_delete_ne by done. exact U1.
    + intros n0 b Hb. apply lookup_delete_Some in Hb as [_ Hb]. by apply U2.
    + rewrite lookup_insert_ne by done. exact U3.
    + intros b c' Hb Hba. destruct (decide (b = a')) as [->|Hbne].
      * rewrite lookup_insert_eq in Hb. injection Hb as <-. by exists ch'.
      * rewrite lookup_insert_ne in Hb by done. by exists c'.
    + exact U5.
    + unfold pending. cbn [timers].
      rewrite !find_cancel_opt_ne by (eapply handle_below_ne; eauto). exact U6.
    + etransitivity; [apply cancel_opt_sublist|].
      etransitivity; [apply cancel_opt_sublist|]. exact U7.
    + exact U8.
    + eexists. split; [reflexivity|]. unfold onClear_events.
      destruct (opt_field Config.onClear (config ch')); [|done].
      by apply calls_at_guarded_other.
  - (* ExecuteCallback *)
    rewrite (fire_callback id' tm s n f' w' o' Hp Hcb). cbn [snd].
    split; [|done]. apply undisturbed_log; [|done].
    apply calls_at_guarded_other_name. intros ->. by eapply Hnocb.
  - (* ExecuteListener *)
    unfold fireTimerGuarded, try_catch. rewrite (fireTimer_pending id' tm s Hp), Hcb.
    cbn [runClosure].
    destruct (executeListener_frame r d (fired id' tm s)) as (c & s1 & Heq & Hc & Hlf).
    rewrite Heq.
    assert (Hs1 : undisturbed name a id s s1).
    { destruct Hbase as [U1 U2 U3 U4 U5 U6 U7 U8 U9].
      destruct Hlf as [L1 L2 L3 L4 L5 L6 (tr1 & Htr1 & Hcalls1)].
      split.
      - by rewrite L1.
      - intros n0 b. rewrite L1. apply U2.
      - by rewrite L2.
      - intros b c'. rewrite L2. apply U4.
      - exact L6.
      - unfold pending in *. destruct L5 as [->|(reg & Hreg & ->)]; [exact U6|].
        rewrite find_cancel_opt_ne; [exact U6|].
        eapply handle_below_ne; [|exact D6]. by eapply D12.
      - destruct L5 as [->|(reg & Hreg & ->)]; [exact U7|].
        etransitivity; [apply cancel_opt_sublist|exact U7].
      - by rewrite L3.
      - exists tr1. split; [exact Htr1|apply Hcalls1]. }
    assert (Hck : clock s1 = Z.max (clock s) (due tm)) by (by destruct Hlf as [_ _ _ -> _ _ _]).
    destruct Hc as [->|[-> ->]]; cbn [snd]; [done|].
    split; [|done].
    change (undisturbed name a id s
              (log_events [ConsoleError STimer "" dangling] (fired id' tm s))).
    by apply undisturbed_log.
Qed.

Lemma find_NoDup (l : list Timer) tm :
  NoDup (timer_id <$> l) → tm ∈ l →
  List.find (fun t => bool_decide (timer_id t = timer_id tm)) l = Some tm.
Proof.
  induction l as [|x l IH]; intros Hnd Htm; [by apply elem_of_nil in Htm|].
  rewrite fmap_cons in Hnd. apply list.NoDup_cons in Hnd as [Hx Hnd].
  apply elem_of_cons in Htm as [->|Htm]; simpl.
  - by rewrite bool_decide_eq_true_2.
  - rewrite bool_decide_eq_false_2; [by apply IH|].
    intros Heq. apply Hx. rewrite Heq. by apply list_elem_of_fmap_2.
Qed.

Lemma pending_NoDup s tm :
  NoDup (timer_id <$> timers s) → tm ∈ timers s → pending (timer_id tm) s = Some tm.
Proof. apply find_NoDup. Qed.

Lemma schedule_insert_perm t l : schedule_insert t l ≡ₚ t :: l.
Proof.
  induction l as [|x l IH]; simpl; [done|].
  destruct (fires_before t x); [done|]. rewrite IH. apply Permutation_swap.
Qed.

Lemma schedule_perm l : schedule l ≡ₚ l.
Proof.
  induction l as [|x l IH]; simpl; [done|].
  rewrite schedule_insert_perm. by rewrite IH.
Qed.

(** Firing any timer that is not a debounced [onChange] of [name] makes no
    call of that [onChange] and adds no timer. *)
Lemma fire_quiet name s id' tm :
  pending id' s = Some tm →
  (∀ f' w' o', callback tm ≠ ExecuteCallback name f' w' o') →
  timers (exec (fireTimerGuarded id') s) `sublist_of` timers s
  ∧ ∃ tr, trace (exec (fireTimerGuarded id') s) = trace s ++ tr
          ∧ calls_at SOnChange name tr = [].
Proof.
  intros Hp Hnocb. unfold exec.
  destruct (callback tm) as [n|n f' w' o'|r d] eqn:Hcb.
  - destruct (channels s !! n) as [a'|] eqn:Hcn.
    2:{ rewrite (fire_ttl_absent id' tm s n Hp Hcb Hcn). cbn [snd].
        split; [apply cancel_sublist|]. exists []. by rewrite app_nil_r. }
    destruct (channelObjects s !! a') as [ch'|] eqn:Hca.
    2:{ rewrite (fire_ttl_dangling id' tm s n a' Hp Hcb Hcn Hca). cbn [snd].
        split; [apply cancel_sublist|]. by eexists. }
    rewrite (fire_ttl id' tm s n a' ch' Hp Hcb Hcn Hca). cbn [snd].
    split.
    + unfold clear_result. cbn [timers].
      etransitivity; [apply cancel_opt_sublist|].
      etransitivity; [apply cancel_opt_sublist|]. apply cancel_sublist.
    + eexists. split; [reflexivity|]. unfold onClear_events.
      destruct (opt_field Config.onClear (config ch')); [|done].
      by apply calls_at_guarded_other.
  - rewrite (fire_callback id' tm s n f' w' o' Hp Hcb). cbn [snd].
    split; [apply cancel_sublist|]. eexists. split; [reflexivity|].
    apply calls_at_guarded_other_name. intros ->. by eapply Hnocb.
  - unfold fireTimerGuarded, try_catch. rewrite (fireTimer_pending id' tm s Hp), Hcb.
    cbn [runClosure].
    destruct (executeListener_frame r d (fired id' tm s)) as (c & s1 & Heq & Hc & Hlf).
    rewrite Heq. destruct Hlf as [L1 L2 L3 L4 L5 L6 (tr1 & Htr1 & Hcalls1)].
    assert (Hsub : timers s1 `sublist_of` timers s).
    { destruct L5 as [->|(reg & Hreg & ->)]; [apply cancel_sublist|].
      etransitivity; [apply cancel_opt_sublist|apply cancel_sublist]. }
    destruct Hc as [->|[-> ->]]; cbn [snd].
    + split; [done|]. exists tr1. split; [exact Htr1|apply Hcalls1].
    + split; [apply cancel_sublist|]. by eexists.
Qed.

Lemma fireTimerGuarded_normal id s :
  fireTimerGuarded id s = (Normal tt, exec (fireTimerGuarded id) s).
Proof.
  unfold exec, fireTimerGuarded, try_catch.
  by destruct (fireTimer id s) as [[[]|e] s1].
Qed.

Lemma debounce_pending_set_clock name a cfg f id fire w old B horizon before s c :
  debounce_pending name a cfg f id fire w old B horizon before s →
  debounce_pending name a cfg f id fire w old B horizon before (set_clock c s).
Proof. intros (ch & tr & [? ? ? ? ? ? ? ? ? ? ? ? ? ?]). by exists ch, tr. Qed.

(** Firing timers none of which is the channel's debounce timer. *)
Lemma forEach_foreign name a cfg f id fire w old B horizon before T0 (L : list Timer) :
  T0 <= horizon →
  ∀ s,
    debounce_pending name a cfg f id fire w old B horizon before s →
    (∀ x, x ∈ L → timer_id x ≠ id) →
    (∀ x tm, x ∈ L → pending (timer_id x) s = Some tm → due tm <= T0) →
    clock s <= T0 →
    ∃ s', forEach L (fun x => fireTimerGuarded (timer_id x)) s = (Normal tt, s')
          ∧ debounce_pending name a cfg f id fire w old B horizon before s'
          ∧ clock s <= clock s' <= T0.
Proof.
  intros HT0. induction L as [|x L IH]; intros s Hdp Hids Hdue Hclock.
  - exists s. split; [done|]. split; [done|lia].
  - cbn [forEach]. erewrite bind_eq by apply fireTimerGuarded_normal. cbv beta.
    destruct (pending (timer_id x) s) as [tm|] eqn:Hp.
    + destruct Hdp as (ch & tr & Hat).
      assert (Hdtm : due tm <= T0) by (eapply Hdue; [left|exact Hp]).
      destruct (fire_undisturbed name a cfg f id fire w old B horizon before ch tr s
                  (timer_id x) tm Hat Hp) as [Hund Hck]; [apply Hids; left|lia|].
      destruct (undisturbed_keeps _ _ _ _ _ _ _ _ _ _ _ _ _ _ _ Hat Hund) as (tr' & Hat').
      destruct (IH (exec (fireTimerGuarded (timer_id x)) s)) as (s' & Heq & Hdp' & Hck').
      * by exists ch, tr'.
      * intros y Hy. apply Hids. by right.
      * intros y tm' Hy Hp'. eapply (Hdue y); [by right|].
        destruct (pending_Some _ _ _ Hp') as [Hin Hid]. rewrite <- Hid.
        apply pending_NoDup; [by destruct Hat|].
        eapply elem_of_sublist; [exact Hin|by destruct Hund].
      * rewrite Hck. lia.
      * exists s'. split; [done|]. split; [done|]. rewrite Hck in Hck'. lia.
    + assert (Hs : exec (fireTimerGuarded (timer_id x)) s = s).
      { unfold exec. by rewrite (fireTimer_cancelled _ _ Hp). }
      rewrite Hs. apply IH; try done.
      * intros y Hy. apply Hids. by right.
      * intros y tm' Hy Hp'. eapply (Hdue y); [by right|done].
Qed.

(** The host waits until [t], before the channel's debounce timer is due. *)
Lemma debounce_pending_wait name a cfg f id fire w old B horizon before t s :
  debounce_pending name a cfg f id fire w old B horizon before s →
  t < fire →
  t <= horizon →
  clock s <= t →
  debounce_pending name a cfg f id fire w old B horizon before (exec (runTimers t) s)
  ∧ clock (exec (runTimers t) s) = t.
Proof.
  intros Hdp Hfire Hhor Hclock.
  pose proof Hdp as (ch & tr & Hat).
  destruct (pending_Some _ _ _ (dp_pending _ _ _ _ _ _ _ _ _ _ _ _ _ _ Hat)) as [Hours Hoid].
  assert (Hin : ∀ x, x ∈ schedule (filter (fun x => due x <= t) (timers s)) →
                     x ∈ timers s ∧ due x <= t).
  { intros x Hx. rewrite schedule_perm in Hx. apply list_elem_of_filter in Hx. tauto. }
  destruct (forEach_foreign name a cfg f id fire w old B horizon before t
              (schedule (filter (fun x => due x <= t) (timers s))) Hhor s Hdp)
    as (s' & Heq & Hdp' & Hck); [| |done|].
  - intros x Hx Hid. destruct (Hin x Hx) as [Hxin Hxdue].
    pose proof (pending_NoDup s x (dp_nodup _ _ _ _ _ _ _ _ _ _ _ _ _ _ Hat) Hxin) as Hpx.
    rewrite Hid, (dp_pending _ _ _ _ _ _ _ _ _ _ _ _ _ _ Hat) in Hpx.
    injection Hpx as <-. unfold debounce_timer in Hxdue. simpl in Hxdue. lia.
  - intros x tm Hx Hp. destruct (Hin x Hx) as [Hxin Hxdue].
    pose proof (pending_NoDup s x (dp_nodup _ _ _ _ _ _ _ _ _ _ _ _ _ _ Hat) Hxin) as Hpx.
    rewrite Hp in Hpx. by injection Hpx as ->.
  - unfold exec, runTimers.
    erewrite bind_eq by (unfold gets; reflexivity). cbv beta.
    erewrite bind_eq by exact Heq. cbv beta. unfold modify. cbn [snd].
    split; [by apply debounce_pending_set_clock|].
    cbn [clock set_clock]. lia.
Qed.

Lemma find_app_last id (l : list Timer) tm :
  Forall (fun x => timer_id x ≠ id) l →
  timer_id tm = id →
  List.find (fun t => bool_decide (timer_id t = id)) (l ++ [tm]) = Some tm.
Proof.
  intros Hl Hid. induction Hl as [|x l Hx Hl IH]; simpl.
  - by rewrite bool_decide_eq_true_2.
  - by rewrite bool_decide_eq_false_2.
Qed.

(** The state a debounced [publish] leaves, given what the timer table
    held besides the channel's previous debounce timer. *)
Lemma debounce_pending_intro name a (ch : Channel) f D (s : Bus) v w B horizon before tr :
  channels s !! name = Some a →
  channelObjects s !! a = Some ch →
  opt_field Config.onChange (config ch) = Some f →
  opt_field Config.debounce (config ch) = Some D →
  0 < D <= TIMEOUT_MAX →
  published_value (config ch) v = Some w →
  (B <= nextTimer s)%positive →
  (∀ tm, tm ∈ cancel_opt (onChangeDebounceTimer ch) (timers s) →
     (timer_id tm < B)%positive
     ∧ (∀ f' w' o', callback tm ≠ ExecuteCallback name f' w' o')
     ∧ (callback tm = TtlExpiry name → horizon < due tm)) →
  NoDup (timer_id <$> timers s) →
  (∀ n, channels s !! n = Some a → n = name) →
  (∀ b c, channelObjects s !! b = Some c → b ≠ a →
     handle_below B (timeoutId c) ∧ handle_below B (onChangeDebounceTimer c)) →
  (∀ r reg, registrations s !! r = Some reg → handle_below B (debounceTimer reg)) →
  trace s = before ++ tr →
  calls_at SOnChange name tr = [] →
  debounce_pending name a (config ch) f (nextTimer s) (clock s + D) w (signal ch)
    B horizon before (exec (publish name v) s).
Proof.
  intros Hn Ha Hf HD HD0 Hp HB Hforeign Hnodup Hinj Hobjs Hregs Htr Hcalls.
  destruct (publish_debounced name f D s a ch v w Hn Ha Hf HD HD0 Hp)
    as (Hn' & Ha' & Hc' & Hsig' & Hid' & Htm' & Hnext' & Hclock' & tr' & Htr' & Hcalls').
  assert (Hrest : Forall (fun x => timer_id x ≠ nextTimer s)
                    (cancel_opt (onChangeDebounceTimer ch) (timers s))).
  { apply list.Forall_forall. intros x Hx. destruct (Hforeign x Hx) as [Hlt _]. lia. }
  assert (Hpub : publish name v s = (Normal tt, publish_result name a ch w v s))
    by (by apply publish_accepted).
  exists (published_channel s ch w), (tr ++ tr'). split; try done.
  - rewrite Hnext'. lia.
  - unfold pending. rewrite Htm'. by apply find_app_last.
  - intros tm Htm Hne. rewrite Htm' in Htm. apply elem_of_app in Htm as [Htm|Htm].
    + by apply Hforeign.
    + apply list_elem_of_singleton in Htm. by subst tm.
  - rewrite Htm', fmap_app. apply list.NoDup_app. split; [|split].
    + eapply sublist_NoDup; [exact Hnodup|]. apply fmap_sublist, cancel_opt_sublist.
    + intros i Hi Hi'. apply list_elem_of_singleton in Hi'. simpl in Hi'.
      apply list_elem_of_fmap in Hi as (x & -> & Hx).
      by apply (proj1 (list.Forall_forall _ _) Hrest x Hx).
    + apply NoDup_singleton.
  - intros n. unfold exec. rewrite Hpub. cbn [snd publish_result channels]. apply Hinj.
  - intros b c. unfold exec. rewrite Hpub. cbn [snd publish_result channelObjects].
    intros Hb Hne. rewrite lookup_insert_ne in Hb by done. by eapply Hobjs.
  - intros r reg. unfold exec. rewrite Hpub. cbn [snd publish_result registrations].
    apply Hregs.
  - by rewrite Htr', Htr, app_assoc.
  - by rewrite calls_at_app, Hcalls, Hcalls'.
Qed.

(** A later call of a debounced sequence. *)
Lemma debounce_pending_step name a cfg f D id fire w old B horizon before s v w' :
  opt_field Config.onChange cfg = Some f →
  opt_field Config.debounce cfg = Some D →
  0 < D <= TIMEOUT_MAX →
  published_value cfg v = Some w' →
  debounce_pending name a cfg f id fire w old B horizon before s →
  debounce_pending name a cfg f (nextTimer s) (clock s + D) w' w B horizon before
    (exec (publish name v) s).
Proof.
  intros Hf HD HD0 Hp (ch & tr & [D1 D2 D3 D4 D5 [D6 D6'] D7 D8 D9 D10 D11 D12 D13 D14]).
  subst cfg w.
  apply (debounce_pending_intro name a ch f D s v w' B horizon before tr); try done.
  - lia.
  - rewrite D5. cbn [cancel_opt]. intros tm Htm. unfold cancel in Htm.
    apply list_elem_of_filter in Htm as [Hne Htm]. by apply D8.
Qed.

Lemma forEach_done name f w old horizon before (L : list Timer) :
  ∀ s, debounce_done name f w old horizon before s →
    ∃ s', forEach L (fun x => fireTimerGuarded (timer_id x)) s = (Normal tt, s')
          ∧ debounce_done name f w old horizon before s'.
Proof.
  induction L as [|x L IH]; intros s Hdone; [by exists s|].
  cbn [forEach]. erewrite bind_eq by apply fireTimerGuarded_normal. cbv beta.
  apply IH. destruct (pending (timer_id x) s) as [tm|] eqn:Hp.
  - destruct Hdone as (tr & Htr & Hcalls & Hnone).
    destruct (pending_Some _ _ _ Hp) as [Hin _].
    destruct (fire_quiet name s (timer_id x) tm Hp (Hnone tm Hin))
      as (Hsub & tr' & Htr' & Hcalls').
    exists (tr ++ tr'). split; [by rewrite Htr', Htr, app_assoc|].
    split; [by rewrite calls_at_app, Hcalls, Hcalls', app_nil_r|].
    intros tm' Htm'. apply Hnone. by eapply elem_of_sublist.
  - unfold exec. by rewrite (fireTimer_cancelled _ _ Hp).
Qed.

Lemma forEach_fires name a cfg f id w old B horizon before (L : list Timer) :
  ∀ s,
    id ∈ timer_id <$> L →
    debounce_pending name a cfg f id horizon w old B horizon before s →
    (∀ x tm, x ∈ L → pending (timer_id x) s = Some tm → due tm <= horizon) →
    clock s <= horizon →
    ∃ s', forEach L (fun x => fireTimerGuarded (timer_id x)) s = (Normal tt, s')
          ∧ debounce_done name f w old horizon before s'.
Proof.
  induction L as [|x L IH]; intros s Hid Hdp Hdue Hclock.
  { by apply elem_of_nil in Hid. }
  cbn [forEach]. erewrite bind_eq by apply fireTimerGuarded_normal. cbv beta.
  destruct Hdp as (ch & tr & Hat).
  destruct (decide (timer_id x = id)) as [Hx|Hx].
  - apply forEach_done. rewrite Hx.
    pose proof (dp_pending _ _ _ _ _ _ _ _ _ _ _ _ _ _ Hat) as Hp.
    unfold exec. erewrite fire_callback; [|exact Hp|reflexivity]. cbn [snd].
    exists (tr ++ stamp horizon (guarded_events SOnChange name f [w; old])).
    split; [|split].
    + unfold log_events, fired. cbn [trace set_trace clock set_clock set_timers].
      unfold debounce_timer at 1. cbn [due].
      rewrite Z.max_r by lia. by rewrite (dp_trace _ _ _ _ _ _ _ _ _ _ _ _ _ _ Hat), app_assoc.
    + by rewrite calls_at_app, (dp_calls _ _ _ _ _ _ _ _ _ _ _ _ _ _ Hat), calls_at_guarded.
    + unfold log_events, fired. cbn [timers set_trace set_clock set_timers].
      intros tm Htm. unfold cancel in Htm. apply list_elem_of_filter in Htm as [Hne Htm].
      by apply (dp_foreign _ _ _ _ _ _ _ _ _ _ _ _ _ _ Hat).
  - assert (Hid' : id ∈ timer_id <$> L).
    { rewrite fmap_cons in Hid. apply elem_of_cons in Hid as [Hid|Hid]; [congruence|done]. }
    destruct (pending (timer_id x) s) as [tm|] eqn:Hp.
    + assert (Hdtm : due tm <= horizon) by (eapply Hdue; [left|exact Hp]).
      destruct (fire_undisturbed name a cfg f id horizon w old B horizon before ch tr s
                  (timer_id x) tm Hat Hp Hx Hdtm) as [Hund Hck].
      destruct (undisturbed_keeps _ _ _ _ _ _ _ _ _ _ _ _ _ _ _ Hat Hund) as (tr' & Hat').
      apply IH; [done|by exists ch, tr'| |rewrite Hck; lia].
      intros y tm' Hy Hp'. eapply (Hdue y); [by right|].
      destruct (pending_Some _ _ _ Hp') as [Hin Hidy]. rewrite <- Hidy.
      apply pending_NoDup; [by destruct Hat|].
      eapply elem_of_sublist; [exact Hin|by destruct Hund].
    + assert (Hs : exec (fireTimerGuarded (timer_id x)) s = s).
      { unfold exec. by rewrite (fireTimer_cancelled _ _ Hp). }
      rewrite Hs. apply IH; [done|by exists ch, tr| |done].
      intros y tm' Hy Hp'. eapply (Hdue y); [by right|done].
Qed.

(** When the wait ends at the time the debounce timer is due. *)
Lemma debounce_pending_fires name a cfg f id w old B horizon before s :
  debounce_pending name a cfg f id horizon w old B horizon before s →
  clock s <= horizon →
  calls_at SOnChange name (drop (length before) (trace (exec (runTimers horizon) s))) =
    [(horizon, Invoke SOnChange name (fn_id f) [w; old])].
Proof.
  intros Hdp Hclock. pose proof Hdp as (ch & tr & Hat).
  destruct (pending_Some _ _ _ (dp_pending _ _ _ _ _ _ _ _ _ _ _ _ _ _ Hat)) as [Hours Hoid].
  destruct (forEach_fires name a cfg f id w old B horizon before
              (schedule (filter (fun x => due x <= horizon) (timers s))) s)
    as (s' & Heq & tr' & Htr' & Hcalls' & _); [|done| |done|].
  - apply list_elem_of_fmap. eexists. split; [symmetry; exact Hoid|].
    rewrite schedule_perm. apply list_elem_of_filter. split; [|done].
    unfold debounce_timer. simpl. lia.
  - intros x tm Hx Hp. rewrite schedule_perm in Hx.
    apply list_elem_of_filter in Hx as [Hxdue Hxin].
    pose proof (pending_NoDup s x (dp_nodup _ _ _ _ _ _ _ _ _ _ _ _ _ _ Hat) Hxin) as Hpx.
    rewrite Hp in Hpx. by injection Hpx as ->.
  - unfold exec, runTimers.
    erewrite bind_eq by (unfold gets; reflexivity). cbv beta.
    erewrite bind_eq by exact Heq. cbv beta. unfold modify. cbn [snd trace set_clock].
    by rewrite Htr', drop_app_length.
Qed.

Lemma clock_publish_accepted s name v w a ch :
  channels s !! name = Some a →
  channelObjects s !! a = Some ch →
  published_value (config ch) v = Some w →
  clock (exec (publish name v) s) = clock s.
Proof.
  intros Hn Ha Hp. unfold exec. by rewrite (publish_accepted _ _ _ _ _ _ Hn Ha Hp).
Qed.

Lemma debounce_pending_schedule name a cfg f D B horizon before (rest : list (Z * Value)) :
  opt_field Config.onChange cfg = Some f →
  opt_field Config.debounce cfg = Some D →
  0 < D <= TIMEOUT_MAX →
  Forall (fun tv => is_Some (published_value cfg tv.2)) rest →
  ∀ (t : Z) (id : positive) (w old : Value) (s : Bus),
    separated D t rest →
    last_time t rest + D <= horizon →
    clock s = t →
    debounce_pending name a cfg f id (t + D) w old B horizon before s →
    ∃ id',
      debounce_pending name a cfg f id' (last_time t rest + D)
        (last_change cfg old w rest).1 (last_change cfg old w rest).2 B horizon before
        (publish_schedule name rest s)
      ∧ clock (publish_schedule name rest s) = last_time t rest.
Proof.
  intros Hf HD HD0 Hacc. induction Hacc as [|[t' v] rest [w' Hp] Hrest IH];
    intros t id w old s Hsep Hhor Hclock Hdp; [by exists id|].
  destruct Hsep as [Ht Hsep]. cbn [last_time] in Hhor. cbn [snd] in Hp.
  cbn [last_time last_change publish_schedule foldl]. rewrite Hp.
  pose proof (separated_last_time D t' rest Hsep) as Hlast.
  destruct (debounce_pending_wait name a cfg f id (t + D) w old B horizon before t' s Hdp)
    as [Hdp1 Hclock1]; [lia|lia|lia|].
  pose proof (debounce_pending_step name a cfg f D id (t + D) w old B horizon before
                _ v w' Hf HD HD0 Hp Hdp1) as Hdp2.
  rewrite Hclock1 in Hdp2.
  apply (IH t' (nextTimer (exec (runTimers t') s)) w' w
           (publish_after_wait name (t', v) s) Hsep Hhor); [|exact Hdp2].
  unfold publish_after_wait. cbn [fst snd].
  destruct Hdp1 as (ch & tr & Hat).
  rewrite (clock_publish_accepted _ name v w' a ch); [done| | |].
  - by destruct Hat.
  - by destruct Hat.
  - by rewrite (dp_config _ _ _ _ _ _ _ _ _ _ _ _ _ _ Hat).
Qed.

(** C4, amended.  On a well-formed page (every page reached from a fresh
    one is), a channel whose [onChange] is debounced by [D > 0], a delay
    the host's timer keeps ([D <= TIMEOUT_MAX]); a first successful call of
    [publish], then further successful calls, each less than [D] after the
    one before, the host firing every timer that comes due while it waits;
    and every pending TTL expiry of the channel due strictly later than [D]
    after the last call.  Then, from the first call until that time,
    [onChange] of the channel is called exactly once: at [D] after the last
    call, with the value of the last call and the value the signal held
    just before that call. *)
Theorem debounce_delivers_last_value (s : Bus) (name : string) (a : ref) (ch : Channel)
    (f : jsfun) (D : Z) (v1 w1 : Value) (rest : list (Z * Value)) :
  page_wf s →
  channels s !! name = Some a →
  channelObjects s !! a = Some ch →
  opt_field Config.onChange (config ch) = Some f →
  opt_field Config.debounce (config ch) = Some D →
  0 < D <= TIMEOUT_MAX →
  published_value (config ch) v1 = Some w1 →
  Forall (fun tv => is_Some (published_value (config ch) tv.2)) rest →
  separated D (clock s) rest →
  let fire_at := last_time (clock s) rest + D in
  (∀ tm, tm ∈ timers s → callback tm = TtlExpiry name → fire_at < due tm) →
  let s_end :=
    exec (runTimers fire_at) (publish_schedule name rest (exec (publish name v1) s)) in
  calls_at SOnChange name (drop (length (trace s)) (trace s_end)) =
    [(fire_at,
      Invoke SOnChange name (fn_id f)
        [(last_change (config ch) (signal ch) w1 rest).1;
         (last_change (config ch) (signal ch) w1 rest).2])].
Proof.
  intros [W1 W2 W3 W4 W5 W6 W7] Hn Ha Hf HD HD0 Hp Hacc Hsep fire_at Httl s_end.
  assert (Hfirst : debounce_pending name a (config ch) f (nextTimer s) (clock s + D)
                     w1 (signal ch) (nextTimer s) fire_at (trace s)
                     (exec (publish name v1) s)).
  { assert (Hforeign : ∀ tm, tm ∈ cancel_opt (onChangeDebounceTimer ch) (timers s) →
              (timer_id tm < nextTimer s)%positive
              ∧ (∀ f' w' o', callback tm ≠ ExecuteCallback name f' w' o')
              ∧ (callback tm = TtlExpiry name → fire_at < due tm)).
    { intros tm Htm. pose proof (cancel_opt_subseteq _ _ _ Htm) as Hin.
      split; [by apply (proj1 (list.Forall_forall _ _) W1)|]. split; [|by apply Httl].
      intros f' w' o' Hcb.
      pose proof (proj1 (list.Forall_forall _ _) W3 tm Hin) as Hacct.
      unfold timer_accounted, recorded_onChange in Hacct. rewrite Hcb, Hn, Ha in Hacct.
      rewrite Hacct in Htm. by apply cancel_not_in in Htm. }
    assert (Hinj : ∀ n, channels s !! n = Some a → n = name)
      by (intros n Hn'; by apply (W6 n name a)).
    assert (Hobjs : ∀ b c, channelObjects s !! b = Some c → b ≠ a →
              handle_below (nextTimer s) (timeoutId c)
              ∧ handle_below (nextTimer s) (onChangeDebounceTimer c))
      by (intros b c Hb _; by apply (W4 b c)).
    assert (Hregs : ∀ r reg, registrations s !! r = Some reg →
              handle_below (nextTimer s) (debounceTimer reg))
      by (intros r reg Hr; by apply (W5 r reg)).
    apply (debounce_pending_intro name a ch f D s v1 w1 (nextTimer s) fire_at (trace s) []
             Hn Ha Hf HD HD0 Hp ltac:(lia) Hforeign W2 Hinj Hobjs Hregs);
      [by rewrite app_nil_r|done]. }
  destruct (debounce_pending_schedule name a (config ch) f D (nextTimer s) fire_at (trace s)
              rest Hf HD HD0 Hacc (clock s) (nextTimer s) w1 (signal ch)
              (exec (publish name v1) s) Hsep)
    as (id' & Hlast & Hclock); [done| |done|].
  { by apply (clock_publish_accepted s name v1 w1 a ch). }
  apply (debounce_pending_fires name a (config ch) f id' _ _ (nextTimer s) fire_at (trace s));
    [exact Hlast|]. rewrite Hclock. unfold fire_at. lia.
Qed.

(** ** Channels: throttled [onChange] while the host fires timers *)

Lemma left_alone_refl name a s : left_alone name a s s.
Proof. split; try done. exists []. by rewrite app_nil_r. Qed.

Lemma left_alone_trans name a s s' s'' :
  left_alone name a s s' → left_alone name a s' s'' → left_alone name a s s''.
Proof.
  intros [A1 A2 A3 A4 (tr & Htr & Hc)] [B1 B2 B3 B4 (tr' & Htr' & Hc')].
  split.
  - by rewrite B1.
  - intros n b Hb. by apply A2, B2.
  - by rewrite B3.
  - by etransitivity.
  - exists (tr ++ tr'). split; [by rewrite Htr', Htr, app_assoc|].
    by rewrite calls_at_app, Hc, Hc'.
Qed.

Lemma left_alone_fired name a id tm s : left_alone name a s (fired id tm s).
Proof.
  split; try done.
  - apply cancel_sublist.
  - exists []. by rewrite app_nil_r.
Qed.

Lemma left_alone_log name a s s' es :
  calls_at SOnChange name (stamp (clock s') es) = [] →
  left_alone name a s s' →
  left_alone name a s (log_events es s').
Proof.
  intros Hes [U1 U2 U3 U4 (tr' & Htr' & Hcalls')].
  split; try done.
  exists (tr' ++ stamp (clock s') es). split.
  - unfold log_events. cbn [trace set_trace]. by rewrite Htr', app_assoc.
  - by rewrite calls_at_app, Hcalls', Hes.
Qed.

Lemma left_alone_set_clock name a s s' c :
  left_alone name a s s' → left_alone name a s (set_clock c s').
Proof. intros [? ? ? ? ?]. by split. Qed.

Lemma left_alone_quiet name a horizon s s' :
  throttle_quiet name a horizon s →
  left_alone name a s s' →
  throttle_quiet name a horizon s'.
Proof.
  intros [Q1 Q2 Q3 Q4] [A1 A2 A3 A4 _]. split.
  - by rewrite A1.
  - intros n Hn. by apply Q2, A2.
  - intros tm Htm. apply Q3. by eapply elem_of_sublist.
  - eapply sublist_NoDup; [exact Q4|]. by apply fmap_sublist.
Qed.

(** Firing a timer that is neither a debounced [onChange] of the channel
    nor an expiry of the channel leaves the channel alone. *)
Lemma fire_left_alone name a horizon s id' tm :
  throttle_quiet name a horizon s →
  pending id' s = Some tm →
  due tm <= horizon →
  left_alone name a s (exec (fireTimerGuarded id') s)
  ∧ clock (exec (fireTimerGuarded id') s) = Z.max (clock s) (due tm).
Proof.
  intros [Q1 Q2 Q3 Q4] Hp Hdue.
  destruct (pending_Some _ _ _ Hp) as [Htm Hid'].
  destruct (Q3 tm Htm) as (Hnocb & Httl).
  pose proof (left_alone_fired name a id' tm s) as Hbase.
  unfold exec.
  destruct (callback tm) as [n|n f' w' o'|r d] eqn:Hcb.
  - (* TtlExpiry *)
    assert (Hn : n ≠ name) by (intros ->; specialize (Httl eq_refl); lia).
    destruct (channels s !! n) as [a'|] eqn:Hcn.
    2:{ by rewrite (fire_ttl_absent id' tm s n Hp Hcb Hcn). }
    destruct (channelObjects s !! a') as [ch'|] eqn:Hca.
    2:{ rewrite (fire_ttl_dangling id' tm s n a' Hp Hcb Hcn Hca). cbn [snd].
        split; [|done]. by apply left_alone_log. }
    rewrite (fire_ttl id' tm s n a' ch' Hp Hcb Hcn Hca). cbn [snd].
    split; [|done].
    assert (Ha' : a' ≠ a) by (intros ->; by apply Hn, Q2).
    destruct Hbase as [U1 U2 U3 U4 U5].
    unfold clear_result. split; cbn [channels channelObjects timers trace].
    + rewrite lookup_delete_ne by done. exact U1.
    + intros n0 b Hb. apply lookup_delete_Some in Hb as [_ Hb]. by apply U2.
    + rewrite lookup_insert_ne by done. exact U3.
    + etransitivity; [apply cancel_opt_sublist|].
      etransitivity; [apply cancel_opt_sublist|]. exact U4.
    + eexists. split; [reflexivity|]. unfold onClear_events.
      destruct (opt_field Config.onClear (config ch')); [|done].
      by apply calls_at_guarded_other.
  - (* ExecuteCallback *)
    rewrite (fire_callback id' tm s n f' w' o' Hp Hcb). cbn [snd].
    split; [|done]. apply left_alone_log; [|done].
    apply calls_at_guarded_other_name. intros ->. by eapply Hnocb.
  - (* ExecuteListener *)
    unfold fireTimerGuarded, try_catch. rewrite (fireTimer_pending id' tm s Hp), Hcb.
    cbn [runClosure].
    destruct (executeListener_frame r d (fired id' tm s)) as (c & s1 & Heq & Hc & Hlf).
    rewrite Heq.
    assert (Hs1 : left_alone name a s s1).
    { destruct Hbase as [U1 U2 U3 U4 U5].
      destruct Hlf as [L1 L2 L3 L4 L5 L6 (tr1 & Htr1 & Hcalls1)].
      split.
      - by rewrite L1.
      - intros n0 b. rewrite L1. apply U2.
      - by rewrite L2.
      - destruct L5 as [->|(reg & Hreg & ->)]; [exact U4|].
        etransitivity; [apply cancel_opt_sublist|exact U4].
      - exists tr1. split; [exact Htr1|apply Hcalls1]. }
    assert (Hck : clock s1 = Z.max (clock s) (due tm)) by (by destruct Hlf as [_ _ _ -> _ _ _]).
    destruct Hc as [->|[-> ->]]; cbn [snd]; [done|].
    split; [|done].
    change (left_alone name a s
              (log_events [ConsoleError STimer "" dangling] (fired id' tm s))).
    by apply left_alone_log.
Qed.

(** Firing, one after the other, timers that are due by [T0]. *)
Lemma forEach_left_alone name a horizon T0 (L : list Timer) :
  T0 <= horizon →
  ∀ s,
    throttle_quiet name a horizon s →
    (∀ x tm, x ∈ L → pending (timer_id x) s = Some tm → due tm <= T0) →
    clock s <= T0 →
    ∃ s', forEach L (fun x => fireTimerGuarded (timer_id x)) s = (Normal tt, s')
          ∧ left_alone name a s s'
          ∧ clock s <= clock s' <= T0.
Proof.
  intros HT0. induction L as [|x L IH]; intros s Hq Hdue Hclock.
  - exists s. split; [done|]. split; [apply left_alone_refl|lia].
  - cbn [forEach]. erewrite bind_eq by apply fireTimerGuarded_normal. cbv beta.
    destruct (pending (timer_id x) s) as [tm|] eqn:Hp.
    + assert (Hdtm : due tm <= T0) by (eapply Hdue; [left|exact Hp]).
      destruct (fire_left_alone name a horizon s (timer_id x) tm Hq Hp) as [Hla Hck]; [lia|].
      pose proof (left_alone_quiet _ _ _ _ _ Hq Hla) as Hq'.
      destruct (IH (exec (fireTimerGuarded (timer_id x)) s)) as (s' & Heq & Hla' & Hck').
      * exact Hq'.
      * intros y tm' Hy Hp'. eapply (Hdue y); [by right|].
        destruct (pending_Some _ _ _ Hp') as [Hin Hid]. rewrite <- Hid.
        apply pending_NoDup; [by destruct Hq|].
        eapply elem_of_sublist; [exact Hin|by destruct Hla].
      * rewrite Hck. lia.
      * exists s'. split; [done|]. split; [by eapply left_alone_trans|].
        rewrite Hck in Hck'. lia.
    + assert (Hs : exec (fireTimerGuarded (timer_id x)) s = s).
      { unfold exec. by rewrite (fireTimer_cancelled _ _ Hp). }
      rewrite Hs. apply IH; try done.
      intros y tm' Hy Hp'. eapply (Hdue y); [by right|done].
Qed.

(** The host waits until [t], no expiry of the channel being due by then. *)
Lemma throttle_wait name a horizon t s :
  throttle_quiet name a horizon s →
  t <= horizon →
  clock s <= t →
  left_alone name a s (exec (runTimers t) s)
  ∧ clock (exec (runTimers t) s) = t.
Proof.
  intros Hq Hhor Hclock.
  assert (Hin : ∀ x, x ∈ schedule (filter (fun x => due x <= t) (timers s)) →
                     x ∈ timers s ∧ due x <= t).
  { intros x Hx. rewrite schedule_perm in Hx. apply list_elem_of_filter in Hx. tauto. }
  destruct (forEach_left_alone name a horizon t
              (schedule (filter (fun x => due x <= t) (timers s))) Hhor s Hq)
    as (s' & Heq & Hla & Hck); [|done|].
  - intros x tm Hx Hp. destruct (Hin x Hx) as [Hxin Hxdue].
    pose proof (pending_NoDup s x (tq_nodup _ _ _ _ Hq) Hxin) as Hpx.
    rewrite Hp in Hpx. by injection Hpx as ->.
  - unfold exec, runTimers.
    erewrite bind_eq by (unfold gets; reflexivity). cbv beta.
    erewrite bind_eq by exact Heq. cbv beta. unfold modify. cbn [snd].
    split; [by apply left_alone_set_clock|].
    cbn [clock set_clock]. lia.
Qed.

Lemma channels_publish_accepted s name v w a ch :
  channels s !! name = Some a →
  channelObjects s !! a = Some ch →
  published_value (config ch) v = Some w →
  channels (exec (publish name v) s) = channels s.
Proof.
  intros Hn Ha Hp. unfold exec. by rewrite (publish_accepted _ _ _ _ _ _ Hn Ha Hp).
Qed.

(** A throttled [publish] keeps the page quiet around the channel. *)
Lemma throttle_quiet_publish name a horizon s s' :
  throttle_quiet name a horizon s →
  channels s' = channels s →
  timers s' = timers s →
  throttle_quiet name a horizon s'.
Proof. intros [Q1 Q2 Q3 Q4] Hc Ht. split; rewrite ?Hc, ?Ht; done. Qed.

(** C5, amended.  On a well-formed page (every page reached from a fresh
    one is), a channel whose [onChange] is throttled by [T > 0] and not
    debounced, no debounce timer being recorded for it; the throttle open
    when the first call is made (at least [T] since the last firing; a
    channel that never fired counts from clock reading zero); and no expiry
    of the channel due by the time of the third call.  Three successful
    calls of [publish]: the first, a second less than [T] later, a third at
    least [T] after the first, the host firing every timer that comes due
    while it waits.  The first calls [onChange] during the call, with the
    new value and the value it replaces; from then to the end of the second
    call [onChange] of the channel is not called; the third calls
    [onChange] again, with its value and the value of the second call; and
    no timer was created, so nothing is left to fire later. *)
Theorem throttle_drops_calls_inside_window (s : Bus) (name : string) (a : ref)
    (ch : Channel) (f : jsfun) (T t2 t3 : Z) (v1 v2 v3 w1 w2 w3 : Value) :
  page_wf s →
  channels s !! name = Some a →
  channelObjects s !! a = Some ch →
  opt_field Config.onChange (config ch) = Some f →
  opt_field Config.throttle (config ch) = Some T →
  0 < T →
  truthy_num (opt_field Config.debounce (config ch)) = false →
  onChangeDebounceTimer ch = None →
  published_value (config ch) v1 = Some w1 →
  published_value (config ch) v2 = Some w2 →
  published_value (config ch) v3 = Some w3 →
  T <= clock s - default 0 (onChangeLastCall ch) →
  clock s <= t2 < clock s + T →
  clock s + T <= t3 →
  (∀ tm, tm ∈ timers s → callback tm = TtlExpiry name → t3 < due tm) →
  let s1 := exec (publish name v1) s in
  let s2 := publish_after_wait name (t2, v2) s1 in
  let s3 := publish_after_wait name (t3, v3) s2 in
  calls_at SOnChange name (drop (length (trace s)) (trace s1)) =
    [(clock s, Invoke SOnChange name (fn_id f) [w1; signal ch])]
  ∧ calls_at SOnChange name (drop (length (trace s1)) (trace s2)) = []
  ∧ calls_at SOnChange name (drop (length (trace s2)) (trace s3)) =
      [(t3, Invoke SOnChange name (fn_id f) [w3; w2])]
  ∧ timers s3 `sublist_of` timers s.
Proof.
  intros [W1 W2 W3 W4 W5 W6 W7] Hn Ha Hf HT HT0 Hd Hrec Hp1 Hp2 Hp3 Hopen Ht2 Ht3 Httl
         s1 s2 s3.
  assert (HTne : T ≠ 0) by lia.
  assert (Hq : throttle_quiet name a t3 s).
  { split; [exact Hn| |  |exact W2].
    - intros n Hn'. by apply (W6 n name a).
    - intros tm Htm. split; [|by apply Httl].
      intros f' w' o' Hcb.
      pose proof (proj1 (list.Forall_forall _ _) W3 tm Htm) as Hacct.
      unfold timer_accounted, recorded_onChange in Hacct.
      rewrite Hcb, Hn, Ha, Hrec in Hacct. discriminate Hacct. }
  (* the first call *)
  destruct (publish_throttled name f T s a ch v1 w1 Hn Ha Hf HT HTne Hd Hp1)
    as (Hn1 & Ha1 & Hc1 & Hsig1 & Hlc1 & Htm1 & Hck1 & tr1 & Htr1 & Hcalls1).
  fold s1 in Hn1, Ha1, Htm1, Hck1, Htr1.
  rewrite (proj2 (Z.leb_le _ _) Hopen) in Hlc1, Hcalls1.
  set (ch1 := published_channel s ch w1) in *.
  assert (Hq1 : throttle_quiet name a t3 s1).
  { apply (throttle_quiet_publish name a t3 s s1 Hq); [|exact Htm1].
    apply (channels_publish_accepted s name v1 w1 a ch Hn Ha Hp1). }
  (* the host waits, then the second call *)
  destruct (throttle_wait name a t3 t2 s1 Hq1) as [Hla1 Hwck1]; [lia|lia|].
  set (s1w := exec (runTimers t2) s1) in *.
  pose proof (left_alone_quiet _ _ _ _ _ Hq1 Hla1) as Hq1w.
  assert (Hn1w : channels s1w !! name = Some a)
    by (rewrite (la_channel _ _ _ _ Hla1); exact Hn1).
  assert (Ha1w : channelObjects s1w !! a = Some ch1)
    by (rewrite (la_object _ _ _ _ Hla1); exact Ha1).
  destruct (la_trace _ _ _ _ Hla1) as (trw1 & Htrw1 & Hcw1).
  rewrite <- Hc1 in Hf, HT, Hd, Hp2, Hp3.
  destruct (publish_throttled name f T s1w a ch1 v2 w2 Hn1w Ha1w Hf HT HTne Hd Hp2)
    as (Hn2 & Ha2 & Hc2 & Hsig2 & Hlc2 & Htm2 & Hck2 & tr2 & Htr2 & Hcalls2).
  change (exec (publish name v2) s1w) with s2 in Hn2, Ha2, Htm2, Hck2, Htr2.
  rewrite Hwck1, Hlc1 in Hlc2, Hcalls2. cbn [default from_option id] in Hlc2, Hcalls2.
  rewrite (proj2 (Z.leb_gt _ _)) in Hlc2, Hcalls2 by lia.
  set (ch2 := published_channel s1w ch1 w2) in *.
  assert (Hq2 : throttle_quiet name a t3 s2).
  { apply (throttle_quiet_publish name a t3 s1w s2 Hq1w); [|exact Htm2].
    apply (channels_publish_accepted s1w name v2 w2 a ch1 Hn1w Ha1w Hp2). }
  (* the host waits, then the third call *)
  destruct (throttle_wait name a t3 t3 s2 Hq2) as [Hla2 Hwck2]; [lia|lia|].
  set (s2w := exec (runTimers t3) s2) in *.
  assert (Hn2w : channels s2w !! name = Some a)
    by (rewrite (la_channel _ _ _ _ Hla2); exact Hn2).
  assert (Ha2w : channelObjects s2w !! a = Some ch2)
    by (rewrite (la_object _ _ _ _ Hla2); exact Ha2).
  destruct (la_trace _ _ _ _ Hla2) as (trw2 & Htrw2 & Hcw2).
  rewrite <- Hc2 in Hf, HT, Hd, Hp3.
  destruct (publish_throttled name f T s2w a ch2 v3 w3 Hn2w Ha2w Hf HT HTne Hd Hp3)
    as (Hn3 & Ha3 & Hc3 & Hsig3 & Hlc3 & Htm3 & Hck3 & tr3 & Htr3 & Hcalls3).
  change (exec (publish name v3) s2w) with s3 in Hn3, Ha3, Htm3, Hck3, Htr3.
  rewrite Hwck2, Hlc2 in Hcalls3. cbn [default from_option id] in Hcalls3.
  rewrite (proj2 (Z.leb_le _ _)) in Hcalls3 by lia.
  rewrite Hsig2 in Hcalls3.
  split; [by rewrite Htr1, drop_app_length|].
  split.
  { rewrite Htr2, Htrw1, <- app_assoc, drop_app_length, calls_at_app.
    by rewrite Hcw1, Hcalls2. }
  split.
  { rewrite Htr3, Htrw2, <- app_assoc, drop_app_length, calls_at_app.
    by rewrite Hcw2, Hcalls3. }
  rewrite Htm3. etransitivity; [exact (la_timers _ _ _ _ Hla2)|].
  rewrite Htm2. etransitivity; [exact (la_timers _ _ _ _ Hla1)|].
  by rewrite Htm1.
Qed.
(** C4 as stated fails.  A channel with [ttl: 50] and a debounced
    [onChange] ([debounce: 100]), created when the clock reads 1000 and
    published to once, successfully, at that moment: the TTL timer fires at
    1050, [clear] cancels the debounce timer, and by 1100, and ever after,
    [onChange] has not been called. *)
Lemma debounce_lost_when_ttl_expires :
  let s0 := Sample.page_with "c" (Sample.with_debounce (Some 50)) in
  let s1 := exec (publish "c" (VNumber 5)) s0 in
  let s2 := exec (runTimers 1100) s1 in
  result (publish "c" (VNumber 5)) s0 = Normal tt
  ∧ result (getValue "c") s1 = Normal (VNumber 5)
  ∧ calls_at SOnChange "c" (trace s2) = []
  ∧ timers s2 = []
  ∧ ¬ (∃ e, calls_at SOnChange "c" (drop (length (trace s0)) (trace s2)) = [e]).
Proof.
  vm_compute. repeat split; try reflexivity. intros [e He]. discriminate He.
Qed.

(** C5 as stated fails, in two ways.  First, a channel with [ttl: 150] and
    a throttled [onChange] ([throttle: 100]), created when the clock reads
    1000: the call of [publish] at 1000 calls [onChange] and the call at
    1050 is dropped, as C5 says; the TTL timer fires at 1150 and [clear]
    removes the channel; the call at 1200, more than the throttle after
    the last firing, makes a channel without hooks and calls nothing.
    Second, a channel with [throttle: 100] created while the clock reads
    50: its first call of [publish] succeeds and calls nothing, the
    throttle counting from clock reading zero. *)
Lemma throttle_call_lost_when_ttl_expires :
  let s0 := Sample.page_with "c" (Sample.with_throttle_and_ttl 150) in
  let s1 := exec (publish "c" (VNumber 1)) s0 in
  let s2 := publish_after_wait "c" (1050, VNumber 2) s1 in
  let s3 := publish_after_wait "c" (1200, VNumber 3) s2 in
  let early := Sample.early_throttled_page in
  (result (publish "c" (VNumber 3)) (exec (runTimers 1200) s2) = Normal tt
   ∧ result (getValue "c") s3 = Normal (VNumber 3)
   ∧ calls_at SOnChange "c" (drop (length (trace s0)) (trace s2)) =
       [(1000, Invoke SOnChange "c" 1 [VNumber 1; VNumber 0])]
   ∧ calls_at SOnChange "c" (drop (length (trace s2)) (trace s3)) = []
   ∧ timers s3 = [])
  ∧ (result (publish "c" (VNumber 1)) early = Normal tt
     ∧ result (getValue "c") (exec (publish "c" (VNumber 1)) early) = Normal (VNumber 1)
     ∧ calls_at SOnChange "c" (produced (publish "c" (VNumber 1)) early) = []
     ∧ timers (exec (publish "c" (VNumber 1)) early) = []).
Proof.
  vm_compute. repeat split; reflexivity.
Qed.

(** ** Instant events: [once] and [unlisten] on concrete pages *)

(** C7 at a failing input.  A listener that throws, registered with [once],
    and the event emitted twice: the listener is called at both emissions
    and the registration is still in place. *)
Lemma once_listener_that_throws_is_called_again :
  let s0 := exec (once "e" (Sample.throwing 7)) Sample.page in
  let s1 := exec (emit "e" (VNumber 1)) s0 in
  let s2 := exec (emit "e" (VNumber 2)) s1 in
  calls_at SListener "e" (trace s2) =
    [(1000, Invoke SListener "e" 7 [VNumber 1]);
     (1000, Invoke SListener "e" 7 [VNumber 2])]
  ∧ eventListeners s2 !! "e" = Some 0%nat
  ∧ setObjects s2 !! 0%nat = Some [1%nat]
  ∧ hasExecuted <$> registrations s2 !! 1%nat = Some false.
Proof. vm_compute. repeat split; reflexivity. Qed.

(** C8 at a failing input.  [unlisten] of a first registration is called,
    a second listener is registered for the same name, and [unlisten] of
    the first is called again: the entry of the name, which now holds the
    second registration only, is deleted, and an emission no longer reaches
    the second listener. *)
Lemma second_unlisten_deletes_recreated_entry :
  let s0 := exec (on "e" Sample.first_listener None) Sample.page in
  let s1 := exec (unlisten 1%nat) s0 in
  let s2 := exec (on "e" Sample.second_listener None) s1 in
  let s3 := exec (unlisten 1%nat) s2 in
  result (on "e" Sample.first_listener None) Sample.page = Normal 1%nat
  ∧ eventListeners s1 !! "e" = None
  ∧ eventListeners s2 !! "e" = Some 2%nat
  ∧ setObjects s2 !! 2%nat = Some [3%nat]
  ∧ produced (emit "e" (VNumber 1)) s2 = [(1000, Invoke SListener "e" 6 [VNumber 1])]
  ∧ eventListeners s3 !! "e" = None
  ∧ produced (emit "e" (VNumber 1)) s3 = [].
Proof. vm_compute. repeat split; reflexivity. Qed.

(** ** The properties on the sample pages *)

Lemma publish_rejected_is_atomic_witness :
  publish "count" (VNumber (-3)) Sample.validated_page =
    (Normal tt,
     set_trace
       (trace Sample.validated_page
        ++ [(clock Sample.validated_page,
             Invoke SValidate "count" (fn_id Sample.is_positive) [VNumber (-3)]);
            (clock Sample.validated_page, ConsoleWarn "count" (VNumber (-3)))])
       Sample.validated_page).
Proof.
  apply (publish_rejected_is_atomic Sample.validated_page "count" (VNumber (-3))
           (VBool false) 0%nat (Sample.channel_on Sample.validated_page "count")
           Sample.with_validate Sample.is_positive);
    vm_compute; reflexivity.
Defined.

Lemma publish_delivers_transform_output_witness :
  result (getValue "n") (exec (publish "n" (VNumber 21)) Sample.transformed_page) =
    Normal (VNumber 42)
  ∧ sessionStorage (exec (publish "n" (VNumber 21)) Sample.transformed_page)
      !! "lithium:n" = Some "42"
  ∧ calls_at SSubscriber "n" (produced (publish "n" (VNumber 21)) Sample.transformed_page) =
      [(1000, Invoke SSubscriber "n" 4 [VNumber 42])].
Proof.
  destruct (publish_delivers_transform_output Sample.transformed_page "n" (VNumber 21)
              (VNumber 42) 0%nat (Sample.channel_on Sample.transformed_page "n")
              Sample.double)
    as (_ & _ & Hget & Hstore & Hsubs); try (vm_compute; reflexivity).
  split; [exact Hget|]. split; [|exact Hsubs].
  apply (Hstore ltac:(discriminate) "42"). vm_compute; reflexivity.
Defined.

Lemma onInit_fires_once_witness :
  calls_at SOnInit "n"
    (drop (length (trace Sample.page))
       (trace (publish_calls "n" [(1001, VNull); (1002, VNumber 5); (1003, VNumber 6)]
                 (exec (channel "n" (Some Sample.with_onInit)) Sample.page)))) =
    [(1002, Invoke SOnInit "n" 2 [VNumber 5])].
Proof.
  apply (onInit_fires_once Sample.page "n" Sample.with_onInit Sample.onInit
           [(1001, VNull); (1002, VNumber 5); (1003, VNumber 6)]);
    vm_compute; reflexivity.
Defined.

Lemma debounced_page_wf : page_wf Sample.debounced_page.
Proof.
  split.
  - apply (bool_decide_unpack _). vm_compute. exact I.
  - apply (bool_decide_unpack _). vm_compute. exact I.
  - vm_compute. repeat constructor.
  - apply (bool_decide_unpack _). vm_compute. exact I.
  - apply (bool_decide_unpack _). vm_compute. exact I.
  - intros n n' a Hn Hn'.
    assert (Hch : channels Sample.debounced_page = {[ "c" := 0%nat ]})
      by (vm_compute; reflexivity).
    rewrite Hch in Hn, Hn'. apply lookup_singleton_Some in Hn as [<- _].
    by apply lookup_singleton_Some in Hn' as [<- _].
  - apply (bool_decide_unpack _). vm_compute. exact I.
Defined.

Lemma debounce_delivers_last_value_witness :
  calls_at SOnChange "c"
    (drop (length (trace Sample.debounced_page))
       (trace (exec (runTimers 1220)
                 (publish_schedule "c" [(1050, VNumber 2); (1120, VNumber 3)]
                    (exec (publish "c" (VNumber 1)) Sample.debounced_page))))) =
    [(1220, Invoke SOnChange "c" 1 [VNumber 3; VNumber 2])].
Proof.
  apply (debounce_delivers_last_value Sample.debounced_page "c" 0%nat
           (Sample.channel_on Sample.debounced_page "c") Sample.onChange 100
           (VNumber 1) (VNumber 1) [(1050, VNumber 2); (1120, VNumber 3)]
           debounced_page_wf);
    try (vm_compute; reflexivity).
  - unfold TIMEOUT_MAX. lia.
  - repeat constructor; vm_compute; eauto.
  - vm_compute. repeat split; discriminate.
  - intros tm Htm _.
    assert (Htimers : timers Sample.debounced_page =
                      [{| timer_id := 1%positive; due := 1300; callback := TtlExpiry "c" |}])
      by (vm_compute; reflexivity).
    rewrite Htimers in Htm. apply list_elem_of_singleton in Htm as ->.
    vm_compute. reflexivity.
Defined.

Lemma busy_throttled_page_wf : page_wf Sample.busy_throttled_page.
Proof.
  split.
  - apply (bool_decide_unpack _). vm_compute. exact I.
  - apply (bool_decide_unpack _). vm_compute. exact I.
  - vm_compute. repeat constructor.
  - apply (bool_decide_unpack _). vm_compute. exact I.
  - apply (bool_decide_unpack _). vm_compute. exact I.
  - intros n n' a Hn Hn'.
    assert (Hch : channels Sample.busy_throttled_page =
                  <["d" := 1%nat]> {[ "c" := 0%nat ]})
      by (vm_compute; reflexivity).
    rewrite Hch in Hn, Hn'.
    apply lookup_insert_Some in Hn as [[<- <-]|[_ Hn]];
      apply lookup_insert_Some in Hn' as [[<- Ha]|[_ Hn']]; try done.
    + apply lookup_singleton_Some in Hn' as [_ Hn']. discriminate Hn'.
    + apply lookup_singleton_Some in Hn as [_ Hn]. subst a. discriminate Ha.
    + apply lookup_singleton_Some in Hn as [<- _].
      by apply lookup_singleton_Some in Hn' as [<- _].
  - apply (bool_decide_unpack _). vm_compute. exact I.
Defined.

Lemma throttle_drops_calls_inside_window_witness :
  calls_at SOnChange "c"
    (drop (length (trace Sample.busy_throttled_page))
       (trace (exec (publish "c" (VNumber 1)) Sample.busy_throttled_page))) =
    [(1000, Invoke SOnChange "c" 1 [VNumber 1; VNumber 0])]
  ∧ calls_at SOnChange "c"
      (drop (length (trace (exec (publish "c" (VNumber 1)) Sample.busy_throttled_page)))
         (trace (publish_after_wait "c" (1050, VNumber 2)
                   (exec (publish "c" (VNumber 1)) Sample.busy_throttled_page)))) = []
  ∧ calls_at SOnChange "c"
      (drop (length (trace (publish_after_wait "c" (1050, VNumber 2)
                              (exec (publish "c" (VNumber 1)) Sample.busy_throttled_page))))
         (trace (publish_after_wait "c" (1100, VNumber 3)
                   (publish_after_wait "c" (1050, VNumber 2)
                      (exec (publish "c" (VNumber 1)) Sample.busy_throttled_page))))) =
      [(1100, Invoke SOnChange "c" 1 [VNumber 3; VNumber 2])]
  ∧ timers (publish_after_wait "c" (1100, VNumber 3)
              (publish_after_wait "c" (1050, VNumber 2)
                 (exec (publish "c" (VNumber 1)) Sample.busy_throttled_page)))
      `sublist_of` timers Sample.busy_throttled_page.
Proof.
  assert (Hdue : Forall (fun tm => callback tm = TtlExpiry "c" → 1100 < due tm)
                   (timers Sample.busy_throttled_page)).
  { vm_compute. constructor; [intros _; reflexivity|].
    constructor; [intros H; discriminate H|]. constructor. }
  assert (Hopen : 100 <= clock Sample.busy_throttled_page
                         - default 0 (onChangeLastCall
                                        (Sample.channel_on Sample.busy_throttled_page "c")))
    by (vm_compute; discriminate).
  assert (Ht2 : clock Sample.busy_throttled_page <= 1050
                < clock Sample.busy_throttled_page + 100)
    by (vm_compute; split; [discriminate|reflexivity]).
  assert (Ht3 : clock Sample.busy_throttled_page + 100 <= 1100)
    by (vm_compute; discriminate).
  assert (HT : 0 < 100) by lia.
  exact (throttle_drops_calls_inside_window Sample.busy_throttled_page "c" 0%nat
           (Sample.channel_on Sample.busy_throttled_page "c") Sample.onChange 100 1050 1100
           (VNumber 1) (VNumber 2) (VNumber 3) (VNumber 1) (VNumber 2) (VNumber 3)
           busy_throttled_page_wf
           ltac:(vm_compute; reflexivity) ltac:(vm_compute; reflexivity)
           ltac:(vm_compute; reflexivity) ltac:(vm_compute; reflexivity) HT
           ltac:(vm_compute; reflexivity) ltac:(vm_compute; reflexivity)
           ltac:(vm_compute; reflexivity) ltac:(vm_compute; reflexivity)
           ltac:(vm_compute; reflexivity) Hopen Ht2 Ht3
           (fun tm Htm => proj1 (list.Forall_forall _ _) Hdue tm Htm)).
Defined.

Lemma unsubscribe_last_clears_channel_witness :
  result (unsubscribe Sample.the_handle) Sample.subscribed_page = Normal tt
  ∧ channels (exec (unsubscribe Sample.the_handle) Sample.subscribed_page) !! "c" = None
  ∧ calls_at SOnClear "c" (produced (unsubscribe Sample.the_handle) Sample.subscribed_page) =
      [(1000, Invoke SOnClear "c" 3 [])]
  ∧ timers (exec (unsubscribe Sample.the_handle) Sample.subscribed_page) = []
  ∧ localStorage (exec (unsubscribe Sample.the_handle) Sample.subscribed_page) !! "kept"
      = None.
Proof.
  destruct (unsubscribe_last_clears_channel Sample.subscribed_page "c" 0%nat
              (Sample.channel_on Sample.subscribed_page "c") Sample.subscriber)
    as (Hres & Hgone & Hclear & Htimers & _ & Hstore); try (vm_compute; reflexivity).
  specialize (Hstore ltac:(vm_compute; discriminate)).
  vm_compute in Hres, Hgone, Hclear, Htimers, Hstore. vm_compute.
  exact (conj Hres (conj Hgone (conj Hclear (conj Htimers Hstore)))).
Defined.

Lemma publish_creates_missing_channel_witness :
  result (getValue "fresh") (exec (publish "fresh" (VNumber 7)) Sample.page) =
    Normal (VNumber 7)
  ∧ produced (publish "fresh" (VNumber 7)) Sample.page = [].
Proof.
  destruct (publish_creates_missing_channel Sample.page "fresh" (VNumber 7))
    as (_ & _ & _ & _ & Hget & Hnone & _); [vm_compute; reflexivity|].
  split; [exact Hget|exact Hnone].
Defined.

Lemma off_leaves_debounce_timer_pending_witness :
  eventListeners (exec (off "e") Sample.listening_page) !! "e" = None
  ∧ timers (exec (off "e") Sample.listening_page) = timers Sample.listening_page
  ∧ calls_at SListener "e"
      (produced (fireTimer 1) (exec (off "e") Sample.listening_page)) =
      [(1100, Invoke SListener "e" 5 [VNumber 1])]
  ∧ timers (exec (unlisten 1%nat) Sample.listening_page) = []
  ∧ produced (fireTimer 1) (exec (unlisten 1%nat) Sample.listening_page) = [].
Proof.
  pose proof (off_leaves_debounce_timer_pending Sample.listening_page 1%nat
           (Sample.registration_on Sample.listening_page 1%nat) 1%positive
           (Sample.timer_on Sample.listening_page 1%positive) (VNumber 1) [1%nat]
           ltac:(vm_compute; reflexivity) ltac:(vm_compute; reflexivity)
           ltac:(vm_compute; reflexivity) ltac:(vm_compute; reflexivity)
           ltac:(vm_compute; reflexivity)) as H.
  vm_compute in H. vm_compute. exact H.
Defined.

(** * The rest of the interface *)

(** ** Well-formed pages, continued *)

Lemma keeps_forEachChannel f : (∀ a n, keeps (f a n)) → keeps (forEachChannel f).
Proof. intros Hf. unfold forEachChannel. keeps_auto. Qed.

Lemma keeps_clearAll v : keeps (clearAll v).
Proof.
  unfold clearAll. destruct (truthy v); apply keeps_forEachChannel; intros ? ?; keeps_auto.
Qed.

Lemma keeps_beforeunload : keeps beforeunload.
Proof.
  unfold beforeunload, beforeunload_listener. keeps_auto.
  apply keeps_forEachChannel. intros ? ?. keeps_auto.
Qed.

Lemma keeps_getChannelInfo name : keeps (getChannelInfo name).
Proof.
  unfold getChannelInfo, Date_now. keeps_auto. destruct (_ !! name); keeps_auto.
Qed.

Lemma page_wf_step c s : page_wf s → page_wf (step c s).
Proof.
  destruct c; simpl.
  - apply keeps_channel.
  - apply keeps_publish.
  - apply keeps_subscribe.
  - apply keeps_unsubscribe.
  - apply keeps_getValue.
  - apply keeps_clear.
  - apply keeps_clearAll.
  - apply keeps_getChannelInfo.
  - apply keeps_emit.
  - apply keeps_on.
  - apply keeps_on.
  - apply keeps_off.
  - apply keeps_unlisten.
  - apply keeps_runTimers.
  - by apply page_wf_frame.
  - apply keeps_beforeunload.
Qed.

(** Every page reached from a well-formed one is well formed. *)
Lemma page_wf_run steps s : page_wf s → page_wf (run steps s).
Proof.
  revert s. induction steps as [|c steps IH]; intros s Hs; simpl; [done|].
  by apply IH, page_wf_step.
Qed.

(** Every page reached from a fresh one, by calls of the interface, timers
    firing and the page going away, is well formed: timer handles are
    issued once each; the handles kept by channels and registrations were
    issued; a pending debounced [onChange] is the one its channel keeps,
    so at most one is pending for a channel; no two names share a channel
    object. *)
Theorem page_wf_reachable (stringify : Value → json_text) (parse : string → outcome)
    (now : Z) (steps : list Step) :
  page_wf (run steps (fresh_page stringify parse now)).
Proof. apply page_wf_run, page_wf_fresh. Qed.

(** ** Channels: creation *)

Lemma init_eq s : init s = (Normal tt, set_initialized true s).
Proof.
  unfold init, bind, gets, modify. destruct (initialized s) eqn:Hi; [|done].
  unfold ret. f_equal. by apply bus_ext.
Qed.

Lemma channel_existing s name a cfg :
  channels s !! name = Some a →
  channel name cfg s = (Normal a, set_initialized true s).
Proof.
  intros Hn. unfold channel.
  erewrite bind_eq by apply init_eq. cbv beta.
  erewrite bind_eq by (unfold gets; reflexivity). cbv beta. bus_simpl. by rewrite Hn.
Qed.

(** [channel] for a name that has a channel returns that channel and
    ignores the configuration passed: no hook is called, no timer is
    created, storage is not read, and only the [initialized] flag of the
    bus may change. *)
Theorem channel_existing_ignores_config (s : Bus) (name : string) (a : ref)
    (cfg : option Config.t) :
  channels s !! name = Some a →
  channel name cfg s = (Normal a, set_initialized true s).
Proof. apply channel_existing. Qed.

(** A new channel over a storage entry that parses starts with the stored
    value, whatever its [initialValue]; [onInit], if configured, is called
    with the stored value when it is neither [undefined] nor [null]; the
    entry is left as it is. *)
Theorem channel_starts_from_stored_value (s : Bus) (name : string) (cfg : Config.t)
    (mode : StorageMode) (text : string) (v : Value) :
  channels s !! name = None →
  Config.storage cfg = Some mode →
  mode ≠ memory →
  storeOf mode s !! config_storageKey name (Some cfg) = Some text →
  text ≠ EmptyString →
  JSON_parse s text = Returns v →
  v ≠ VUndefined →
  let s' := exec (channel name (Some cfg)) s in
  result (getValue name) s' = Normal v
  ∧ calls_at SOnInit name (produced (channel name (Some cfg)) s) =
      match Config.onInit cfg with
      | Some f => if non_absent v then [(clock s, Invoke SOnInit name (fn_id f) [v])] else []
      | None => []
      end
  ∧ sessionStorage s' = sessionStorage s
  ∧ localStorage s' = localStorage s.
Proof.
  intros Hn Hmode Hmem Hstore Htext Hparse Hv s'.
  pose proof (channel_new s name (Some cfg) Hn) as Hc.
  assert (Hs' : s' = channel_result name (Some cfg) s) by (unfold s', exec; by rewrite Hc).
  assert (Hst : stored_value s (config_storageKey name (Some cfg)) (config_storage (Some cfg))
                = v).
  { unfold stored_value, config_storage. cbn [opt_field default from_option id].
    rewrite Hmode. cbn [default from_option id]. destruct mode; [done| |];
      rewrite Hstore; (destruct text; [done|]); by rewrite Hparse. }
  assert (Hres : resolved_value s name (Some cfg) = v).
  { unfold resolved_value. rewrite Hst. unfold strict_eq.
    by rewrite bool_decide_eq_false_2 by done. }
  assert (Hev : storage_read_events s (config_storageKey name (Some cfg))
                  (config_storage (Some cfg)) = []).
  { unfold storage_read_events, config_storage. cbn [opt_field default from_option id].
    rewrite Hmode. cbn [default from_option id]. destruct mode; [done| |];
      rewrite Hstore; (destruct text; [done|]); by rewrite Hparse. }
  split.
  { rewrite Hs'. unfold result.
    erewrite getValue_eq; [|unfold channel_result; bus_simpl; apply lookup_insert_eq
                            |unfold channel_result; bus_simpl; apply lookup_insert_eq].
    unfold created_channel. bus_simpl. by rewrite Hres. }
  split.
  { erewrite produced_eq; [|unfold exec; rewrite Hc; unfold channel_result; bus_simpl;
                            reflexivity].
    unfold creation_events. rewrite Hev, Hres. cbn [app opt_field].
    destruct (Config.onInit cfg) as [f|]; [|done].
    destruct (non_absent v); [|done]. apply calls_at_guarded. }
  by rewrite Hs'.
Qed.

(** A new channel starts with its [initialValue] when its storage mode is
    [memory] (storage is not looked at), when storage has no entry or an
    empty one under its key, and when the entry does not parse; [channel]
    returns normally in each case. *)
Theorem channel_falls_back_to_initialValue (s : Bus) (name : string) (cfg : Config.t) :
  channels s !! name = None →
  let mode := config_storage (Some cfg) in
  let key := config_storageKey name (Some cfg) in
  mode = memory
  ∨ storeOf mode s !! key = None
  ∨ storeOf mode s !! key = Some EmptyString
  ∨ (∃ text e, storeOf mode s !! key = Some text ∧ JSON_parse s text = Throws e) →
  result (channel name (Some cfg)) s = Normal (nextRef s)
  ∧ result (getValue name) (exec (channel name (Some cfg)) s) = Normal (Config.initialValue cfg).
Proof.
  intros Hn mode key Hcase.
  pose proof (channel_new s name (Some cfg) Hn) as Hc.
  split; [unfold result; by rewrite Hc|].
  unfold exec. rewrite Hc. cbn [snd]. unfold result.
  erewrite getValue_eq; [|unfold channel_result; bus_simpl; apply lookup_insert_eq
                          |unfold channel_result; bus_simpl; apply lookup_insert_eq].
  unfold created_channel. bus_simpl. f_equal.
  unfold resolved_value. fold mode key.
  assert (Hst : stored_value s key mode = VUndefined).
  { unfold stored_value. destruct Hcase as [Hm|[Hnone|[Hempty|(text & e & Hsome & Hthrow)]]].
    - by rewrite Hm.
    - destruct mode; [done| |]; by rewrite Hnone.
    - destruct mode; [done| |]; by rewrite Hempty.
    - destruct mode; [done| |]; rewrite Hsome; (destruct text; [done|]); by rewrite Hthrow. }
  rewrite Hst. done.
Qed.

(** An entry that does not parse is reported on the console, once. *)
Theorem channel_reports_corrupt_storage (s : Bus) (name : string) (cfg : Config.t)
    (mode : StorageMode) (text : string) (e : Value) :
  channels s !! name = None →
  Config.storage cfg = Some mode →
  mode ≠ memory →
  storeOf mode s !! config_storageKey name (Some cfg) = Some text →
  JSON_parse s text = Throws e →
  text ≠ EmptyString →
  errors_at SStorage (mode_name mode) (produced (channel name (Some cfg)) s) =
    [(clock s, ConsoleError SStorage (mode_name mode) e)].
Proof.
  intros Hn Hmode Hmem Hstore Hparse Htext.
  pose proof (channel_new s name (Some cfg) Hn) as Hc.
  erewrite produced_eq; [|unfold exec; rewrite Hc; unfold channel_result; bus_simpl;
                          reflexivity].
  assert (Hst : stored_value s (config_storageKey name (Some cfg)) (config_storage (Some cfg))
                = VUndefined).
  { unfold stored_value, config_storage. cbn [opt_field default from_option id].
    rewrite Hmode. cbn [default from_option id]. destruct mode; [done| |];
      rewrite Hstore; (destruct text; [done|]); by rewrite Hparse. }
  unfold creation_events, resolved_value. rewrite Hst.
  assert (Hev : storage_read_events s (config_storageKey name (Some cfg))
                  (config_storage (Some cfg)) = [ConsoleError SStorage (mode_name mode) e]).
  { unfold storage_read_events, config_storage. cbn [opt_field default from_option id].
    rewrite Hmode. cbn [default from_option id]. destruct mode; [done| |];
      rewrite Hstore; (destruct text; [done|]); by rewrite Hparse. }
  rewrite Hev. unfold strict_eq. rewrite bool_decide_eq_true_2 by done.
  cbn [opt_field]. unfold errors_at, stamp. cbn [app map List.filter is_error snd].
  rewrite !bool_decide_eq_true_2 by done. cbn [andb]. f_equal.
  destruct (Config.onInit cfg) as [f|]; [|done].
  destruct (non_absent _); [|done].
  unfold guarded_events. cbn [map List.filter is_error snd].
  destruct (fn_call f _); [done|]. cbn [map List.filter is_error snd].
  by rewrite bool_decide_eq_false_2 by done.
Qed.

(** ** Channels: [publish] *)

Lemma errors_at_app site name l1 l2 :
  errors_at site name (l1 ++ l2) = errors_at site name l1 ++ errors_at site name l2.
Proof. apply List.filter_app. Qed.

Lemma errors_at_call_events site name site' name' f args t :
  errors_at site name (stamp t (call_events site' name' f args)) = [].
Proof. by destruct f. Qed.

Lemma errors_at_guarded_other site name site' name' f args t :
  site' ≠ site →
  errors_at site name (stamp t (guarded_events site' name' f args)) = [].
Proof.
  intros Hs. unfold errors_at, guarded_events. cbn [stamp map List.filter is_error snd].
  destruct (fn_call f args); [done|]. cbn [map List.filter is_error snd].
  by rewrite (bool_decide_eq_false_2 _ Hs).
Qed.

Lemma errors_at_guarded site name f args t :
  errors_at site name (stamp t (guarded_events site name f args)) =
    match fn_call f args with
    | Returns _ => []
    | Throws e => [(t, ConsoleError site name e)]
    end.
Proof.
  unfold errors_at, guarded_events. cbn [stamp map List.filter is_error snd].
  destruct (fn_call f args); [done|]. cbn [map List.filter is_error snd].
  by rewrite !bool_decide_eq_true_2 by done.
Qed.

Lemma errors_at_onInit_other site name name' ch w t :
  site ≠ SOnInit →
  errors_at site name (stamp t (onInit_events name' ch w)) = [].
Proof.
  intros Hs. unfold onInit_events.
  destruct (negb _ && _); [|done].
  destruct (opt_field Config.onInit (config ch)); [|done].
  by apply errors_at_guarded_other.
Qed.

Lemma errors_at_onChange_other site name name' ch now w t :
  site ≠ SOnChange →
  errors_at site name (stamp t (onChange_events name' ch now w)) = [].
Proof.
  intros Hs. unfold onChange_events.
  destruct (opt_field Config.onChange (config ch)); [|done].
  destruct (truthy_num (opt_field Config.debounce _)); [done|].
  destruct (truthy_num (opt_field Config.throttle _)); [destruct (throttle_open _ _)|];
    try done; by apply errors_at_guarded_other.
Qed.

Lemma errors_at_subscribers_other site name name' ch w t :
  site ≠ SSubscriber →
  errors_at site name (stamp t (subscriber_events name' ch w)) = [].
Proof.
  intros Hs. unfold subscriber_events.
  induction (subscribers ch) as [|cb l IH]; [done|].
  cbn [map concat]. rewrite stamp_app, errors_at_app, IH.
  by rewrite (errors_at_guarded_other site name SSubscriber name' cb [w] t).
Qed.

Lemma errors_at_subscribers name ch w t :
  errors_at SSubscriber name (stamp t (subscriber_events name ch w)) =
    concat (map (subscriber_error name w t) (subscribers ch)).
Proof.
  unfold subscriber_events.
  induction (subscribers ch) as [|cb l IH]; [done|].
  cbn [map concat]. rewrite stamp_app, errors_at_app, IH.
  by rewrite (errors_at_guarded SSubscriber name cb [w] t).
Qed.

(** A successful [publish] calls every subscriber once, in the order of
    subscription, with the value that reached the signal, whatever the
    hooks [onInit] and [onChange] and the other subscribers do: a
    subscriber that throws is reported on the console and the next one is
    called; [publish] returns normally. *)
Theorem publish_isolates_subscriber_errors (s : Bus) (name : string) (value w : Value)
    (a : ref) (ch : Channel) :
  channels s !! name = Some a →
  channelObjects s !! a = Some ch →
  published_value (config ch) value = Some w →
  result (publish name value) s = Normal tt
  ∧ calls_at SSubscriber name (produced (publish name value) s) =
      map (fun cb => (clock s, Invoke SSubscriber name (fn_id cb) [w])) (subscribers ch)
  ∧ errors_at SSubscriber name (produced (publish name value) s) =
      concat (map (subscriber_error name w (clock s)) (subscribers ch)).
Proof.
  intros Hn Ha Hp.
  split; [unfold result; by rewrite (publish_accepted _ _ _ _ _ _ Hn Ha Hp)|].
  rewrite (produced_publish_accepted _ _ _ _ _ _ Hn Ha Hp).
  split.
  - rewrite calls_at_publish_events by done.
    rewrite calls_at_onInit_other, calls_at_onChange_other by done.
    apply calls_at_subscribers.
  - unfold publish_events. rewrite !stamp_app, !errors_at_app.
    rewrite !errors_at_call_events.
    rewrite errors_at_onInit_other, errors_at_onChange_other by done.
    rewrite errors_at_subscribers. cbn [app].
    assert (Hpers : errors_at SSubscriber name
                      (stamp (clock s) (persist_events s (storage ch) w)) = []).
    { unfold persist_events. destruct (storage ch); [done| |];
        by destruct (JSON_stringify s w). }
    by rewrite Hpers.
Qed.

(** A value that [JSON.stringify] cannot serialise is published all the
    same: the signal holds it and the subscribers receive it; the storage
    entry of the channel is left as it was and the failure is reported on
    the console. *)
Theorem publish_unserialisable_still_delivers (s : Bus) (name : string) (value w e : Value)
    (a : ref) (ch : Channel) :
  channels s !! name = Some a →
  channelObjects s !! a = Some ch →
  published_value (config ch) value = Some w →
  storage ch ≠ memory →
  JSON_stringify s w = JsonThrows e →
  let s' := exec (publish name value) s in
  result (publish name value) s = Normal tt
  ∧ result (getValue name) s' = Normal w
  ∧ sessionStorage s' = sessionStorage s
  ∧ localStorage s' = localStorage s
  ∧ errors_at SStorage (mode_name (storage ch)) (produced (publish name value) s) =
      [(clock s, ConsoleError SStorage (mode_name (storage ch)) e)]
  ∧ calls_at SSubscriber name (produced (publish name value) s) =
      map (fun cb => (clock s, Invoke SSubscriber name (fn_id cb) [w])) (subscribers ch).
Proof.
  intros Hn Ha Hp Hmode Hjson s'.
  pose proof (publish_accepted _ _ _ _ _ _ Hn Ha Hp) as Heq.
  assert (Hs' : s' = publish_result name a ch w value s) by (unfold s', exec; by rewrite Heq).
  split; [unfold result; by rewrite Heq|].
  split.
  { rewrite Hs'. unfold result. by erewrite getValue_eq; [|exact Hn|apply lookup_insert_eq]. }
  split.
  { rewrite Hs'. unfold publish_result, persisted_text. bus_simpl. rewrite Hjson.
    by destruct (bool_decide _). }
  split.
  { rewrite Hs'. unfold publish_result, persisted_text. bus_simpl. rewrite Hjson.
    by destruct (bool_decide _). }
  rewrite (produced_publish_accepted _ _ _ _ _ _ Hn Ha Hp).
  split.
  - unfold publish_events. rewrite !stamp_app, !errors_at_app.
    rewrite !errors_at_call_events.
    rewrite errors_at_onInit_other, errors_at_onChange_other, errors_at_subscribers_other
      by done.
    unfold persist_events. rewrite Hjson.
    destruct (storage ch); [done| |]; cbn [app stamp map errors_at List.filter is_error snd];
      by rewrite !bool_decide_eq_true_2 by done.
  - rewrite calls_at_publish_events by done.
    rewrite calls_at_onInit_other, calls_at_onChange_other by done.
    apply calls_at_subscribers.
Qed.

(** An exception thrown by [validate], or by [transform] once validation
    has passed, is not caught by [publish]: it reaches the caller, and the
    page is as before but for the trace, in which no hook but those two
    and no subscriber appears. *)
Theorem publish_hook_exception_reaches_caller (s : Bus) (name : string) (value e : Value)
    (a : ref) (ch : Channel) :
  channels s !! name = Some a →
  channelObjects s !! a = Some ch →
  (∃ f, opt_field Config.validate (config ch) = Some f ∧ fn_call f [value] = Throws e)
  ∨ (validated (opt_field Config.validate (config ch)) value = true
     ∧ ∃ f, opt_field Config.transform (config ch) = Some f
            ∧ fn_call f [value] = Throws e) →
  result (publish name value) s = Abrupt e
  ∧ exec (publish name value) s = set_trace (trace (exec (publish name value) s)) s
  ∧ ∀ site, site ≠ SValidate → site ≠ STransform →
      calls_at site name (produced (publish name value) s) = [].
Proof.
  intros Hn Ha Hcase.
  assert (Hp : published_value (config ch) value = None).
  { unfold published_value, validated, transformed.
    destruct Hcase as [(f & Hf & Hthrow)|(Hv & f & Hf & Hthrow)].
    - by rewrite Hf, Hthrow.
    - unfold validated in Hv. rewrite Hv, Hf. by rewrite Hthrow. }
  pose proof (publish_refused s name value a ch Hn Ha Hp) as Hexec.
  split.
  { unfold result, publish.
    erewrite bind_eq by (unfold gets; reflexivity). cbv beta. rewrite Hn.
    erewrite bind_eq by (unfold channelAt; rewrite Ha; reflexivity). cbv beta.
    destruct Hcase as [(f & Hf & Hthrow)|(Hv & f & Hf & Hthrow)].
    - rewrite Hf. unfold bind at 1. unfold bind at 1. rewrite invoke_eq, Hthrow. done.
    - erewrite bind_eq by (apply validate_step, Hv). cbv beta. cbn [negb].
      rewrite Hf. unfold bind at 1. rewrite invoke_eq, Hthrow. done. }
  split.
  { rewrite Hexec. unfold log_events. by apply bus_ext. }
  intros site H1 H2.
  erewrite produced_eq; [|rewrite Hexec; unfold log_events; bus_simpl; reflexivity].
  by apply calls_at_refused.
Qed.

(** Without [debounce] and [throttle], a successful [publish] calls
    [onChange] once, during the call, with the value that reached the
    signal and the value the signal held before; no timer is created. *)
Theorem publish_calls_onChange_at_once (s : Bus) (name : string) (value w : Value)
    (a : ref) (ch : Channel) (f : jsfun) :
  channels s !! name = Some a →
  channelObjects s !! a = Some ch →
  published_value (config ch) value = Some w →
  opt_field Config.onChange (config ch) = Some f →
  truthy_num (opt_field Config.debounce (config ch)) = false →
  truthy_num (opt_field Config.throttle (config ch)) = false →
  calls_at SOnChange name (produced (publish name value) s) =
    [(clock s, Invoke SOnChange name (fn_id f) [w; signal ch])]
  ∧ timers (exec (publish name value) s) = timers s.
Proof.
  intros Hn Ha Hp Hf Hd Ht.
  rewrite (produced_publish_accepted _ _ _ _ _ _ Hn Ha Hp).
  split.
  - rewrite calls_at_onChange_publish by done.
    unfold onChange_events. rewrite Hf, Hd, Ht. apply calls_at_guarded.
  - unfold exec. rewrite (publish_accepted _ _ _ _ _ _ Hn Ha Hp).
    unfold publish_result, debounced. bus_simpl. rewrite Hd.
    by rewrite andb_false_r.
Qed.

(** ** Channels: [clear], [subscribe] and the handles *)

Lemma clear_absent name s : channels s !! name = None → clear name s = (Normal tt, s).
Proof.
  intros Hn. unfold clear. erewrite bind_eq by (unfold gets; reflexivity). cbv beta.
  by rewrite Hn.
Qed.

Lemma clear_dangling name a s :
  channels s !! name = Some a → channelObjects s !! a = None →
  clear name s = (Abrupt dangling, s).
Proof.
  intros Hn Ha. unfold clear. erewrite bind_eq by (unfold gets; reflexivity). cbv beta.
  rewrite Hn. unfold bind at 1, channelAt. by rewrite Ha.
Qed.

(** [clear] twice is [clear] once, on every page. *)
Theorem clear_idempotent (s : Bus) (name : string) :
  exec (clear name) (exec (clear name) s) = exec (clear name) s.
Proof.
  destruct (channels s !! name) as [a|] eqn:Hn.
  - destruct (channelObjects s !! a) as [ch|] eqn:Ha.
    + unfold exec at 2 3. rewrite (clear_eq name a ch s Hn Ha). cbn [snd].
      unfold exec. rewrite clear_absent; [done|].
      unfold clear_result. bus_simpl. apply lookup_delete_eq.
    + unfold exec at 2 3. rewrite (clear_dangling name a s Hn Ha). cbn [snd].
      unfold exec. by rewrite (clear_dangling name a s Hn Ha).
  - unfold exec at 2 3. rewrite (clear_absent name s Hn). cbn [snd].
    unfold exec. by rewrite (clear_absent name s Hn).
Qed.

Lemma publish_missing s name value :
  channels s !! name = None →
  publish name value s =
    (Normal tt, channel_result name (Some (Config.only_initialValue value)) s).
Proof.
  intros Hn. unfold publish. erewrite bind_eq by (unfold gets; reflexivity). cbv beta.
  rewrite Hn. by erewrite bind_eq by (apply channel_new, Hn).
Qed.

(** [clear] forgets the configuration and the subscribers of the channel:
    a later [publish] to the name makes a new default channel holding the
    published value, and calls no hook and no subscriber of the old one. *)
Theorem clear_forgets_hooks_and_subscribers (s : Bus) (name : string) (a : ref)
    (ch : Channel) (v : Value) :
  channels s !! name = Some a →
  channelObjects s !! a = Some ch →
  let s1 := exec (clear name) s in
  let s2 := exec (publish name v) s1 in
  result (getValue name) s1 = Normal VUndefined
  ∧ produced (publish name v) s1 = []
  ∧ result (getValue name) s2 = Normal v
  ∧ (∃ a' ch', channels s2 !! name = Some a'
       ∧ channelObjects s2 !! a' = Some ch' ∧ subscribers ch' = []
       ∧ config ch' = Some (Config.only_initialValue v)).
Proof.
  intros Hn Ha s1 s2.
  assert (Hs1 : s1 = clear_result name a ch s).
  { unfold s1, exec. by rewrite (clear_eq name a ch s Hn Ha). }
  assert (Hn1 : channels s1 !! name = None).
  { rewrite Hs1. unfold clear_result. bus_simpl. apply lookup_delete_eq. }
  pose proof (publish_missing s1 name v Hn1) as Hpub.
  assert (Hs2 : s2 = channel_result name (Some (Config.only_initialValue v)) s1).
  { unfold s2, exec. by rewrite Hpub. }
  split.
  { unfold result, getValue. erewrite bind_eq by (unfold gets; reflexivity). cbv beta.
    by rewrite Hn1. }
  split.
  { apply produced_eq. unfold exec. rewrite Hpub. unfold channel_result. bus_simpl.
    unfold creation_events. simpl. by rewrite app_nil_r. }
  assert (Hres : resolved_value s1 name (Some (Config.only_initialValue v)) = v) by done.
  split.
  { rewrite Hs2. unfold result.
    erewrite getValue_eq; [|unfold channel_result; bus_simpl; apply lookup_insert_eq
                            |unfold channel_result; bus_simpl; apply lookup_insert_eq].
    unfold created_channel. bus_simpl. by rewrite Hres. }
  exists (nextRef s1), (created_channel s1 name (Some (Config.only_initialValue v))).
  rewrite Hs2. unfold channel_result. bus_simpl.
  split; [apply lookup_insert_eq|].
  split; [apply lookup_insert_eq|]. done.
Qed.

Lemma subscribe_new s name cb :
  channels s !! name = None →
  subscribe name cb s =
    (Normal {| sub_channelName := name; sub_channel := nextRef s; sub_callback := cb |},
     set_channelObjects
       (<[nextRef s := set_subscribers [cb] (created_channel s name None)]>
          (channelObjects (channel_result name None s)))
       (channel_result name None s)).
Proof.
  intros Hn. unfold subscribe.
  erewrite bind_eq by (unfold gets; reflexivity). cbv beta. rewrite Hn.
  rewrite bool_decide_eq_true_2 by done. cbn [when].
  erewrite bind_eq.
  2:{ erewrite bind_eq by (apply channel_new, Hn). reflexivity. }
  cbv beta.
  erewrite bind_eq by (unfold gets; reflexivity). cbv beta.
  unfold channel_result at 1. bus_simpl. rewrite lookup_insert_eq.
  erewrite bind_eq.
  2:{ apply updateChannel_eq. unfold channel_result. bus_simpl. apply lookup_insert_eq. }
  done.
Qed.

(** [subscribe] on a name that has no channel creates the channel with the
    default configuration and no value; the callback is not called by the
    subscription, and it is the one subscriber the next [publish] calls. *)
Theorem subscribe_creates_channel_silently (s : Bus) (name : string) (cb : jsfun)
    (v : Value) :
  channels s !! name = None →
  let s1 := exec (subscribe name cb) s in
  result (subscribe name cb) s =
    Normal {| sub_channelName := name; sub_channel := nextRef s; sub_callback := cb |}
  ∧ produced (subscribe name cb) s = []
  ∧ result (getValue name) s1 = Normal VUndefined
  ∧ calls_at SSubscriber name (produced (publish name v) s1) =
      [(clock s, Invoke SSubscriber name (fn_id cb) [v])].
Proof.
  intros Hn s1. pose proof (subscribe_new s name cb Hn) as Heq.
  set (ch1 := set_subscribers [cb] (created_channel s name None)).
  assert (Hs1 : s1 = set_channelObjects
                       (<[nextRef s := ch1]> (channelObjects (channel_result name None s)))
                       (channel_result name None s)).
  { unfold s1, exec. by rewrite Heq. }
  assert (Hn1 : channels s1 !! name = Some (nextRef s)).
  { rewrite Hs1. unfold channel_result. bus_simpl. apply lookup_insert_eq. }
  assert (Ha1 : channelObjects s1 !! nextRef s = Some ch1).
  { rewrite Hs1. bus_simpl. apply lookup_insert_eq. }
  split; [unfold result; by rewrite Heq|].
  split.
  { apply produced_eq. unfold exec. rewrite Heq. unfold channel_result. bus_simpl.
    unfold creation_events. simpl. by rewrite app_nil_r. }
  split.
  { unfold result. by rewrite (getValue_eq s1 name _ ch1 Hn1 Ha1). }
  assert (Hp : published_value (config ch1) v = Some v) by done.
  rewrite (produced_publish_accepted _ _ _ _ _ _ Hn1 Ha1 Hp).
  rewrite calls_at_publish_events by done.
  rewrite calls_at_onInit_other, calls_at_onChange_other by done.
  rewrite calls_at_subscribers. cbn [app]. by rewrite Hs1.
Qed.

Lemma add_callback_idem cb l : add_callback cb (add_callback cb l) = add_callback cb l.
Proof.
  unfold add_callback. destruct (existsb (same_fn cb) l) eqn:He; [by rewrite He|].
  rewrite existsb_app. cbn [existsb]. unfold same_fn at 2.
  by rewrite bool_decide_eq_true_2, orb_true_r by done.
Qed.

Lemma subscribe_dangling s name a cb :
  channels s !! name = Some a → channelObjects s !! a = None →
  subscribe name cb s = (Abrupt dangling, s).
Proof.
  intros Hn Ha. unfold subscribe.
  erewrite bind_eq by (unfold gets; reflexivity). cbv beta. rewrite Hn.
  rewrite bool_decide_eq_false_2 by done. cbn [when].
  erewrite bind_eq by (unfold ret; reflexivity). cbv beta.
  erewrite bind_eq by (unfold gets; reflexivity). cbv beta. rewrite Hn.
  unfold bind, updateChannel, bind, channelAt. by rewrite Ha.
Qed.

(** Subscribing a callback that is subscribed already changes nothing:
    [subscribe] twice with the same callback leaves the page that
    [subscribe] once leaves. *)
Theorem subscribe_twice_is_once (s : Bus) (name : string) (cb : jsfun) :
  exec (subscribe name cb) (exec (subscribe name cb) s) = exec (subscribe name cb) s.
Proof.
  assert (Hagain : ∀ s1 a ch, channels s1 !! name = Some a →
            channelObjects s1 !! a = Some ch →
            existsb (same_fn cb) (subscribers ch) = true →
            exec (subscribe name cb) s1 = s1).
  { intros s1 a ch Hn1 Ha1 Hin. unfold exec.
    rewrite (subscribe_handle s1 name a ch cb Hn1 Ha1). cbn [snd].
    unfold add_callback. rewrite Hin.
    apply bus_ext; try done. bus_simpl.
    rewrite insert_id; [done|]. rewrite Ha1. f_equal. by apply channel_ext. }
  assert (Hself : ∀ l, existsb (same_fn cb) (add_callback cb l) = true).
  { intros l. unfold add_callback. destruct (existsb (same_fn cb) l) eqn:He; [done|].
    rewrite existsb_app. cbn [existsb]. unfold same_fn at 2.
    by rewrite bool_decide_eq_true_2, orb_true_r by done. }
  destruct (channels s !! name) as [a|] eqn:Hn.
  - destruct (channelObjects s !! a) as [ch|] eqn:Ha.
    + unfold exec at 2 3. rewrite (subscribe_handle s name a ch cb Hn Ha). cbn [snd].
      eapply Hagain; bus_simpl; [exact Hn|apply lookup_insert_eq|].
      cbn [subscribers set_subscribers]. apply Hself.
    + unfold exec at 2 3. rewrite (subscribe_dangling s name a cb Hn Ha). cbn [snd].
      unfold exec. by rewrite (subscribe_dangling s name a cb Hn Ha).
  - unfold exec at 2 3. rewrite (subscribe_new s name cb Hn). cbn [snd].
    eapply Hagain; bus_simpl.
    + unfold channel_result. bus_simpl. apply lookup_insert_eq.
    + apply lookup_insert_eq.
    + cbn [subscribers set_subscribers existsb]. unfold same_fn.
      by rewrite bool_decide_eq_true_2 by done.
Qed.

(** A subscription undone is as if it had not been made: when the callback
    was not subscribed before, and the channel is not one that
    [autoCleanup] clears for want of subscribers, the handle that
    [subscribe] returns takes the page back to what it was. *)
Theorem subscribe_then_unsubscribe (s : Bus) (name : string) (a : ref) (ch : Channel)
    (cb : jsfun) :
  channels s !! name = Some a →
  channelObjects s !! a = Some ch →
  existsb (same_fn cb) (subscribers ch) = false →
  autoCleanup ch = false ∨ subscribers ch ≠ [] →
  ∃ h, result (subscribe name cb) s = Normal h
       ∧ unsubscribe h (exec (subscribe name cb) s) = (Normal tt, s).
Proof.
  intros Hn Ha Hnew Hkeep.
  pose proof (subscribe_handle s name a ch cb Hn Ha) as Heq.
  eexists. split; [unfold result; by rewrite Heq|].
  unfold exec. rewrite Heq. cbn [snd].
  set (ch1 := set_subscribers (add_callback cb (subscribers ch)) ch).
  set (s1 := set_channelObjects (<[a := ch1]> (channelObjects s)) s).
  assert (Hdel : delete_callback cb (subscribers ch1) = subscribers ch).
  { unfold ch1, add_callback. rewrite Hnew. cbn [subscribers set_subscribers].
    unfold delete_callback. rewrite list.filter_app.
    rewrite filter_cons_False, filter_nil, app_nil_r by (intros H; by apply H).
    clear -Hnew. induction (subscribers ch) as [|g l IH]; [done|].
    cbn [existsb] in Hnew. apply orb_false_elim in Hnew as [Hg Hl].
    rewrite filter_cons_True; [by rewrite IH|].
    unfold same_fn in Hg. apply bool_decide_eq_false in Hg. congruence. }
  unfold unsubscribe. cbn [sub_channel sub_callback sub_channelName].
  erewrite bind_eq.
  2:{ apply updateChannel_eq. unfold s1. bus_simpl. apply lookup_insert_eq. }
  cbv beta. rewrite Hdel.
  assert (Hback : set_subscribers (subscribers ch) ch1 = ch) by (by apply channel_ext).
  rewrite Hback.
  assert (Hs : set_channelObjects (<[a := ch]> (channelObjects s1)) s1 = s).
  { apply bus_ext; try done. unfold s1. bus_simpl.
    by rewrite insert_insert_eq, insert_id. }
  rewrite Hs.
  erewrite bind_eq by (unfold channelAt; rewrite Ha; reflexivity). cbv beta.
  destruct Hkeep as [Hauto|Hsubs].
  - by rewrite Hauto.
  - destruct (subscribers ch); [done|]. cbn [length].
    rewrite bool_decide_eq_false_2 by done. by rewrite andb_false_r.
Qed.

(** An unsubscribe handle removes its callback from the channel object it
    was made for, but clears by name.  When that object has [autoCleanup]
    and is left without subscribers, the handle clears whatever channel is
    registered under the name at that moment, be it another one, created
    after the first was cleared, and with subscribers of its own. *)
Theorem unsubscribe_clears_by_name (s : Bus) (h : Unsubscribe) (old : Channel)
    (a : ref) (ch : Channel) :
  channelObjects s !! sub_channel h = Some old →
  autoCleanup old = true →
  delete_callback (sub_callback h) (subscribers old) = [] →
  channels s !! sub_channelName h = Some a →
  a ≠ sub_channel h →
  channelObjects s !! a = Some ch →
  let s' := exec (unsubscribe h) s in
  result (unsubscribe h) s = Normal tt
  ∧ channels s' !! sub_channelName h = None
  ∧ timers s' = cancel_opt (onChangeDebounceTimer ch) (cancel_opt (timeoutId ch) (timers s))
  ∧ calls_at SOnClear (sub_channelName h) (produced (unsubscribe h) s) =
      match opt_field Config.onClear (config ch) with
      | Some g => [(clock s, Invoke SOnClear (sub_channelName h) (fn_id g) [])]
      | None => []
      end.
Proof.
  intros Hb Hauto Hdel Hn Hne Ha s'.
  set (old1 := set_subscribers [] old).
  set (s1 := set_channelObjects (<[sub_channel h := old1]> (channelObjects s)) s).
  assert (Ha1 : channelObjects s1 !! a = Some ch).
  { unfold s1. bus_simpl. by rewrite lookup_insert_ne. }
  assert (Heq : unsubscribe h s = (Normal tt, clear_result (sub_channelName h) a ch s1)).
  { unfold unsubscribe.
    erewrite bind_eq by (apply updateChannel_eq, Hb). cbv beta. rewrite Hdel.
    fold old1. fold s1.
    erewrite bind_eq by (unfold channelAt, s1; bus_simpl; rewrite lookup_insert_eq;
                         reflexivity).
    cbv beta. unfold old1 at 1 2. cbn [autoCleanup subscribers set_subscribers length].
    rewrite Hauto. rewrite bool_decide_eq_true_2 by done. cbn [andb when].
    by apply clear_eq. }
  assert (Hs' : s' = clear_result (sub_channelName h) a ch s1)
    by (unfold s', exec; by rewrite Heq).
  split; [unfold result; by rewrite Heq|].
  split; [rewrite Hs'; apply lookup_delete_eq|].
  split; [by rewrite Hs'|].
  erewrite produced_eq; [|unfold exec; rewrite Heq; reflexivity].
  apply (calls_at_onClear (sub_channelName h) ch).
Qed.

(** ** Iterating over [channels] *)

Lemma entries_perm m : entries m ≡ₚ map_to_list m.
Proof. apply merge_sort_Permutation. Qed.

Lemma elem_of_entries m n a : (n, a) ∈ entries m ↔ m !! n = Some a.
Proof. rewrite entries_perm. apply elem_of_map_to_list. Qed.

Lemma NoDup_entries m : NoDup (entries m).*1.
Proof. rewrite entries_perm. apply NoDup_fst_map_to_list. Qed.

Lemma clear_entry_channels sel s e n :
  n ≠ e.1 → channels (clear_entry sel s e) !! n = channels s !! n.
Proof.
  intros Hne. unfold clear_entry. destruct (channelObjects s !! e.2) as [ch|]; [|done].
  destruct (sel ch); [|done]. unfold clear_result. bus_simpl. by rewrite lookup_delete_ne.
Qed.

Lemma clear_entry_objects sel s e b :
  is_Some (channelObjects s !! b) → is_Some (channelObjects (clear_entry sel s e) !! b).
Proof.
  intros Hb. unfold clear_entry. destruct (channelObjects s !! e.2) as [ch|] eqn:He; [|done].
  destruct (sel ch); [|done]. unfold clear_result. bus_simpl.
  destruct (decide (b = e.2)) as [->|Hne]; [by rewrite lookup_insert_eq|].
  by rewrite lookup_insert_ne.
Qed.

(** The loop of [forEachChannel], when each visit clears or skips. *)
Lemma forEach_entries (sel : Channel → bool) (f : ref → string → M unit) l s :
  (∀ n a ch s, channels s !! n = Some a → channelObjects s !! a = Some ch →
     f a n s = (Normal tt, if sel ch then clear_result n a ch s else s)) →
  NoDup l.*1 →
  (∀ n a, (n, a) ∈ l → channels s !! n = Some a ∧ is_Some (channelObjects s !! a)) →
  forEach l (fun e =>
    let* live := gets channels in
    when (bool_decide (live !! e.1 = Some e.2)) (f e.2 e.1)) s =
  (Normal tt, clear_entries sel l s).
Proof.
  intros Hf. revert s. induction l as [|[n a] l IH]; intros s Hnd Hreg; [done|].
  rewrite fmap_cons in Hnd. apply list.NoDup_cons in Hnd as [Hn Hnd].
  destruct (Hreg n a ltac:(left)) as [Hna [ch Ha]].
  cbn [forEach]. erewrite bind_eq.
  2:{ erewrite bind_eq by (unfold gets; reflexivity). cbv beta. cbn [fst snd].
      rewrite bool_decide_eq_true_2 by done. cbn [when]. by apply Hf. }
  cbv beta. unfold clear_entries. cbn [foldl].
  assert (Hstep : clear_entry sel s (n, a) = if sel ch then clear_result n a ch s else s).
  { unfold clear_entry. cbn [fst snd]. by rewrite Ha. }
  rewrite <- Hstep. apply IH; [done|].
  intros n' a' Hin. destruct (Hreg n' a' ltac:(by right)) as [Hn' Ha'].
  split.
  - rewrite clear_entry_channels; [done|]. cbn [fst]. intros ->.
    apply Hn. apply list_elem_of_fmap. by exists (n, a').
  - by apply clear_entry_objects.
Qed.

Lemma forEachChannel_eq (sel : Channel → bool) (f : ref → string → M unit) s :
  (∀ n a ch s, channels s !! n = Some a → channelObjects s !! a = Some ch →
     f a n s = (Normal tt, if sel ch then clear_result n a ch s else s)) →
  map_Forall (fun _ a => is_Some (channelObjects s !! a)) (channels s) →
  forEachChannel f s = (Normal tt, clear_entries sel (entries (channels s)) s).
Proof.
  intros Hf Hreg. unfold forEachChannel.
  erewrite bind_eq by (unfold gets; reflexivity). cbv beta.
  apply forEach_entries; [done|apply NoDup_entries|].
  intros n a Hin. apply elem_of_entries in Hin. split; [done|]. by apply (Hreg n a).
Qed.

Lemma clearAll_eq v s :
  map_Forall (fun _ a => is_Some (channelObjects s !! a)) (channels s) →
  clearAll v s = (Normal tt, clear_entries (cleared_by v) (entries (channels s)) s).
Proof.
  intros Hreg. unfold clearAll. destruct (truthy v) eqn:Hv.
  - apply forEachChannel_eq; [|done].
    intros n a ch s1 Hn Ha.
    erewrite bind_eq by (unfold channelAt; rewrite Ha; reflexivity). cbv beta.
    unfold cleared_by. rewrite Hv. cbn [negb orb].
    destruct (strict_eq _ v); cbn [when]; [by apply clear_eq|done].
  - apply forEachChannel_eq; [|done].
    intros n a ch s1 Hn Ha. unfold cleared_by. rewrite Hv. cbn [negb orb].
    by apply clear_eq.
Qed.

Lemma beforeunload_listener_eq s :
  map_Forall (fun _ a => is_Some (channelObjects s !! a)) (channels s) →
  beforeunload_listener s = (Normal tt, clear_entries in_memory (entries (channels s)) s).
Proof.
  intros Hreg. apply forEachChannel_eq; [|done].
  intros n a ch s1 Hn Ha.
  erewrite bind_eq by (unfold channelAt; rewrite Ha; reflexivity). cbv beta.
  unfold in_memory. destruct (bool_decide _); cbn [when]; [by apply clear_eq|done].
Qed.

Lemma entries_empty : entries ∅ = [].
Proof. unfold entries. by rewrite map_to_list_empty. Qed.

Lemma beforeunload_eq s :
  registry_wf s →
  beforeunload s = (Normal tt, clear_entries in_memory (entries (channels s)) s).
Proof.
  intros [R1 R2 R4]. unfold beforeunload.
  erewrite bind_eq by (unfold gets; reflexivity). cbv beta.
  destruct (initialized s) eqn:Hi; cbn [when]; [by apply beforeunload_listener_eq|].
  destruct (decide (channels s = ∅)) as [He|Hne].
  - by rewrite He, entries_empty.
  - apply R4 in Hne. congruence.
Qed.

(** What a series of visits leaves. *)
Section clear_entries.
Variable sel : Channel → bool.
Hypothesis sel_subscribers : ∀ l ch, sel (set_subscribers l ch) = sel ch.

Lemma clear_entry_core s e b :
  set_subscribers [] <$> channelObjects (clear_entry sel s e) !! b =
  set_subscribers [] <$> channelObjects s !! b.
Proof.
  unfold clear_entry. destruct (channelObjects s !! e.2) as [ch|] eqn:He; [|done].
  destruct (sel ch); [|done]. unfold clear_result. bus_simpl.
  destruct (decide (b = e.2)) as [->|Hne]; [|by rewrite lookup_insert_ne].
  by rewrite lookup_insert_eq, He.
Qed.

Lemma clear_entries_core l s b :
  set_subscribers [] <$> channelObjects (clear_entries sel l s) !! b =
  set_subscribers [] <$> channelObjects s !! b.
Proof.
  revert s. induction l as [|e l IH]; intros s; [done|].
  unfold clear_entries in *. cbn [foldl]. by rewrite IH, clear_entry_core.
Qed.

Lemma selected_core s s' b :
  set_subscribers [] <$> channelObjects s' !! b = set_subscribers [] <$> channelObjects s !! b →
  selected sel s' b = selected sel s b.
Proof.
  unfold selected. destruct (channelObjects s' !! b) as [c'|], (channelObjects s !! b) as [c|];
    try done. intros Heq. apply (inj Some) in Heq.
  by rewrite <- (sel_subscribers [] c'), Heq, sel_subscribers.
Qed.

Lemma clear_entry_skip s e : selected sel s e.2 = false → clear_entry sel s e = s.
Proof.
  unfold selected, clear_entry. destruct (channelObjects s !! e.2); [|done]. by intros ->.
Qed.

Lemma clear_entry_mono s e n :
  channels s !! n = None → channels (clear_entry sel s e) !! n = None.
Proof.
  intros Hn. unfold clear_entry. destruct (channelObjects s !! e.2); [|done].
  destruct (sel _); [|done]. unfold clear_result. bus_simpl.
  apply lookup_delete_None. by right.
Qed.

Lemma clear_entries_mono l s n :
  channels s !! n = None → channels (clear_entries sel l s) !! n = None.
Proof.
  revert s. induction l as [|e l IH]; intros s Hn; [done|].
  unfold clear_entries in *. cbn [foldl]. by apply IH, clear_entry_mono.
Qed.

(** A name none of whose visited entries is selected keeps its channel. *)
Lemma clear_entries_kept l s n :
  (∀ a, (n, a) ∈ l → selected sel s a = false) →
  channels (clear_entries sel l s) !! n = channels s !! n.
Proof.
  revert s. induction l as [|[n' a'] l IH]; intros s Hsel; [done|].
  unfold clear_entries in *. cbn [foldl].
  rewrite IH.
  - destruct (decide (n = n')) as [->|Hne]; [|by apply clear_entry_channels].
    rewrite clear_entry_skip; [done|]. apply Hsel. by left.
  - intros a Ha. rewrite (selected_core s); [|apply clear_entry_core].
    apply Hsel. by right.
Qed.

(** A visited entry that is selected loses its name. *)
Lemma clear_entries_removed l s n a :
  (n, a) ∈ l → selected sel s a = true →
  channels (clear_entries sel l s) !! n = None.
Proof.
  revert s. induction l as [|e l IH]; intros s Hin Hsel; [by apply elem_of_nil in Hin|].
  unfold clear_entries in *. cbn [foldl].
  apply elem_of_cons in Hin as [<-|Hin].
  - apply clear_entries_mono. unfold clear_entry, selected in *. cbn [fst snd].
    destruct (channelObjects s !! a); [|done]. rewrite Hsel.
    unfold clear_result. bus_simpl. apply lookup_delete_eq.
  - apply IH; [done|]. by rewrite (selected_core s); [|apply clear_entry_core].
Qed.

Lemma clear_entry_timers s e : timers (clear_entry sel s e) `sublist_of` timers s.
Proof.
  unfold clear_entry. destruct (channelObjects s !! e.2); [|done].
  destruct (sel _); [|done]. unfold clear_result. bus_simpl.
  etransitivity; apply cancel_opt_sublist.
Qed.

Lemma clear_entries_timers l s : timers (clear_entries sel l s) `sublist_of` timers s.
Proof.
  revert s. induction l as [|e l IH]; intros s; [done|].
  unfold clear_entries in *. cbn [foldl].
  etransitivity; [apply IH|apply clear_entry_timers].
Qed.

(** The timers of a visited, selected channel leave the table. *)
Lemma clear_entries_cancels l s n a ch id tm :
  (n, a) ∈ l → channelObjects s !! a = Some ch → sel ch = true →
  timeoutId ch = Some id ∨ onChangeDebounceTimer ch = Some id →
  tm ∈ timers (clear_entries sel l s) → timer_id tm ≠ id.
Proof.
  revert s ch. induction l as [|e l IH]; intros s ch Hin Ha Hsel Hid Htm;
    [by apply elem_of_nil in Hin|].
  unfold clear_entries in *. cbn [foldl] in Htm.
  apply elem_of_cons in Hin as [<-|Hin].
  - eapply elem_of_sublist in Htm; [|apply clear_entries_timers].
    unfold clear_entry in Htm. cbn [fst snd] in Htm. rewrite Ha, Hsel in Htm.
    unfold clear_result in Htm. bus_simpl.
    destruct Hid as [Hid|Hid]; rewrite Hid in Htm.
    + apply cancel_opt_subseteq in Htm. by apply cancel_not_in in Htm.
    + by apply cancel_not_in in Htm.
  - pose proof (clear_entry_core s e a) as Hcore. rewrite Ha in Hcore.
    destruct (channelObjects (clear_entry sel s e) !! a) as [ch1|] eqn:Ha1; [|done].
    apply (inj Some) in Hcore.
    assert (Ht : timeoutId ch1 = timeoutId ch)
      by (apply (f_equal timeoutId) in Hcore; exact Hcore).
    assert (Hd : onChangeDebounceTimer ch1 = onChangeDebounceTimer ch)
      by (apply (f_equal onChangeDebounceTimer) in Hcore; exact Hcore).
    apply (IH (clear_entry sel s e) ch1); try done.
    + by rewrite <- (sel_subscribers [] ch1), Hcore, sel_subscribers.
    + by rewrite Ht, Hd.
Qed.

Lemma clear_entry_store_mono mode s e key :
  storeOf mode s !! key = None → storeOf mode (clear_entry sel s e) !! key = None.
Proof.
  intros Hk. unfold clear_entry. destruct (channelObjects s !! e.2) as [ch|]; [|done].
  destruct (sel ch); [|done]. unfold clear_result, storeOf in *. bus_simpl.
  destruct mode; repeat (destruct (bool_decide _)); try done;
    apply lookup_delete_None; by right.
Qed.

Lemma clear_entries_store_mono mode l s key :
  storeOf mode s !! key = None → storeOf mode (clear_entries sel l s) !! key = None.
Proof.
  revert s. induction l as [|e l IH]; intros s Hk; [done|].
  unfold clear_entries in *. cbn [foldl]. by apply IH, clear_entry_store_mono.
Qed.

(** The storage entry of a visited, selected channel is removed. *)
Lemma clear_entries_unstores l s n a ch :
  (n, a) ∈ l → channelObjects s !! a = Some ch → sel ch = true →
  storage ch ≠ memory →
  storeOf (storage ch) (clear_entries sel l s) !! storageKey ch = None.
Proof.
  revert s ch. induction l as [|e l IH]; intros s ch Hin Ha Hsel Hmode;
    [by apply elem_of_nil in Hin|].
  unfold clear_entries in *. cbn [foldl].
  apply elem_of_cons in Hin as [<-|Hin].
  - apply clear_entries_store_mono.
    unfold clear_entry. cbn [fst snd]. rewrite Ha, Hsel.
    unfold clear_result, storeOf. bus_simpl.
    destruct (storage ch); [done| |]; simpl; apply lookup_delete_eq.
  - pose proof (clear_entry_core s e a) as Hcore. rewrite Ha in Hcore.
    destruct (channelObjects (clear_entry sel s e) !! a) as [ch1|] eqn:Ha1; [|done].
    apply (inj Some) in Hcore.
    assert (Hs : storage ch1 = storage ch)
      by (apply (f_equal storage) in Hcore; exact Hcore).
    assert (Hk : storageKey ch1 = storageKey ch)
      by (apply (f_equal storageKey) in Hcore; exact Hcore).
    rewrite <- Hs, <- Hk. apply IH; try done.
    + by rewrite <- (sel_subscribers [] ch1), Hcore, sel_subscribers.
    + by rewrite Hs.
Qed.

(** A storage that no selected channel uses is left as it is. *)
Lemma clear_entries_session l s :
  (∀ ch, sel ch = true → storage ch ≠ session) →
  sessionStorage (clear_entries sel l s) = sessionStorage s.
Proof.
  intros Hno. revert s. induction l as [|e l IH]; intros s; [done|].
  unfold clear_entries in *. cbn [foldl]. rewrite IH.
  unfold clear_entry. destruct (channelObjects s !! e.2) as [ch|]; [|done].
  destruct (sel ch) eqn:Hs; [|done]. unfold clear_result. bus_simpl.
  by rewrite bool_decide_eq_false_2 by (by apply Hno).
Qed.

Lemma clear_entries_local l s :
  (∀ ch, sel ch = true → storage ch ≠ local) →
  localStorage (clear_entries sel l s) = localStorage s.
Proof.
  intros Hno. revert s. induction l as [|e l IH]; intros s; [done|].
  unfold clear_entries in *. cbn [foldl]. rewrite IH.
  unfold clear_entry. destruct (channelObjects s !! e.2) as [ch|]; [|done].
  destruct (sel ch) eqn:Hs; [|done]. unfold clear_result. bus_simpl.
  by rewrite bool_decide_eq_false_2 by (by apply Hno).
Qed.

Lemma clear_entries_clock l s : clock (clear_entries sel l s) = clock s.
Proof.
  revert s. induction l as [|e l IH]; intros s; [done|].
  unfold clear_entries in *. cbn [foldl]. rewrite IH.
  unfold clear_entry. destruct (channelObjects s !! e.2) as [ch|]; [|done].
  by destruct (sel ch).
Qed.

(** The calls of [onClear] for [n] that the visits make. *)
Lemma clear_entries_onClear l s n :
  NoDup l.*1 →
  ∃ tr, trace (clear_entries sel l s) = trace s ++ tr
    ∧ ((∀ a, (n, a) ∈ l → selected sel s a = false) → calls_at SOnClear n tr = [])
    ∧ (∀ a ch, (n, a) ∈ l → channelObjects s !! a = Some ch → sel ch = true →
         calls_at SOnClear n tr =
           match opt_field Config.onClear (config ch) with
           | Some g => [(clock s, Invoke SOnClear n (fn_id g) [])]
           | None => []
           end).
Proof.
  revert s. induction l as [|[n' a'] l IH]; intros s Hnd.
  { exists []. split; [by rewrite app_nil_r|]. split; [done|].
    intros a ch Hin. by apply elem_of_nil in Hin. }
  rewrite fmap_cons in Hnd. apply list.NoDup_cons in Hnd as [Hn' Hnd].
  unfold clear_entries in *. cbn [foldl].
  set (s1 := clear_entry sel s (n', a')).
  destruct (IH s1 Hnd) as (tr & Htr & Hnone & Hone).
  assert (Hclock : clock s1 = clock s).
  { unfold s1, clear_entry. destruct (channelObjects s !! _); [|done]. by destruct (sel _). }
  assert (Hsel1 : ∀ b, selected sel s1 b = selected sel s b).
  { intros b. apply selected_core, clear_entry_core. }
  assert (Hhead : ∃ tr1, trace s1 = trace s ++ tr1
            ∧ (n ≠ n' ∨ selected sel s a' = false → calls_at SOnClear n tr1 = [])
            ∧ (∀ ch, n = n' → channelObjects s !! a' = Some ch → sel ch = true →
                 calls_at SOnClear n tr1 =
                   match opt_field Config.onClear (config ch) with
                   | Some g => [(clock s, Invoke SOnClear n (fn_id g) [])]
                   | None => []
                   end)).
  { unfold s1, clear_entry, selected. cbn [fst snd].
    destruct (channelObjects s !! a') as [ch'|] eqn:Ha'.
    2:{ exists []. split; [by rewrite app_nil_r|]. split; [done|]. by intros ch _ [=]. }
    destruct (sel ch') eqn:Hs'.
    2:{ exists []. split; [by rewrite app_nil_r|]. split; [done|].
        intros ch _ [= <-]. congruence. }
    eexists. split; [unfold clear_result; bus_simpl; reflexivity|]. split.
    - intros [Hne|Hf]; [|done]. unfold onClear_events.
      destruct (opt_field Config.onClear (config ch')); [|done].
      unfold calls_at, guarded_events. cbn [stamp map List.filter is_call snd].
      rewrite (bool_decide_eq_false_2 (n' = n)) by done. rewrite andb_false_r.
      by destruct (fn_call _ _).
    - intros ch -> [= <-] _. apply calls_at_onClear. }
  destruct Hhead as (tr1 & Htr1 & Hnone1 & Hone1).
  exists (tr1 ++ tr). split; [by rewrite Htr, Htr1, app_assoc|].
  split.
  - intros Hno. rewrite calls_at_app, Hnone1, Hnone; [done| |].
    + intros a Ha. rewrite Hsel1. apply Hno. by right.
    + destruct (decide (n = n')) as [->|Hne]; [right|by left]. apply Hno. by left.
  - intros a ch Hin Ha Hs. rewrite calls_at_app.
    apply elem_of_cons in Hin as [[= -> ->]|Hin].
    + rewrite (Hone1 ch eq_refl Ha Hs), Hnone; [by rewrite app_nil_r|].
      intros b Hb. destruct Hn'. apply list_elem_of_fmap. by exists (n', b).
    + assert (Hne : n ≠ n').
      { intros ->. destruct Hn'. apply list_elem_of_fmap. by exists (n', a). }
      rewrite Hnone1 by (by left). cbn [app].
      pose proof (clear_entry_core s (n', a') a) as Hcore. rewrite Ha in Hcore.
      fold s1 in Hcore.
      destruct (channelObjects s1 !! a) as [ch1|] eqn:Ha1; [|done].
      apply (inj Some) in Hcore.
      assert (Hc : config ch1 = config ch)
        by (apply (f_equal config) in Hcore; exact Hcore).
      rewrite (Hone a ch1 Hin Ha1), Hc, Hclock; [done|].
      by rewrite <- (sel_subscribers [] ch1), Hcore, sel_subscribers.
Qed.
End clear_entries.

Lemma clear_entries_ext sel1 sel2 l s :
  (∀ ch, sel1 ch = sel2 ch) → clear_entries sel1 l s = clear_entries sel2 l s.
Proof.
  intros Heq. revert s. induction l as [|e l IH]; intros s; [done|].
  unfold clear_entries in *. cbn [foldl]. rewrite IH. f_equal.
  unfold clear_entry. destruct (channelObjects s !! e.2) as [ch|]; [|done].
  by rewrite Heq.
Qed.

Lemma clear_entries_none sel l s :
  (∀ ch, sel ch = false) → clear_entries sel l s = s.
Proof.
  intros Hno. revert s. induction l as [|e l IH]; intros s; [done|].
  unfold clear_entries in *. cbn [foldl]. rewrite IH.
  unfold clear_entry. destruct (channelObjects s !! e.2) as [ch|]; [|done].
  by rewrite Hno.
Qed.

Lemma cleared_by_subscribers v l ch :
  cleared_by v (set_subscribers l ch) = cleared_by v ch.
Proof. done. Qed.

Lemma storage_value_inj m1 m2 : storage_value m1 = storage_value m2 → m1 = m2.
Proof. by destruct m1, m2. Qed.

Lemma cleared_by_mode mode ch :
  cleared_by (storage_value mode) ch = bool_decide (storage ch = mode).
Proof.
  unfold cleared_by, strict_eq.
  assert (Ht : truthy (storage_value mode) = true) by (by destruct mode).
  rewrite Ht. cbn [negb orb]. apply bool_decide_ext. split.
  - apply storage_value_inj.
  - by intros ->.
Qed.

(** ** [clearAll] and the [beforeunload] listener *)

(** [clearAll()], and [clearAll] with any falsy argument, clears every
    channel: the registry is empty afterwards; for each channel that was
    registered, its TTL and debounce timers are out of the timer table,
    its storage entry is removed when its mode is not [memory], and its
    [onClear] hook, if any, has been called once.  [clearAll] returns
    normally whatever the hooks do. *)
Theorem clearAll_clears_every_channel (s : Bus) (v : Value) :
  registry_wf s →
  truthy v = false →
  let s' := exec (clearAll v) s in
  result (clearAll v) s = Normal tt
  ∧ channels s' = ∅
  ∧ ∀ n a ch, channels s !! n = Some a → channelObjects s !! a = Some ch →
      (∀ id tm, timeoutId ch = Some id ∨ onChangeDebounceTimer ch = Some id →
         tm ∈ timers s' → timer_id tm ≠ id)
      ∧ (storage ch ≠ memory → storeOf (storage ch) s' !! storageKey ch = None)
      ∧ calls_at SOnClear n (produced (clearAll v) s) =
          match opt_field Config.onClear (config ch) with
          | Some g => [(clock s, Invoke SOnClear n (fn_id g) [])]
          | None => []
          end.
Proof.
  intros [R1 R2 R4] Hv s'.
  pose proof (clearAll_eq v s R1) as Heq.
  assert (Hs' : s' = clear_entries (cleared_by v) (entries (channels s)) s)
    by (unfold s', exec; by rewrite Heq).
  assert (Hall : ∀ ch, cleared_by v ch = true).
  { intros ch. unfold cleared_by. by rewrite Hv. }
  split; [unfold result; by rewrite Heq|].
  split.
  { apply map_eq. intros n. rewrite lookup_empty, Hs'.
    destruct (channels s !! n) as [a|] eqn:Hn.
    - apply (clear_entries_removed _ (cleared_by_subscribers v) _ _ n a).
      + by apply elem_of_entries.
      + unfold selected. destruct (R1 n a Hn) as [ch ->]. apply Hall.
    - by apply clear_entries_mono. }
  intros n a ch Hn Ha.
  assert (Hin : (n, a) ∈ entries (channels s)) by (by apply elem_of_entries).
  split.
  { intros id tm Hid Htm. rewrite Hs' in Htm.
    by eapply (clear_entries_cancels _ (cleared_by_subscribers v)). }
  split.
  { intros Hmode. rewrite Hs'.
    by eapply (clear_entries_unstores _ (cleared_by_subscribers v)). }
  destruct (clear_entries_onClear _ (cleared_by_subscribers v) (entries (channels s)) s n
              (NoDup_entries _)) as (tr & Htr & _ & Hone).
  erewrite produced_eq; [|unfold exec; rewrite Heq; exact Htr].
  by apply (Hone a ch).
Qed.

Lemma clearAll_selects (s : Bus) (mode : StorageMode) (v : Value) :
  v = storage_value mode →
  registry_wf s →
  result (clearAll v) s = Normal tt
  ∧ (∀ n a ch, channels s !! n = Some a → channelObjects s !! a = Some ch →
       if bool_decide (storage ch = mode)
       then channels (exec (clearAll v) s) !! n = None
            ∧ (mode ≠ memory → storeOf mode (exec (clearAll v) s) !! storageKey ch = None)
       else channels (exec (clearAll v) s) !! n = Some a
            ∧ result (getValue n) (exec (clearAll v) s) = Normal (signal ch)
            ∧ calls_at SOnClear n (produced (clearAll v) s) = [])
  ∧ (mode ≠ session → sessionStorage (exec (clearAll v) s) = sessionStorage s)
  ∧ (mode ≠ local → localStorage (exec (clearAll v) s) = localStorage s).
Proof.
  intros Hv [R1 R2 R4].
  pose proof (clearAll_eq v s R1) as Heq.
  assert (Hs' : exec (clearAll v) s = clear_entries (cleared_by v) (entries (channels s)) s)
    by (unfold exec; by rewrite Heq).
  assert (Hmode : ∀ ch, cleared_by v ch = bool_decide (storage ch = mode)).
  { intros ch. rewrite Hv. apply cleared_by_mode. }
  split; [unfold result; by rewrite Heq|].
  split.
  { intros n a ch Hn Ha.
    assert (Hin : (n, a) ∈ entries (channels s)) by (by apply elem_of_entries).
    assert (Hsel : selected (cleared_by v) s a = bool_decide (storage ch = mode)).
    { unfold selected. rewrite Ha. apply Hmode. }
    destruct (bool_decide (storage ch = mode)) eqn:Hm.
    - apply bool_decide_eq_true in Hm. split.
      + rewrite Hs'. by eapply (clear_entries_removed _ (cleared_by_subscribers v)).
      + intros Hmem. rewrite Hs', <- Hm.
        eapply (clear_entries_unstores _ (cleared_by_subscribers v)); try done.
        * unfold selected in Hsel. by rewrite Ha in Hsel.
        * by rewrite Hm.
    - assert (Hkept : ∀ a', (n, a') ∈ entries (channels s) →
                selected (cleared_by v) s a' = false).
      { intros a' Hin'. apply elem_of_entries in Hin'. by simplify_eq. }
      assert (Hn' : channels (exec (clearAll v) s) !! n = Some a).
      { rewrite Hs', (clear_entries_kept _ (cleared_by_subscribers v)); done. }
      split; [done|]. split.
      + pose proof (clear_entries_core (cleared_by v) (entries (channels s)) s a) as Hcore.
        rewrite <- Hs', Ha in Hcore.
        destruct (channelObjects (exec (clearAll v) s) !! a) as [ch'|] eqn:Ha'; [|done].
        apply (inj Some) in Hcore.
        unfold result. rewrite (getValue_eq _ n a ch' Hn' Ha').
        cbn [fst]. f_equal. apply (f_equal signal) in Hcore. exact Hcore.
      + destruct (clear_entries_onClear _ (cleared_by_subscribers v)
                    (entries (channels s)) s n (NoDup_entries _)) as (tr & Htr & Hnone & _).
        erewrite produced_eq; [|unfold exec; rewrite Heq; exact Htr].
        by apply Hnone. }
  split.
  - intros Hm. rewrite Hs'. apply clear_entries_session.
    intros ch. rewrite Hmode. intros Hc%bool_decide_eq_true. congruence.
  - intros Hm. rewrite Hs'. apply clear_entries_local.
    intros ch. rewrite Hmode. intros Hc%bool_decide_eq_true. congruence.
Qed.

(** [clearAll(mode)], for [mode] one of ['memory'], ['session'], ['local'],
    clears the channels of that storage mode and no other: a channel of
    another mode stays registered, keeps its value, and its [onClear] is
    not called; the storage areas that the mode does not use are left as
    they are. *)
Theorem clearAll_by_storage (s : Bus) (mode : StorageMode) :
  registry_wf s →
  let s' := exec (clearAll (storage_value mode)) s in
  result (clearAll (storage_value mode)) s = Normal tt
  ∧ (∀ n a ch, channels s !! n = Some a → channelObjects s !! a = Some ch →
       if bool_decide (storage ch = mode)
       then channels s' !! n = None
            ∧ (mode ≠ memory → storeOf mode s' !! storageKey ch = None)
       else channels s' !! n = Some a
            ∧ result (getValue n) s' = Normal (signal ch)
            ∧ calls_at SOnClear n (produced (clearAll (storage_value mode)) s) = [])
  ∧ (mode ≠ session → sessionStorage s' = sessionStorage s)
  ∧ (mode ≠ local → localStorage s' = localStorage s).
Proof. intros Hwf. by apply clearAll_selects. Qed.

(** [clearAll] with a truthy argument that is not the name of a storage
    mode, such as [true], clears nothing and changes nothing. *)
Theorem clearAll_other_argument_clears_nothing (s : Bus) (v : Value) :
  registry_wf s →
  truthy v = true →
  (∀ mode, v ≠ storage_value mode) →
  clearAll v s = (Normal tt, s).
Proof.
  intros [R1 R2 R4] Hv Hno. rewrite (clearAll_eq v s R1). f_equal.
  apply clear_entries_none. intros ch. unfold cleared_by, strict_eq. rewrite Hv.
  cbn [negb orb]. apply bool_decide_eq_false_2. intros Heq. by apply (Hno (storage ch)).
Qed.

(** When the page goes away, the listener that [init] registered does what
    [clearAll('memory')] does: the channels kept in memory are cleared, and
    those persisted in [sessionStorage] or [localStorage] are left with
    their storage entries. *)
Theorem beforeunload_is_clearAll_memory (s : Bus) :
  registry_wf s →
  beforeunload s = clearAll (VString "memory") s.
Proof.
  intros Hwf. rewrite (beforeunload_eq s Hwf).
  destruct Hwf as [R1 R2 R4]. rewrite (clearAll_eq _ s R1). f_equal.
  apply clear_entries_ext. intros ch.
  change (VString "memory") with (storage_value memory). by rewrite cleared_by_mode.
Qed.

(** ** Consistent registries *)

Section preserves.
Context (P : Bus → Prop).

Lemma preserves_ret {A} (a : A) : preserves P (ret a).
Proof. by intros s. Qed.

Lemma preserves_throw {A} e : preserves P (@throw A e).
Proof. by intros s. Qed.

Lemma preserves_gets {A} (f : Bus → A) : preserves P (gets f).
Proof. by intros s. Qed.

Lemma preserves_bind {A B} (m : M A) (k : A → M B) :
  preserves P m → (∀ a, preserves P (k a)) → preserves P (bind m k).
Proof.
  intros Hm Hk s Hs. specialize (Hm s Hs). unfold exec, bind in *.
  destruct (m s) as [[a|e] s1]; simpl in *; [by apply Hk|done].
Qed.

Lemma preserves_try_catch {A} (m : M A) (h : Value → M A) :
  preserves P m → (∀ e, preserves P (h e)) → preserves P (try_catch m h).
Proof.
  intros Hm Hh s Hs. specialize (Hm s Hs). unfold exec, try_catch in *.
  destruct (m s) as [[a|e] s1]; simpl in *; [done|by apply Hh].
Qed.

Lemma preserves_when b m : preserves P m → preserves P (when b m).
Proof. destruct b; [done|intros _; apply preserves_ret]. Qed.

Lemma preserves_whenSome {A} (o : option A) f :
  (∀ a, preserves P (f a)) → preserves P (whenSome o f).
Proof. destruct o; simpl; [done|intros _; apply preserves_ret]. Qed.

Lemma preserves_forEach {A} (l : list A) f :
  (∀ a, preserves P (f a)) → preserves P (forEach l f).
Proof.
  intros Hf. induction l as [|x l IH]; simpl; [apply preserves_ret|].
  apply preserves_bind; [apply Hf|by intros _].
Qed.

Lemma preserves_modify (f : Bus → Bus) : (∀ s, P s → P (f s)) → preserves P (modify f).
Proof. intros Hf s Hs. by apply Hf. Qed.
End preserves.

Ltac preserves_step :=
  lazymatch goal with
  | |- preserves _ (ret _) => apply preserves_ret
  | |- preserves _ (throw _) => apply preserves_throw
  | |- preserves _ (gets _) => apply preserves_gets
  | |- preserves _ (bind _ _) => apply preserves_bind; [|intros ?]
  | |- preserves _ (try_catch _ _) => apply preserves_try_catch; [|intros ?]
  | |- preserves _ (when _ _) => apply preserves_when
  | |- preserves _ (whenSome _ _) => apply preserves_whenSome; intros ?
  | |- preserves _ (forEach _ _) => apply preserves_forEach; intros ?
  | |- preserves _ (if ?b then _ else _) => destruct b
  | |- preserves _ (match ?x with _ => _ end) => destruct x
  end.

Create HintDb registry.

Ltac registry_auto := repeat preserves_step; auto with registry nocore.

Lemma registry_wf_fresh stringify parse now : registry_wf (fresh_page stringify parse now).
Proof. split; simpl; try apply map_Forall_empty. done. Qed.

Lemma registry_wf_mono s s' :
  channels s' = channels s →
  eventListeners s' = eventListeners s →
  (∀ a, is_Some (channelObjects s !! a) → is_Some (channelObjects s' !! a)) →
  (∀ a, is_Some (setObjects s !! a) → is_Some (setObjects s' !! a)) →
  (initialized s = true → initialized s' = true) →
  registry_wf s → registry_wf s'.
Proof.
  intros E1 E2 Ho Hs Hi [R1 R2 R4]. split; rewrite ?E1, ?E2.
  - eapply map_Forall_impl; [exact R1|]. intros ? a. apply Ho.
  - eapply map_Forall_impl; [exact R2|]. intros ? a. apply Hs.
  - intros Hne. by apply Hi, R4.
Qed.

Lemma is_Some_insert {A} (m : gmap ref A) k x a :
  is_Some (m !! a) → is_Some (<[k := x]> m !! a).
Proof.
  intros H. destruct (decide (a = k)) as [->|Hne]; [by rewrite lookup_insert_eq|].
  by rewrite lookup_insert_ne.
Qed.

(** A step that leaves the two registries alone and removes no object. *)
Ltac registry_frame :=
  apply preserves_modify; intros s Hs; apply (registry_wf_mono s);
  simpl; try done; intros ?; apply is_Some_insert.

Lemma registry_log e : preserves registry_wf (log e).
Proof. registry_frame. Qed.

#[local] Hint Resolve registry_log : registry.

Lemma registry_invoke site name f args : preserves registry_wf (invoke site name f args).
Proof. unfold invoke. registry_auto. Qed.

Lemma registry_console_error site name e : preserves registry_wf (console_error site name e).
Proof. apply registry_log. Qed.

Lemma registry_console_warn name v : preserves registry_wf (console_warn name v).
Proof. apply registry_log. Qed.

Lemma registry_console_log msg : preserves registry_wf (console_log msg).
Proof. apply registry_log. Qed.

Lemma registry_setTimeout cb delay : preserves registry_wf (setTimeout cb delay).
Proof. intros s Hs. unfold exec, setTimeout. simpl. by apply (registry_wf_mono s). Qed.

Lemma registry_clearTimeout id : preserves registry_wf (clearTimeout id).
Proof. registry_frame. Qed.

Lemma registry_channelAt a : preserves registry_wf (channelAt a).
Proof. intros s Hs. unfold exec, channelAt. by destruct (channelObjects s !! a). Qed.

Lemma registry_setAt a : preserves registry_wf (setAt a).
Proof. intros s Hs. unfold exec, setAt. by destruct (setObjects s !! a). Qed.

Lemma registry_registrationAt r : preserves registry_wf (registrationAt r).
Proof. intros s Hs. unfold exec, registrationAt. by destruct (registrations s !! r). Qed.

#[local] Hint Resolve registry_invoke registry_console_error registry_console_warn
  registry_console_log registry_setTimeout registry_clearTimeout registry_channelAt
  registry_setAt registry_registrationAt : registry.

Lemma registry_updateChannel a f : preserves registry_wf (updateChannel a f).
Proof. unfold updateChannel. registry_auto. registry_frame. Qed.

Lemma registry_updateSet a f : preserves registry_wf (updateSet a f).
Proof. unfold updateSet. registry_auto. registry_frame. Qed.

Lemma registry_updateRegistration r f : preserves registry_wf (updateRegistration r f).
Proof. unfold updateRegistration. registry_auto. registry_frame. Qed.

Lemma registry_fresh : preserves registry_wf fresh.
Proof. intros s Hs. unfold exec, fresh. simpl. by apply (registry_wf_mono s). Qed.

Lemma registry_getItem mode key : preserves registry_wf (getItem mode key).
Proof. unfold getItem. registry_auto. Qed.

Lemma registry_setItem mode key text : preserves registry_wf (setItem mode key text).
Proof. unfold setItem. destruct mode; registry_frame. Qed.

Lemma registry_removeItem mode key : preserves registry_wf (removeItem mode key).
Proof. unfold removeItem. destruct mode; registry_frame. Qed.

#[local] Hint Resolve registry_updateChannel registry_updateSet registry_updateRegistration
  registry_fresh registry_getItem registry_setItem registry_removeItem : registry.

Lemma registry_saveToStorage key v mode : preserves registry_wf (saveToStorage key v mode).
Proof. unfold saveToStorage. registry_auto. Qed.

Lemma registry_removeFromStorage key mode : preserves registry_wf (removeFromStorage key mode).
Proof. unfold removeFromStorage. registry_auto. Qed.

Lemma registry_executeCallback name f w o : preserves registry_wf (executeCallback name f w o).
Proof. unfold executeCallback. registry_auto. Qed.

#[local] Hint Resolve registry_saveToStorage registry_removeFromStorage
  registry_executeCallback : registry.

Lemma registry_wf_delete_channel name s :
  registry_wf s → registry_wf (set_channels (delete name (channels s)) s).
Proof.
  intros [R1 R2 R4]. split; simpl; [by apply map_Forall_delete|done|].
  intros Hne. apply R4. intros He. apply Hne. by rewrite He, delete_empty.
Qed.

Lemma registry_clear name : preserves registry_wf (clear name).
Proof.
  unfold clear. registry_auto.
  apply preserves_modify. intros s. apply registry_wf_delete_channel.
Qed.

Lemma registry_wf_channel_result name cfg s :
  registry_wf s → registry_wf (channel_result name cfg s).
Proof.
  intros [R1 R2 R4]. split; unfold channel_result; simpl; [|done|done].
  apply map_Forall_insert_2; [by rewrite lookup_insert_eq|].
  eapply map_Forall_impl; [exact R1|]. intros ? a. apply is_Some_insert.
Qed.

Lemma registry_channel name cfg : preserves registry_wf (channel name cfg).
Proof.
  intros s Hs. destruct (channels s !! name) as [a|] eqn:Hn.
  - unfold exec. rewrite (channel_existing s name a cfg Hn). cbn [snd].
    by apply (registry_wf_mono s).
  - unfold exec. rewrite (channel_new s name cfg Hn). by apply registry_wf_channel_result.
Qed.

#[local] Hint Resolve registry_clear registry_channel : registry.

Lemma registry_executeOnChange name a w o : preserves registry_wf (executeOnChange name a w o).
Proof. unfold executeOnChange, Date_now. registry_auto. Qed.

#[local] Hint Resolve registry_executeOnChange : registry.

Lemma registry_publish name v : preserves registry_wf (publish name v).
Proof. unfold publish. registry_auto. Qed.

Lemma registry_subscribe name cb : preserves registry_wf (subscribe name cb).
Proof. unfold subscribe. registry_auto. Qed.

Lemma registry_unsubscribe h : preserves registry_wf (unsubscribe h).
Proof. unfold unsubscribe. registry_auto. Qed.

Lemma registry_getValue name : preserves registry_wf (getValue name).
Proof. unfold getValue. registry_auto. Qed.

Lemma registry_getChannelInfo name : preserves registry_wf (getChannelInfo name).
Proof. unfold getChannelInfo, Date_now. registry_auto. Qed.

Lemma registry_forEachChannel f :
  (∀ a n, preserves registry_wf (f a n)) → preserves registry_wf (forEachChannel f).
Proof. intros Hf. unfold forEachChannel. registry_auto. Qed.

Lemma registry_clearAll v : preserves registry_wf (clearAll v).
Proof.
  unfold clearAll. destruct (truthy v); apply registry_forEachChannel; intros ? ?;
    registry_auto.
Qed.

Lemma registry_beforeunload : preserves registry_wf beforeunload.
Proof.
  unfold beforeunload, beforeunload_listener. registry_auto.
  apply registry_forEachChannel. intros ? ?. registry_auto.
Qed.

Lemma registry_wf_delete_listeners name s :
  registry_wf s → registry_wf (set_eventListeners (delete name (eventListeners s)) s).
Proof. intros [R1 R2 R4]. split; simpl; [done|by apply map_Forall_delete|done]. Qed.

Lemma registry_unlisten r : preserves registry_wf (unlisten r).
Proof.
  unfold unlisten. registry_auto.
  apply preserves_modify. intros s. apply registry_wf_delete_listeners.
Qed.

#[local] Hint Resolve registry_unlisten : registry.

Lemma registry_executeListener r d : preserves registry_wf (executeListener r d).
Proof. unfold executeListener. registry_auto. Qed.

#[local] Hint Resolve registry_executeListener : registry.

Lemma registry_wrappedListener r d : preserves registry_wf (wrappedListener r d).
Proof. unfold wrappedListener, Date_now. registry_auto. Qed.

#[local] Hint Resolve registry_wrappedListener : registry.

Lemma registry_emit name d : preserves registry_wf (emit name d).
Proof. unfold emit. registry_auto. Qed.

Lemma registry_new_set name :
  preserves registry_wf
    (let* sa := fresh in
     modify (fun s => set_setObjects (<[sa := []]> (setObjects s)) s) ;;;
     modify (fun s => set_eventListeners (<[name := sa]> (eventListeners s)) s)).
Proof.
  intros s [R1 R2 R4]. unfold exec, bind, fresh, modify. simpl.
  split; simpl; [done| |done].
  apply map_Forall_insert_2; [by rewrite lookup_insert_eq|].
  eapply map_Forall_impl; [exact R2|]. intros ? a. apply is_Some_insert.
Qed.

Lemma registry_on name l opts : preserves registry_wf (on name l opts).
Proof.
  unfold on. apply preserves_bind; [apply preserves_gets|intros table].
  apply preserves_bind; [apply preserves_when, registry_new_set|intros _].
  registry_auto. registry_frame.
Qed.

Lemma registry_off name : preserves registry_wf (off name).
Proof. apply preserves_modify. intros s. apply registry_wf_delete_listeners. Qed.

Lemma registry_fireTimerGuarded id : preserves registry_wf (fireTimerGuarded id).
Proof.
  unfold fireTimerGuarded, fireTimer, runClosure. registry_auto; registry_frame.
Qed.

#[local] Hint Resolve registry_fireTimerGuarded : registry.

Lemma registry_runTimers t : preserves registry_wf (runTimers t).
Proof. unfold runTimers. registry_auto. registry_frame. Qed.

Lemma registry_wf_step c s : registry_wf s → registry_wf (step c s).
Proof.
  destruct c; simpl.
  - apply registry_channel.
  - apply registry_publish.
  - apply registry_subscribe.
  - apply registry_unsubscribe.
  - apply registry_getValue.
  - apply registry_clear.
  - apply registry_clearAll.
  - apply registry_getChannelInfo.
  - apply registry_emit.
  - apply registry_on.
  - apply registry_on.
  - apply registry_off.
  - apply registry_unlisten.
  - apply registry_runTimers.
  - by apply registry_wf_mono.
  - apply registry_beforeunload.
Qed.

Lemma registry_wf_run steps s : registry_wf s → registry_wf (run steps s).
Proof.
  revert s. induction steps as [|c steps IH]; intros s Hs; simpl; [done|].
  by apply IH, registry_wf_step.
Qed.

(** Every page reached from a fresh one, by calls of the interface, timers
    firing and the page going away, has consistent registries: a name in
    [channels] has its channel object, a name in [eventListeners] has its
    [Set], and a channel exists only once [init] has run. *)
Theorem registry_wf_reachable (stringify : Value → json_text) (parse : string → outcome)
    (now : Z) (steps : list Step) :
  registry_wf (run steps (fresh_page stringify parse now)).
Proof. apply registry_wf_run, registry_wf_fresh. Qed.

(** ** Instant events: [emit] *)

Lemma set_kept_frame sa (f : Bus → Bus) :
  (∀ s, setObjects (f s) = setObjects s) → preserves (set_kept sa) (modify f).
Proof. intros Hf. apply preserves_modify. intros s. unfold set_kept. by rewrite Hf. Qed.

Lemma set_kept_log sa e : preserves (set_kept sa) (log e).
Proof. by apply set_kept_frame. Qed.

Lemma set_kept_invoke sa site name f args : preserves (set_kept sa) (invoke site name f args).
Proof.
  unfold invoke. repeat preserves_step. apply set_kept_log.
Qed.

Lemma set_kept_unlisten sa r : preserves (set_kept sa) (unlisten r).
Proof.
  unfold unlisten, updateSet. repeat preserves_step.
  - by intros s; unfold exec, registrationAt; destruct (registrations s !! r).
  - by apply set_kept_frame.
  - by intros s; unfold exec, setAt; destruct (setObjects s !! _).
  - apply preserves_modify. intros s. unfold set_kept. simpl. apply is_Some_insert.
  - by intros s; unfold exec, setAt; destruct (setObjects s !! _).
  - by apply set_kept_frame.
Qed.

Lemma set_kept_updateRegistration sa r f : preserves (set_kept sa) (updateRegistration r f).
Proof.
  unfold updateRegistration. repeat preserves_step.
  - by intros s; unfold exec, registrationAt; destruct (registrations s !! r).
  - by apply set_kept_frame.
Qed.

Lemma set_kept_executeListener sa r d : preserves (set_kept sa) (executeListener r d).
Proof.
  unfold executeListener. repeat preserves_step.
  - by intros s; unfold exec, registrationAt; destruct (registrations s !! r).
  - apply set_kept_invoke.
  - apply set_kept_updateRegistration.
  - apply set_kept_unlisten.
  - apply set_kept_log.
Qed.

Lemma set_kept_wrappedListener sa r d : preserves (set_kept sa) (wrappedListener r d).
Proof.
  unfold wrappedListener, Date_now. repeat preserves_step;
    try apply set_kept_invoke; try apply set_kept_executeListener;
    try apply set_kept_updateRegistration; try (by apply set_kept_frame);
    try (by intros s; unfold exec, registrationAt; destruct (registrations s !! r));
    try (by intros s; unfold exec, setTimeout).
Qed.

(** [emit] never throws, whatever the listeners and their [validate] and
    [transform] options do. *)
Theorem emit_never_throws (s : Bus) (eventName : string) (data : Value) :
  registry_wf s →
  result (emit eventName data) s = Normal tt.
Proof.
  intros [_ R2 _]. unfold result, emit.
  erewrite bind_eq by (unfold gets; reflexivity). cbv beta.
  destruct (eventListeners s !! eventName) as [sa|] eqn:He; [|done].
  destruct (R2 _ _ He) as [snapshot Hsa].
  erewrite bind_eq by (unfold setAt; rewrite Hsa; reflexivity). cbv beta.
  destruct (bool_decide _); [done|].
  assert (Hkept : set_kept sa s) by (by exists snapshot).
  clear Hsa He R2. revert s Hkept.
  induction snapshot as [|w l IH]; intros s Hkept; [done|].
  cbn [forEach].
  set (body := let* live := setAt sa in
               when (bool_decide (w ∈ live))
                 (try_catch (wrappedListener w data)
                    (fun error => console_error SListener eventName error))).
  assert (Hbody : (body s).1 = Normal tt ∧ set_kept sa (body s).2).
  { unfold body. destruct Hkept as [live Hlive].
    erewrite bind_eq by (unfold setAt; rewrite Hlive; reflexivity). cbv beta.
    destruct (bool_decide _); cbn [when]; [|split; [done|by exists live]].
    pose proof (set_kept_wrappedListener sa w data s ltac:(by exists live)) as Hw.
    unfold exec in Hw. unfold try_catch.
    destruct (wrappedListener w data s) as [[[]|e] s1]; cbn [fst snd] in *; [done|].
    split; [done|]. by apply (set_kept_log sa). }
  destruct Hbody as [Hres Hk]. unfold bind at 1.
  destruct (body s) as [c s1]. cbn [fst snd] in Hres, Hk. subst c.
  by apply IH.
Qed.

(** ** [listChannels] and [getChannelInfo] *)

#[local] Instance inserted_before_trans : Transitive inserted_before.
Proof. intros x y z. unfold inserted_before. lia. Qed.

#[local] Instance inserted_before_total : Total inserted_before.
Proof. intros x y. unfold inserted_before. lia. Qed.

Lemma entries_sorted m : StronglySorted inserted_before (entries m).
Proof. apply StronglySorted_merge_sort; apply _. Qed.

Lemma StronglySorted_filter {A} (R : relation A) (P : A → Prop) `{∀ x, Decision (P x)} l :
  StronglySorted R l → StronglySorted R (filter P l).
Proof.
  induction 1 as [|x l Hl IH Hx]; [constructor|].
  destruct (decide (P x)).
  - rewrite filter_cons_True by done. constructor; [done|].
    eapply sublist_Forall'; [apply sublist_filter|done].
  - by rewrite filter_cons_False.
Qed.

Lemma filter_all {A} (P : A → Prop) `{∀ x, Decision (P x)} l :
  Forall P l → filter P l = l.
Proof.
  induction 1 as [|x l Hx Hl IH]; [done|]. by rewrite filter_cons_True, IH.
Qed.

(** The entries of the registry once [name] is given the newest reference. *)
Lemma entries_insert_newest (m : gmap string ref) (name : string) (r : ref) :
  (∀ n n' a, m !! n = Some a → m !! n' = Some a → n = n') →
  map_Forall (fun _ a => (a < r)%nat) m →
  m !! name = None →
  entries (<[name := r]> m) = entries m ++ [(name, r)].
Proof.
  intros Hinj Hlt Hn.
  assert (Hin : ∀ x, x ∈ entries m ++ [(name, r)] → <[name := r]> m !! x.1 = Some x.2).
  { intros [n a] Hx. apply elem_of_app in Hx as [Hx|Hx%list_elem_of_singleton].
    - apply elem_of_entries in Hx. cbn [fst snd].
      rewrite lookup_insert_ne; [done|]. intros <-. congruence.
    - injection Hx as -> ->. apply lookup_insert_eq. }
  apply (StronglySorted_unique_strong inserted_before).
  - intros [n1 a1] [n2 a2] H1 H2 Hle1 Hle2. unfold inserted_before in *. cbn [snd] in *.
    assert (a1 = a2) as -> by lia.
    apply elem_of_entries in H1. apply Hin in H2. cbn [fst snd] in H2.
    f_equal.
    destruct (decide (n1 = name)) as [->|Hne1], (decide (n2 = name)) as [->|Hne2]; [done|..].
    + rewrite lookup_insert_eq in H1. rewrite lookup_insert_ne in H2 by done.
      injection H1 as <-. apply Hlt in H2. simpl in H2. lia.
    + rewrite lookup_insert_eq in H2. rewrite lookup_insert_ne in H1 by done.
      injection H2 as <-. apply Hlt in H1. simpl in H1. lia.
    + rewrite lookup_insert_ne in H1, H2 by done. by eapply Hinj.
  - apply entries_sorted.
  - apply StronglySorted_app. split; [|split; [apply entries_sorted|repeat constructor]].
    intros [n1 a1] x2 H1 ->%list_elem_of_singleton. unfold inserted_before. cbn [snd].
    apply elem_of_entries in H1. apply Hlt in H1. simpl in H1. lia.
  - rewrite !entries_perm, map_to_list_insert by done.
    by rewrite (Permutation_cons_append (map_to_list m)).
Qed.

(** The entries of the registry once [name] is deleted. *)
Lemma entries_delete (m : gmap string ref) name :
  (∀ n n' a, m !! n = Some a → m !! n' = Some a → n = n') →
  entries (delete name m) = filter (fun e => e.1 ≠ name) (entries m).
Proof.
  intros Hinj.
  apply (StronglySorted_unique_strong inserted_before).
  - intros [n1 a1] [n2 a2] H1 H2 Hle1 Hle2. unfold inserted_before in *. cbn [snd] in *.
    assert (a1 = a2) as -> by lia.
    apply elem_of_entries, lookup_delete_Some in H1 as [_ H1].
    apply list_elem_of_filter in H2 as [_ H2%elem_of_entries].
    f_equal. by eapply Hinj.
  - apply entries_sorted.
  - apply StronglySorted_filter, entries_sorted.
  - rewrite !entries_perm.
    assert (Hall : Forall (fun e : string * ref => e.1 ≠ name) (map_to_list (delete name m))).
    { apply list.Forall_forall. intros [n a] Hx%elem_of_map_to_list.
      by apply lookup_delete_Some in Hx as [? _]. }
    destruct (m !! name) as [x|] eqn:Hn.
    + rewrite <- (map_to_list_delete m name x Hn).
      rewrite filter_cons_False by (intros H; by apply H). by rewrite filter_all.
    + rewrite delete_id in * by done. by rewrite filter_all.
Qed.

Lemma fmap_fst_filter name (l : list (string * ref)) :
  (filter (fun e => e.1 ≠ name) l).*1 = filter (fun n => n ≠ name) l.*1.
Proof.
  induction l as [|[n a] l IH]; [done|]. rewrite fmap_cons. cbn [fst].
  destruct (decide (n = name)) as [->|Hne].
  - by rewrite !filter_cons_False by (intros H; by apply H).
  - rewrite !filter_cons_True by done. by rewrite fmap_cons, IH.
Qed.

(** [listChannels] lists the channels in the order of their creation: a
    channel that [channel] creates comes last, and [clear] takes the name
    of the channel out and leaves the order of the others. *)
Theorem listChannels_follows_creation (s : Bus) (created cleared : string)
    (cfg : option Config.t) (names : list string) :
  page_wf s →
  registry_wf s →
  result listChannels s = Normal names →
  channels s !! created = None →
  result listChannels (exec (channel created cfg) s) = Normal (names ++ [created])
  ∧ result listChannels (exec (clear cleared) s) =
      Normal (filter (fun n => n ≠ cleared) names).
Proof.
  intros [_ _ _ _ _ W6 W7] [R1 _ _] Hnames Hn.
  assert (Hl : names = (entries (channels s)).*1).
  { unfold result, listChannels, gets in Hnames. cbn [fst] in Hnames. congruence. }
  split.
  - unfold exec. rewrite (channel_new s created cfg Hn). cbn [snd].
    unfold result, listChannels, gets, channel_result. bus_simpl.
    rewrite (entries_insert_newest _ _ _ W6 W7 Hn), fmap_app, Hl. done.
  - destruct (channels s !! cleared) as [a|] eqn:Hc.
    + destruct (R1 _ _ Hc) as [ch Ha].
      unfold exec. rewrite (clear_eq cleared a ch s Hc Ha). cbn [snd].
      unfold result, listChannels, gets, clear_result. bus_simpl.
      by rewrite (entries_delete _ _ W6), fmap_fst_filter, Hl.
    + unfold exec. rewrite (clear_absent cleared s Hc). cbn [snd].
      unfold result, listChannels, gets. cbn [fst].
      rewrite <- (delete_id (channels s) cleared Hc) at 1.
      by rewrite (entries_delete _ _ W6), fmap_fst_filter, Hl.
Qed.

(** What [getChannelInfo] tells of a channel that [channel] has just
    created: the storage mode and key of the configuration, or the
    defaults ['memory'] and ['lithium:' + name]; no subscriber; the time of
    creation, and as age the time elapsed since.  The call changes
    nothing. *)
Theorem getChannelInfo_of_new_channel (s : Bus) (name : string) (cfg : option Config.t)
    (t : Z) :
  channels s !! name = None →
  let s1 := at_time t (exec (channel name cfg) s) in
  getChannelInfo name s1 =
    (Normal (Some {| info_storage := default memory (opt_field Config.storage cfg);
                     info_storageKey :=
                       default ("lithium:" +:+ name) (opt_field Config.storageKey cfg);
                     info_subscribersCount := 0;
                     info_ttl := opt_field Config.ttl cfg;
                     info_autoCleanup := opt_flag Config.autoCleanup cfg;
                     info_createdAt := clock s;
                     info_age := t - clock s |}), s1).
Proof.
  intros Hn s1. unfold s1, exec. rewrite (channel_new s name cfg Hn). cbn [snd].
  unfold getChannelInfo.
  erewrite bind_eq by (unfold gets; reflexivity). cbv beta.
  unfold channel_result at 1, at_time. bus_simpl. rewrite lookup_insert_eq.
  erewrite bind_eq.
  2:{ unfold channelAt, channel_result. bus_simpl. rewrite lookup_insert_eq. reflexivity. }
  cbv beta. erewrite bind_eq by (unfold Date_now, gets; reflexivity). done.
Qed.

(** ** Channels: expiry *)

Lemma filter_due_none t (l : list Timer) :
  Forall (fun x => t < due x) l → filter (fun x => due x <= t) l = [].
Proof.
  induction 1 as [|x l Hx Hl IH]; [done|]. rewrite filter_cons_False by lia. done.
Qed.

(** A channel created with [ttl: T], [T > 0], on a well-formed page where
    no other timer is due by then.  The channel lives as long as the host
    delays its TTL timer: [T] when [T] fits the host's timer, one
    millisecond when it does not.  Until then the channel is there; at that
    moment it is cleared, [onClear] being called, its storage entry is
    removed, and its TTL timer is out of the table. *)
Theorem ttl_expires_channel (s : Bus) (name : string) (cfg : Config.t) (T : Z) :
  page_wf s →
  channels s !! name = None →
  Config.ttl cfg = Some T →
  0 < T →
  let life := timer_delay T in
  Forall (fun tm => clock s + life < due tm) (timers s) →
  let s1 := exec (channel name (Some cfg)) s in
  let s2 := exec (runTimers (clock s + life)) s1 in
  (T <= TIMEOUT_MAX → life = T)
  ∧ (TIMEOUT_MAX < T → life = 1)
  ∧ (∀ t, t < clock s + life → channels (exec (runTimers t) s1) !! name = Some (nextRef s))
  ∧ channels s2 !! name = None
  ∧ result (getValue name) s2 = Normal VUndefined
  ∧ timers s2 = timers s
  ∧ calls_at SOnClear name (produced (runTimers (clock s + life)) s1) =
      match Config.onClear cfg with
      | Some g => [(clock s + life, Invoke SOnClear name (fn_id g) [])]
      | None => []
      end
  ∧ (config_storage (Some cfg) ≠ memory →
     storeOf (config_storage (Some cfg)) s2 !! config_storageKey name (Some cfg) = None).
Proof.
  intros [W1 _ _ _ _ _ _] Hn Httl HT life Hdue s1 s2.
  split; [intros; apply timer_delay_fits; lia|].
  split; [apply timer_delay_overflow|].
  assert (Hlife : 0 < life).
  { unfold life, timer_delay. case_bool_decide; lia. }
  assert (Htruthy : truthy_num (opt_field Config.ttl (Some cfg)) = true).
  { cbn [opt_field]. rewrite Httl. cbn [truthy_num]. apply negb_true_iff, Z.eqb_neq. lia. }
  set (tm := {| timer_id := nextTimer s; due := clock s + life; callback := TtlExpiry name |}).
  set (ch := created_channel s name (Some cfg)).
  assert (Hs1 : s1 = channel_result name (Some cfg) s)
    by (unfold s1, exec; by rewrite (channel_new s name (Some cfg) Hn)).
  assert (Htimers : timers s1 = timers s ++ [tm]).
  { rewrite Hs1. unfold channel_result. bus_simpl. rewrite Htruthy. cbn [opt_field].
    rewrite Httl. cbn [default from_option id]. done. }
  assert (Hn1 : channels s1 !! name = Some (nextRef s)).
  { rewrite Hs1. unfold channel_result. bus_simpl. apply lookup_insert_eq. }
  assert (Ha1 : channelObjects s1 !! nextRef s = Some ch).
  { rewrite Hs1. unfold channel_result. bus_simpl. apply lookup_insert_eq. }
  assert (Hclock1 : clock s1 = clock s) by (by rewrite Hs1).
  split.
  { intros t Ht. unfold exec, runTimers.
    erewrite bind_eq by (unfold gets; reflexivity). cbv beta.
    rewrite Htimers, list.filter_app, filter_due_none.
    2:{ eapply list.Forall_impl; [exact Hdue|]. simpl. intros; lia. }
    rewrite filter_cons_False, filter_nil by (simpl; lia).
    cbn [app schedule foldr forEach]. by erewrite bind_eq by (unfold ret; reflexivity). }
  assert (Hpend : pending (nextTimer s) s1 = Some tm).
  { unfold pending. rewrite Htimers. apply find_app_last; [|done].
    eapply list.Forall_impl; [exact W1|]. simpl. intros; lia. }
  assert (Hrun : runTimers (clock s + life) s1 =
            (Normal tt,
             set_clock (clock s + life)
               (clear_result name (nextRef s) ch (fired (nextTimer s) tm s1)))).
  { unfold runTimers.
    erewrite bind_eq by (unfold gets; reflexivity). cbv beta.
    rewrite Htimers, list.filter_app, filter_due_none by done.
    rewrite filter_cons_True, filter_nil by (simpl; lia).
    cbn [app schedule foldr schedule_insert forEach timer_id tm].
    erewrite bind_eq.
    2:{ erewrite bind_eq by (by apply (fire_ttl _ tm s1 name (nextRef s) ch)).
        unfold ret. reflexivity. }
    cbv beta. unfold modify. f_equal. f_equal.
    unfold clear_result, fired, tm. bus_simpl. rewrite Hclock1. lia. }
  assert (Hs2 : s2 = set_clock (clock s + life)
                       (clear_result name (nextRef s) ch (fired (nextTimer s) tm s1)))
    by (unfold s2, exec; by rewrite Hrun).
  split; [rewrite Hs2; unfold clear_result; bus_simpl; apply lookup_delete_eq|].
  split.
  { unfold result, getValue. erewrite bind_eq by (unfold gets; reflexivity). cbv beta.
    rewrite Hs2. unfold clear_result. bus_simpl. by rewrite lookup_delete_eq. }
  assert (Hcancel : cancel (nextTimer s) (timers s ++ [tm]) = timers s).
  { unfold cancel. rewrite list.filter_app, filter_cons_False, filter_nil, app_nil_r
      by (intros H; by apply H).
    apply filter_all. eapply list.Forall_impl; [exact W1|]. simpl. intros; lia. }
  split.
  { rewrite Hs2. unfold clear_result, fired. bus_simpl. rewrite Htimers, Hcancel.
    unfold ch, created_channel. bus_simpl. rewrite Htruthy. cbn [cancel_opt].
    unfold cancel. apply filter_all.
    eapply list.Forall_impl; [exact W1|]. simpl. intros; lia. }
  split.
  { erewrite produced_eq.
    2:{ unfold exec. rewrite Hrun. unfold clear_result, fired. bus_simpl. reflexivity. }
    unfold tm. bus_simpl. rewrite Hclock1, Z.max_r by lia.
    apply (calls_at_onClear name ch). }
  intros Hmode. rewrite Hs2. unfold clear_result, fired, storeOf. bus_simpl.
  unfold ch, created_channel. bus_simpl.
  destruct (config_storage (Some cfg)); [done| |]; simpl; apply lookup_delete_eq.
Qed.

(** ** Instant events: delivery *)

Lemma emit_absent name d s : eventListeners s !! name = None → emit name d s = (Normal tt, s).
Proof.
  intros He. unfold emit. erewrite bind_eq by (unfold gets; reflexivity). cbv beta.
  by rewrite He.
Qed.

(** After [off], [emit] for the name does nothing at all, whatever
    listeners had been registered. *)
Theorem off_silences_emit (s : Bus) (name : string) (d : Value) :
  emit name d (exec (off name) s) = (Normal tt, exec (off name) s).
Proof. apply emit_absent. unfold exec, off, modify. simpl. apply lookup_delete_eq. Qed.

Lemma validate_option_step name vopt d s :
  validated vopt d = true →
  match vopt with
  | Some validate => let* v := invoke SEventValidate name validate [d] in ret (truthy v)
  | None => ret true
  end s = (Normal true, log_events (call_events SEventValidate name vopt [d]) s).
Proof.
  unfold validated. destruct vopt as [f|]; simpl.
  - unfold bind. rewrite invoke_eq. destruct (fn_call f [d]); [|done]. by intros ->.
  - intros _. by rewrite log_events_nil.
Qed.

Lemma transform_option_step name topt d w s :
  transformed topt d = Some w →
  match topt with
  | Some transform => invoke SEventTransform name transform [d]
  | None => ret d
  end s = (Normal w, log_events (call_events SEventTransform name topt [d]) s).
Proof.
  unfold transformed. destruct topt as [f|]; simpl.
  - rewrite invoke_eq. destruct (fn_call f [d]); [|done]. by intros [= ->].
  - intros [= ->]. by rewrite log_events_nil.
Qed.

(** What [executeListener] leaves when the registration is not [once]. *)
Lemma executeListener_kept r reg w s :
  registrations s !! r = Some reg →
  opt_flag Options.once (options reg) = false →
  ∃ s', executeListener r w s = (Normal tt, s')
    ∧ setObjects s' = setObjects s ∧ eventListeners s' = eventListeners s
    ∧ clock s' = clock s ∧ timers s' = timers s
    ∧ (∀ r', r' ≠ r → registrations s' !! r' = registrations s !! r')
    ∧ (∃ reg', registrations s' !! r = Some reg'
         ∧ set_hasExecuted false reg' = set_hasExecuted false reg)
    ∧ trace s' = trace s ++ stamp (clock s)
                   (guarded_events SListener (eventName reg) (listener reg) [w]).
Proof.
  intros Hr Honce. unfold executeListener.
  erewrite bind_eq by (unfold registrationAt; rewrite Hr; reflexivity). cbv beta.
  unfold try_catch, bind at 1. rewrite invoke_eq. unfold guarded_events.
  destruct (fn_call (listener reg) [w]) as [v|e].
  - erewrite bind_eq.
    2:{ unfold updateRegistration, bind, registrationAt, log_events. bus_simpl.
        rewrite Hr. unfold modify. reflexivity. }
    cbv beta. rewrite Honce. cbn [when]. unfold ret.
    eexists. split; [reflexivity|]. bus_simpl.
    do 4 (split; [done|]).
    split; [intros r' Hne; by rewrite lookup_insert_ne|].
    split; [|done]. eexists. split; [apply lookup_insert_eq|done].
  - unfold console_error, log, modify. eexists. split; [reflexivity|]. bus_simpl.
    do 5 (split; [done|]). split; [by exists reg|].
    unfold log_events. bus_simpl. by rewrite <- app_assoc.
Qed.

Lemma calls_at_listener_call_events site name name' f args t :
  site ≠ SListener →
  calls_at SListener name (stamp t (call_events site name' f args)) = [].
Proof. intros Hs. by apply calls_at_call_events. Qed.

(** One visit of [emit] to a registration whose listener is called at
    once. *)
Lemma visit_immediate name r reg d s :
  registrations s !! r = Some reg →
  eventName reg = name →
  immediate reg →
  ∃ s', try_catch (wrappedListener r d)
          (fun error => console_error SListener name error) s = (Normal tt, s')
    ∧ setObjects s' = setObjects s ∧ eventListeners s' = eventListeners s
    ∧ clock s' = clock s ∧ timers s' = timers s
    ∧ (∀ r', r' ≠ r → registrations s' !! r' = registrations s !! r')
    ∧ ∃ tr, trace s' = trace s ++ tr
        ∧ calls_at SListener name tr = delivery name d (clock s) reg.
Proof.
  intros Hr Hname (Hd & Ht & Honce). unfold try_catch, wrappedListener.
  erewrite bind_eq by (unfold registrationAt; rewrite Hr; reflexivity). cbv beta.
  rewrite Honce. cbn [andb]. unfold delivery, event_value.
  destruct (validated (opt_field Options.validate (options reg)) d) eqn:Hv.
  - erewrite bind_eq by (apply validate_option_step, Hv). cbv beta. cbn [negb].
    destruct (transformed (opt_field Options.transform (options reg)) d) as [w|] eqn:Hw.
    + erewrite bind_eq by (apply transform_option_step, Hw). cbv beta.
      rewrite Hd, Ht.
      match goal with |- context [executeListener r w ?s0] =>
        destruct (executeListener_kept r reg w s0) as (s' & Heq & H1 & H2 & H3 & H4 & H5 & _ & H6);
          [by unfold log_events|done|] end.
      rewrite Heq. exists s'. split; [done|].
      unfold log_events in *. bus_simpl.
      do 5 (split; [done|]).
      eexists. split; [rewrite H6, <- !app_assoc; reflexivity|].
      rewrite !calls_at_app, !calls_at_listener_call_events by done.
      rewrite Hname. by rewrite calls_at_guarded.
    + unfold transformed in Hw.
      destruct (opt_field Options.transform (options reg)) as [f|]; [|done].
      unfold bind at 1. rewrite invoke_eq. destruct (fn_call f [d]); [done|].
      unfold console_error, log, modify. eexists. split; [reflexivity|].
      unfold log_events. bus_simpl. do 5 (split; [done|]).
      eexists. split; [rewrite <- !app_assoc; reflexivity|].
      rewrite !calls_at_app, calls_at_listener_call_events by done. done.
  - unfold validated in Hv.
    destruct (opt_field Options.validate (options reg)) as [f|]; [|done].
    unfold bind at 1. unfold bind at 1. rewrite invoke_eq.
    destruct (fn_call f [d]) as [v|e].
    + rewrite Hv. cbn [negb]. unfold ret. eexists. split; [reflexivity|].
      unfold log_events. bus_simpl. do 5 (split; [done|]).
      eexists. split; [reflexivity|]. done.
    + unfold console_error, log, modify. eexists. split; [reflexivity|].
      unfold log_events. bus_simpl. do 5 (split; [done|]).
      eexists. split; [rewrite <- !app_assoc; reflexivity|]. done.
Qed.

Lemma Forall2_impl_elem {A B} (P Q : A → B → Prop) l k :
  Forall2 P l k → (∀ x y, x ∈ l → P x y → Q x y) → Forall2 Q l k.
Proof.
  induction 1 as [|x y l k Hxy Hlk IH]; intros Himp; constructor.
  - apply Himp; [by left|done].
  - apply IH. intros x' y' Hx'. apply Himp. by right.
Qed.

Lemma forEach_immediate name sa d full l regs s :
  setObjects s !! sa = Some full →
  l ⊆ full →
  NoDup l →
  Forall2 (fun r reg => registrations s !! r = Some reg ∧ eventName reg = name
                        ∧ immediate reg) l regs →
  ∃ s', forEach l (fun w =>
          let* live := setAt sa in
          when (bool_decide (w ∈ live))
            (try_catch (wrappedListener w d)
               (fun error => console_error SListener name error))) s = (Normal tt, s')
    ∧ ∃ tr, trace s' = trace s ++ tr
        ∧ calls_at SListener name tr = concat (map (delivery name d (clock s)) regs).
Proof.
  revert regs s. induction l as [|r l IH]; intros regs s Hsa Hsub Hnd Hregs.
  { apply Forall2_nil_inv_l in Hregs as ->. exists s. split; [done|].
    exists []. by rewrite app_nil_r. }
  apply Forall2_cons_inv_l in Hregs as (reg & regs' & (Hr & Hname & Himm) & Hrest & ->).
  apply list.NoDup_cons in Hnd as [Hnotin Hnd].
  cbn [forEach].
  destruct (visit_immediate name r reg d s Hr Hname Himm)
    as (s1 & Heq & H1 & H2 & H3 & H4 & H5 & tr1 & Htr1 & Hcalls1).
  erewrite bind_eq.
  2:{ erewrite bind_eq by (unfold setAt; rewrite Hsa; reflexivity). cbv beta.
      rewrite bool_decide_eq_true_2 by (apply Hsub; by left). cbn [when]. exact Heq. }
  cbv beta.
  destruct (IH regs' s1) as (s' & Heq' & tr & Htr & Hcalls).
  - by rewrite H1.
  - intros x Hx. apply Hsub. by right.
  - done.
  - eapply Forall2_impl_elem; [exact Hrest|]. intros r' reg' Hin (Hr' & Hrn & Hri).
    split; [|done]. rewrite H5; [done|]. by intros ->.
  - exists s'. split; [done|]. exists (tr1 ++ tr).
    split; [by rewrite Htr, Htr1, app_assoc|].
    rewrite calls_at_app, Hcalls1, Hcalls, H3. done.
Qed.

(** [emit] calls the listeners of the name in the order of registration,
    each with the data as its own [validate] lets it through and its own
    [transform] changes it; a listener whose [validate] says no, or whose
    option throws, is passed over and the next one is called.  (Listeners
    without [debounce], [throttle] and [once].) *)
Theorem emit_delivers_in_registration_order (s : Bus) (name : string) (d : Value)
    (sa : ref) (l : list ref) (regs : list Registration) :
  eventListeners s !! name = Some sa →
  setObjects s !! sa = Some l →
  NoDup l →
  Forall2 (fun r reg => registrations s !! r = Some reg ∧ eventName reg = name
                        ∧ immediate reg) l regs →
  result (emit name d) s = Normal tt
  ∧ calls_at SListener name (produced (emit name d) s) =
      concat (map (delivery name d (clock s)) regs).
Proof.
  intros He Hsa Hnd Hregs. unfold result, produced, exec, emit.
  erewrite !bind_eq by (unfold gets; reflexivity). cbv beta. rewrite He.
  erewrite !bind_eq by (unfold setAt; rewrite Hsa; reflexivity). cbv beta.
  destruct l as [|r l].
  { apply Forall2_nil_inv_l in Hregs as ->. cbn [length when]. 
    rewrite bool_decide_eq_true_2 by done. cbn [fst snd ret].
    by rewrite drop_all. }
  rewrite bool_decide_eq_false_2 by done.
  destruct (forEach_immediate name sa d (r :: l) (r :: l) regs s Hsa ltac:(done) Hnd Hregs)
    as (s' & Heq & tr & Htr & Hcalls).
  rewrite Heq. cbn [fst snd]. split; [done|].
  by rewrite Htr, drop_app_length.
Qed.

Lemma emit_singleton name d sa r s c s' :
  eventListeners s !! name = Some sa →
  setObjects s !! sa = Some [r] →
  try_catch (wrappedListener r d) (fun error => console_error SListener name error) s
    = (c, s') →
  emit name d s = (Normal tt, s').
Proof.
  intros He Hsa Hvisit. unfold emit.
  erewrite bind_eq by (unfold gets; reflexivity). cbv beta. rewrite He.
  erewrite bind_eq by (unfold setAt; rewrite Hsa; reflexivity). cbv beta.
  rewrite bool_decide_eq_false_2 by done. cbn [forEach].
  assert (Hc : c = Normal tt).
  { unfold try_catch in Hvisit. destruct (wrappedListener r d s) as [[[]|e] s0].
    - by injection Hvisit as <- _.
    - unfold console_error, log, modify in Hvisit. by injection Hvisit as <- _. }
  subst c. erewrite bind_eq.
  2:{ erewrite bind_eq by (unfold setAt; rewrite Hsa; reflexivity). cbv beta.
      rewrite bool_decide_eq_true_2 by (by apply list_elem_of_singleton). exact Hvisit. }
  done.
Qed.

(** ** Instant events: [throttle] *)



(** ** Instant events: [once] *)

Lemma emit_all_absent name ds s : eventListeners s !! name = None → emit_all name ds s = s.
Proof.
  intros He. induction ds as [|d ds IH]; [done|]. unfold emit_all in *. cbn [foldl].
  unfold exec at 2. rewrite (emit_absent name d s He). exact IH.
Qed.

(** A [once] listener registered without [debounce] and without [throttle],
    not yet executed, that is the only listener of its event, in the set
    its registration captured.  At an emission whose data its [validate]
    accepts and its [transform] turns into [w], neither throwing, the
    listener returning normally on [w]: it is called with [w], the
    registration leaves the listener set and the entry of the event is
    deleted; whatever is emitted afterwards, it is not called again. *)
Theorem once_listener_runs_once_then_leaves (s : Bus) (name : string) (sa r : ref)
    (reg : Registration) (d w v : Value) (ds : list Value) :
  eventListeners s !! name = Some sa →
  setObjects s !! sa = Some [r] →
  registrations s !! r = Some reg →
  eventName reg = name →
  listeners reg = sa →
  opt_flag Options.once (options reg) = true →
  hasExecuted reg = false →
  truthy_num (opt_field Options.debounce (options reg)) = false →
  truthy_num (opt_field Options.throttle (options reg)) = false →
  event_value (options reg) d = Some w →
  fn_call (listener reg) [w] = Returns v →
  let s1 := exec (emit name d) s in
  eventListeners s1 !! name = None
  ∧ setObjects s1 !! sa = Some []
  ∧ calls_at SListener name (drop (length (trace s)) (trace (emit_all name ds s1))) =
      [(clock s, Invoke SListener name (fn_id (listener reg)) [w])].
Proof.
  intros He Hsa Hr Hname Hl Honce Hex Hd Ht Hev Hret s1.
  unfold event_value in Hev.
  destruct (validated (opt_field Options.validate (options reg)) d) eqn:Hv; [|done].
  assert (Hvisit : ∃ s', try_catch (wrappedListener r d)
                     (fun error => console_error SListener name error) s = (Normal tt, s')
            ∧ eventListeners s' !! name = None
            ∧ setObjects s' !! sa = Some []
            ∧ ∃ tr, trace s' = trace s ++ tr
                ∧ calls_at SListener name tr =
                    [(clock s, Invoke SListener name (fn_id (listener reg)) [w])]).
  { unfold try_catch, wrappedListener.
    erewrite bind_eq by (unfold registrationAt; rewrite Hr; reflexivity). cbv beta.
    rewrite Honce, Hex. cbn [andb].
    erewrite bind_eq by (apply validate_option_step, Hv). cbv beta. cbn [negb].
    erewrite bind_eq by (apply transform_option_step, Hev). cbv beta.
    rewrite Hd, Ht.
    unfold executeListener.
    erewrite bind_eq by (unfold registrationAt, log_events; bus_simpl; rewrite Hr;
                         reflexivity).
    cbv beta. unfold try_catch.
    erewrite bind_eq by (rewrite invoke_eq, Hret; reflexivity). cbv beta.
    erewrite bind_eq.
    2:{ unfold updateRegistration, bind, registrationAt, log_events. bus_simpl.
        rewrite Hr. unfold modify. reflexivity. }
    cbv beta. rewrite Honce. cbn [when]. unfold unlisten.
    erewrite bind_eq by (unfold registrationAt; bus_simpl; rewrite lookup_insert_eq;
                         reflexivity).
    cbv beta.
    erewrite bind_eq by apply whenSome_clearTimeout. cbv beta.
    cbn [set_hasExecuted debounceTimer listeners eventName]. rewrite Hl.
    erewrite bind_eq.
    2:{ unfold updateSet, bind, setAt, log_events. bus_simpl. rewrite Hsa.
        unfold modify. reflexivity. }
    cbv beta. rewrite filter_cons_False, filter_nil by (intros H; by apply H).
    erewrite bind_eq by (unfold setAt; bus_simpl; rewrite lookup_insert_eq; reflexivity).
    cbv beta. cbn [length]. rewrite bool_decide_eq_true_2 by done. cbn [when].
    unfold modify.
    eexists. split; [reflexivity|]. unfold log_events. bus_simpl.
    split; [rewrite Hname; apply lookup_delete_eq|].
    split; [apply lookup_insert_eq|].
    eexists. split; [rewrite <- !app_assoc; reflexivity|].
    rewrite !calls_at_app, !calls_at_listener_call_events by done.
    cbn [app]. unfold calls_at. cbn [stamp map List.filter is_call snd].
    rewrite Hname. by rewrite !bool_decide_eq_true_2 by done. }
  destruct Hvisit as (s' & Hvisit & Hgone' & Hset & tr & Htr & Hcalls).
  assert (Hs1 : s1 = s').
  { unfold s1, exec. by rewrite (emit_singleton name d sa r s (Normal tt) s' He Hsa Hvisit). }
  rewrite Hs1. split; [done|]. split; [done|].
  by rewrite (emit_all_absent name ds s' Hgone'), Htr, drop_app_length.
Qed.

(** ** Channels: persistence *)

(** What [publish] writes to storage is what a channel created later over
    the same entry starts with, in place of its [initialValue], when
    [JSON.parse] gives the value back from the text [JSON.stringify] makes
    of it.  The later channel may be on another page, as after a reload:
    all that matters is the storage entry. *)
Theorem persisted_value_is_restored (s : Bus) (name : string) (a : ref) (ch : Channel)
    (value w : Value) (text : string)
    (s2 : Bus) (name2 : string) (cfg2 : Config.t) :
  channels s !! name = Some a →
  channelObjects s !! a = Some ch →
  published_value (config ch) value = Some w →
  storage ch ≠ memory →
  JSON_stringify s w = JsonText text →
  text ≠ EmptyString →
  w ≠ VUndefined →
  JSON_parse s2 text = Returns w →
  channels s2 !! name2 = None →
  Config.storage cfg2 = Some (storage ch) →
  config_storageKey name2 (Some cfg2) = storageKey ch →
  storeOf (storage ch) s2 !! storageKey ch =
    storeOf (storage ch) (exec (publish name value) s) !! storageKey ch →
  result (getValue name2) (exec (channel name2 (Some cfg2)) s2) = Normal w.
Proof.
  intros Hn Ha Hp Hmode Hjson Htext Hw Hparse Hn2 Hmode2 Hkey Hsame.
  assert (Hwritten : storeOf (storage ch) (exec (publish name value) s) !! storageKey ch
                     = Some text).
  { unfold exec. rewrite (publish_accepted _ _ _ _ _ _ Hn Ha Hp). cbn [snd].
    unfold publish_result, storeOf, persisted_text. rewrite Hjson.
    destruct (storage ch); [done| |]; simpl; apply lookup_insert_eq. }
  rewrite Hwritten in Hsame.
  pose proof (channel_new s2 name2 (Some cfg2) Hn2) as Hc.
  unfold exec. rewrite Hc. cbn [snd]. unfold result.
  erewrite getValue_eq; [|unfold channel_result; bus_simpl; apply lookup_insert_eq
                          |unfold channel_result; bus_simpl; apply lookup_insert_eq].
  unfold created_channel. bus_simpl. f_equal.
  unfold resolved_value, stored_value, config_storage. cbn [opt_field].
  rewrite Hmode2. cbn [default from_option id]. rewrite Hkey.
  destruct (storage ch); [done| |]; rewrite Hsame; (destruct text; [done|]);
    rewrite Hparse; unfold strict_eq; by rewrite bool_decide_eq_false_2.
Qed.

(** A channel in [memory] mode never touches storage: [publish] and
    [clear] leave [sessionStorage] and [localStorage] as they are. *)
Theorem memory_channel_leaves_storage_alone (s : Bus) (name : string) (a : ref)
    (ch : Channel) (value : Value) :
  channels s !! name = Some a →
  channelObjects s !! a = Some ch →
  storage ch = memory →
  sessionStorage (exec (publish name value) s) = sessionStorage s
  ∧ localStorage (exec (publish name value) s) = localStorage s
  ∧ sessionStorage (exec (clear name) s) = sessionStorage s
  ∧ localStorage (exec (clear name) s) = localStorage s.
Proof.
  intros Hn Ha Hmode.
  assert (Hpub : sessionStorage (exec (publish name value) s) = sessionStorage s
                 ∧ localStorage (exec (publish name value) s) = localStorage s).
  { destruct (published_value (config ch) value) as [w|] eqn:Hp.
    - unfold exec. rewrite (publish_accepted _ _ _ _ _ _ Hn Ha Hp). cbn [snd].
      unfold publish_result. bus_simpl. by rewrite Hmode.
    - by rewrite (publish_refused _ _ _ _ _ Hn Ha Hp). }
  destruct Hpub as [H1 H2]. do 2 (split; [done|]).
  unfold exec. rewrite (clear_eq name a ch s Hn Ha). cbn [snd].
  unfold clear_result. bus_simpl. by rewrite Hmode.
Qed.

(** ** The properties on the sample pages, continued *)

Ltac by_computation := apply (bool_decide_unpack _); vm_compute; exact I.

Ltac wf_field := first [by_computation | vm_compute; constructor].

Lemma three_channels_registry : registry_wf Demo.three_channels.
Proof.
  split; [by_computation|by_computation|]. intros _. vm_compute. reflexivity.
Defined.

Lemma channel_existing_ignores_config_witness :
  channel "count" (Some Sample.plain) Sample.validated_page =
    (Normal 0%nat, set_initialized true Sample.validated_page).
Proof.
  apply (channel_existing_ignores_config Sample.validated_page "count" 0%nat).
  vm_compute. reflexivity.
Defined.

Lemma channel_starts_from_stored_value_witness :
  result (getValue "n") (exec (channel "n" (Some Demo.in_session)) (Demo.stored_page "42")) =
    Normal (VNumber 42)
  ∧ calls_at SOnInit "n"
      (produced (channel "n" (Some Demo.in_session)) (Demo.stored_page "42")) =
      [(1000, Invoke SOnInit "n" 2 [VNumber 42])].
Proof.
  destruct (channel_starts_from_stored_value (Demo.stored_page "42") "n" Demo.in_session
              session "42" (VNumber 42))
    as (Hget & Hinit & _); try (vm_compute; reflexivity); try discriminate.
  split; [exact Hget|exact Hinit].
Defined.

Lemma channel_falls_back_to_initialValue_witness :
  result (getValue "n") (exec (channel "n" (Some Demo.in_session)) (Demo.stored_page "{"))
    = Normal (VNumber 1).
Proof.
  destruct (channel_falls_back_to_initialValue (Demo.stored_page "{") "n" Demo.in_session)
    as [_ Hget]; [vm_compute; reflexivity| |exact Hget].
  right. right. right. exists "{", (VString "SyntaxError"). split; vm_compute; reflexivity.
Defined.

Lemma channel_reports_corrupt_storage_witness :
  errors_at SStorage "session"
    (produced (channel "n" (Some Demo.in_session)) (Demo.stored_page "{")) =
    [(1000, ConsoleError SStorage "session" (VString "SyntaxError"))].
Proof.
  apply (channel_reports_corrupt_storage (Demo.stored_page "{") "n" Demo.in_session
           session "{" (VString "SyntaxError"));
    try (vm_compute; reflexivity); discriminate.
Defined.

Lemma publish_isolates_subscriber_errors_witness :
  result (publish "c" (VNumber 5)) Demo.two_subscribers = Normal tt
  ∧ calls_at SSubscriber "c" (produced (publish "c" (VNumber 5)) Demo.two_subscribers) =
      [(1000, Invoke SSubscriber "c" 7 [VNumber 5]);
       (1000, Invoke SSubscriber "c" 4 [VNumber 5])]
  ∧ errors_at SSubscriber "c" (produced (publish "c" (VNumber 5)) Demo.two_subscribers) =
      [(1000, ConsoleError SSubscriber "c" (VString "boom"))].
Proof.
  pose proof (publish_isolates_subscriber_errors Demo.two_subscribers "c" (VNumber 5)
                (VNumber 5) 0%nat (Sample.channel_on Demo.two_subscribers "c")
                ltac:(vm_compute; reflexivity) ltac:(vm_compute; reflexivity)
                ltac:(vm_compute; reflexivity)) as H.
  vm_compute in H. vm_compute. exact H.
Defined.

Lemma publish_unserialisable_still_delivers_witness :
  result (getValue "n") (exec (publish "n" (VObject 0)) Demo.persisted) = Normal (VObject 0)
  ∧ sessionStorage (exec (publish "n" (VObject 0)) Demo.persisted) =
      sessionStorage Demo.persisted
  ∧ calls_at SSubscriber "n" (produced (publish "n" (VObject 0)) Demo.persisted) =
      [(1000, Invoke SSubscriber "n" 4 [VObject 0])].
Proof.
  destruct (publish_unserialisable_still_delivers Demo.persisted "n" (VObject 0) (VObject 0)
              (VString "TypeError") 0%nat (Sample.channel_on Demo.persisted "n"))
    as (_ & Hget & Hsess & _ & _ & Hsubs); try (vm_compute; reflexivity); [discriminate|].
  vm_compute in Hget, Hsess, Hsubs. vm_compute.
  exact (conj Hget (conj Hsess Hsubs)).
Defined.

Lemma publish_hook_exception_reaches_caller_witness :
  result (publish "n" (VNumber 3)) Demo.with_failing_transform = Abrupt (VString "boom")
  ∧ result (getValue "n") (exec (publish "n" (VNumber 3)) Demo.with_failing_transform) =
      Normal (VNumber 1).
Proof.
  destruct (publish_hook_exception_reaches_caller Demo.with_failing_transform "n" (VNumber 3)
              (VString "boom") 0%nat (Sample.channel_on Demo.with_failing_transform "n"))
    as (Hres & Hexec & _); try (vm_compute; reflexivity).
  { right. split; [vm_compute; reflexivity|].
    exists (Sample.throwing 8). split; vm_compute; reflexivity. }
  split; [exact Hres|]. rewrite Hexec. vm_compute. reflexivity.
Defined.

Lemma publish_calls_onChange_at_once_witness :
  calls_at SOnChange "count" (produced (publish "count" (VNumber 2)) Sample.validated_page) =
    [(1000, Invoke SOnChange "count" 1 [VNumber 2; VNumber 1])]
  ∧ timers (exec (publish "count" (VNumber 2)) Sample.validated_page) =
      timers Sample.validated_page.
Proof.
  pose proof (publish_calls_onChange_at_once Sample.validated_page "count" (VNumber 2)
                (VNumber 2) 0%nat (Sample.channel_on Sample.validated_page "count")
                Sample.onChange
                ltac:(vm_compute; reflexivity) ltac:(vm_compute; reflexivity)
                ltac:(vm_compute; reflexivity) ltac:(vm_compute; reflexivity)
                ltac:(vm_compute; reflexivity) ltac:(vm_compute; reflexivity)) as H.
  vm_compute in H. vm_compute. exact H.
Defined.

Lemma clear_forgets_hooks_and_subscribers_witness :
  produced (publish "c" (VNumber 5)) (exec (clear "c") Demo.two_subscribers) = []
  ∧ result (getValue "c")
      (exec (publish "c" (VNumber 5)) (exec (clear "c") Demo.two_subscribers)) =
      Normal (VNumber 5).
Proof.
  destruct (clear_forgets_hooks_and_subscribers Demo.two_subscribers "c" 0%nat
              (Sample.channel_on Demo.two_subscribers "c") (VNumber 5))
    as (_ & Hnone & Hget & _); try (vm_compute; reflexivity).
  split; [exact Hnone|exact Hget].
Defined.

Lemma subscribe_creates_channel_silently_witness :
  produced (subscribe "late" Sample.subscriber) Sample.page = []
  ∧ result (getValue "late") (exec (subscribe "late" Sample.subscriber) Sample.page) =
      Normal VUndefined
  ∧ calls_at SSubscriber "late"
      (produced (publish "late" (VNumber 9))
         (exec (subscribe "late" Sample.subscriber) Sample.page)) =
      [(1000, Invoke SSubscriber "late" 4 [VNumber 9])].
Proof.
  destruct (subscribe_creates_channel_silently Sample.page "late" Sample.subscriber (VNumber 9))
    as (_ & Hnone & Hget & Hcall); [vm_compute; reflexivity|].
  exact (conj Hnone (conj Hget Hcall)).
Defined.

Lemma subscribe_then_unsubscribe_witness :
  ∃ h, result (subscribe "c" Sample.subscriber) Demo.plain_channel = Normal h
       ∧ unsubscribe h (exec (subscribe "c" Sample.subscriber) Demo.plain_channel) =
           (Normal tt, Demo.plain_channel).
Proof.
  apply (subscribe_then_unsubscribe Demo.plain_channel "c" 0%nat
           (Sample.channel_on Demo.plain_channel "c") Sample.subscriber);
    try (vm_compute; reflexivity).
  left. vm_compute. reflexivity.
Defined.

Lemma unsubscribe_clears_by_name_witness :
  result (getValue "c") Demo.recreated = Normal VUndefined
  ∧ channels Demo.recreated !! "c" = Some 1%nat
  ∧ subscribers (Sample.channel_on Demo.recreated "c") = [Sample.second_listener]
  ∧ channels (exec (unsubscribe Demo.stale_handle) Demo.recreated) !! "c" = None.
Proof.
  destruct (unsubscribe_clears_by_name Demo.recreated Demo.stale_handle
              (set_subscribers [] (Sample.object_of "c" Demo.cleaning)) 1%nat
              (Sample.channel_on Demo.recreated "c"))
    as (_ & Hgone & _); try (vm_compute; reflexivity); [discriminate|].
  split; [vm_compute; reflexivity|]. split; [vm_compute; reflexivity|].
  split; [vm_compute; reflexivity|exact Hgone].
Defined.

Lemma clearAll_clears_every_channel_witness :
  result (clearAll VUndefined) Demo.three_channels = Normal tt
  ∧ channels (exec (clearAll VUndefined) Demo.three_channels) = ∅
  ∧ calls_at SOnClear "s" (produced (clearAll VUndefined) Demo.three_channels) =
      [(1000, Invoke SOnClear "s" 3 [])].
Proof.
  destruct (clearAll_clears_every_channel Demo.three_channels VUndefined
              three_channels_registry ltac:(vm_compute; reflexivity))
    as (Hres & Hempty & Hall).
  destruct (Hall "s" 1%nat (Sample.channel_on Demo.three_channels "s")
              ltac:(vm_compute; reflexivity) ltac:(vm_compute; reflexivity))
    as (_ & _ & Hclear).
  vm_compute in Hclear. exact (conj Hres (conj Hempty Hclear)).
Defined.

Lemma clearAll_by_storage_witness :
  channels (exec (clearAll (VString "session")) Demo.three_channels) !! "s" = None
  ∧ channels (exec (clearAll (VString "session")) Demo.three_channels) !! "l" = Some 2%nat
  ∧ result (getValue "l") (exec (clearAll (VString "session")) Demo.three_channels) =
      Normal (VNumber 2)
  ∧ localStorage (exec (clearAll (VString "session")) Demo.three_channels) =
      localStorage Demo.three_channels.
Proof.
  destruct (clearAll_by_storage Demo.three_channels session three_channels_registry)
    as (_ & Hall & _ & Hlocal).
  pose proof (Hall "s" 1%nat (Sample.channel_on Demo.three_channels "s")
                ltac:(vm_compute; reflexivity) ltac:(vm_compute; reflexivity)) as Hs.
  pose proof (Hall "l" 2%nat (Sample.channel_on Demo.three_channels "l")
                ltac:(vm_compute; reflexivity) ltac:(vm_compute; reflexivity)) as Hl.
  cbn [bool_decide] in Hs, Hl.
  change (bool_decide (storage (Sample.channel_on Demo.three_channels "s") = session))
    with true in Hs.
  change (bool_decide (storage (Sample.channel_on Demo.three_channels "l") = session))
    with false in Hl.
  destruct Hs as [Hs _]. destruct Hl as (Hl1 & Hl2 & _).
  split; [exact Hs|]. split; [exact Hl1|]. split; [exact Hl2|].
  apply Hlocal. discriminate.
Defined.

Lemma clearAll_other_argument_clears_nothing_witness :
  clearAll (VBool true) Demo.three_channels = (Normal tt, Demo.three_channels).
Proof.
  apply (clearAll_other_argument_clears_nothing Demo.three_channels (VBool true)
           three_channels_registry); [vm_compute; reflexivity|].
  intros mode. by destruct mode.
Defined.

Lemma beforeunload_is_clearAll_memory_witness :
  beforeunload Demo.three_channels = clearAll (VString "memory") Demo.three_channels
  ∧ channels (exec beforeunload Demo.three_channels) = {[ "s" := 1%nat; "l" := 2%nat ]}.
Proof.
  split; [apply (beforeunload_is_clearAll_memory Demo.three_channels three_channels_registry)|].
  vm_compute. reflexivity.
Defined.

Lemma throwing_listener_registry : registry_wf Demo.throwing_listener.
Proof.
  split; [by_computation|by_computation|]. intros H. by destruct H.
Defined.

Lemma emit_never_throws_witness :
  result (emit "e" (VNumber 3)) Demo.throwing_listener = Normal tt
  ∧ errors_at SListener "e" (produced (emit "e" (VNumber 3)) Demo.throwing_listener) =
      [(1000, ConsoleError SListener "e" (VString "boom"))].
Proof.
  split; [apply (emit_never_throws Demo.throwing_listener "e" (VNumber 3)
                   throwing_listener_registry)|].
  vm_compute. reflexivity.
Defined.

Lemma three_channels_wf : page_wf Demo.three_channels.
Proof.
  split; [wf_field|wf_field|wf_field|wf_field|wf_field| |wf_field].
  intros n n' a Hn Hn'.
  assert (Hch : channels Demo.three_channels
                = <["m" := 0%nat]> (<["s" := 1%nat]> (<["l" := 2%nat]> ∅)))
    by (vm_compute; reflexivity).
  rewrite Hch in Hn, Hn'.
  rewrite !lookup_insert_Some, lookup_empty in Hn.
  rewrite !lookup_insert_Some, lookup_empty in Hn'.
  destruct Hn as [[<- <-]|[? [[<- <-]|[? [[<- <-]|[? ?]]]]]];
    destruct Hn' as [[<- Ha]|[? [[<- Ha]|[? [[<- Ha]|[? ?]]]]]];
    try done; discriminate.
Defined.

Lemma listChannels_follows_creation_witness :
  result listChannels (exec (channel "x" None) Demo.three_channels) =
    Normal ["m"; "s"; "l"; "x"]
  ∧ result listChannels (exec (clear "s") Demo.three_channels) = Normal ["m"; "l"].
Proof.
  apply (listChannels_follows_creation Demo.three_channels "x" "s" None ["m"; "s"; "l"]
           three_channels_wf three_channels_registry);
    vm_compute; reflexivity.
Defined.

Lemma getChannelInfo_of_new_channel_witness :
  result (getChannelInfo "n") (at_time 1500 (exec (channel "n" (Some Demo.expiring)) Sample.page))
    = Normal (Some {| info_storage := session; info_storageKey := "lithium:n";
                      info_subscribersCount := 0; info_ttl := Some 5000;
                      info_autoCleanup := false; info_createdAt := 1000;
                      info_age := 500 |}).
Proof.
  unfold result.
  rewrite (getChannelInfo_of_new_channel Sample.page "n" (Some Demo.expiring) 1500
             ltac:(vm_compute; reflexivity)).
  vm_compute. reflexivity.
Defined.

Lemma sample_page_wf : page_wf Sample.page.
Proof.
  split; [wf_field|wf_field|wf_field|wf_field|wf_field| |wf_field].
  intros n n' a Hn. vm_compute in Hn. discriminate.
Defined.

Lemma ttl_expires_channel_witness :
  (channels (exec (runTimers 5999) (exec (channel "n" (Some Demo.expiring)) Sample.page))
     !! "n" = Some 0%nat
   ∧ channels (exec (runTimers 6000) (exec (channel "n" (Some Demo.expiring)) Sample.page))
       !! "n" = None
   ∧ calls_at SOnClear "n"
       (produced (runTimers 6000) (exec (channel "n" (Some Demo.expiring)) Sample.page)) =
       [(6000, Invoke SOnClear "n" 3 [])])
  ∧ channels (exec (runTimers 1001) (exec (channel "n" (Some Demo.overlong)) Sample.page))
      !! "n" = None.
Proof.
  assert (Hdue : Forall (fun tm => clock Sample.page + 5000 < due tm) (timers Sample.page))
    by (vm_compute; constructor).
  assert (Hdue' : Forall (fun tm => clock Sample.page + 1 < due tm) (timers Sample.page))
    by (vm_compute; constructor).
  assert (Hpos : 0 < 5000) by lia.
  assert (Hpos' : 0 < 2147483648) by lia.
  split.
  - destruct (ttl_expires_channel Sample.page "n" Demo.expiring 5000 sample_page_wf
                ltac:(vm_compute; reflexivity) ltac:(vm_compute; reflexivity) Hpos Hdue)
      as (_ & _ & Hbefore & Hafter & _ & _ & Hclear & _).
    split; [apply (Hbefore 5999); vm_compute; reflexivity|].
    split; [exact Hafter|]. vm_compute in Hclear. vm_compute. exact Hclear.
  - destruct (ttl_expires_channel Sample.page "n" Demo.overlong 2147483648 sample_page_wf
                ltac:(vm_compute; reflexivity) ltac:(vm_compute; reflexivity) Hpos' Hdue')
      as (_ & _ & _ & Hafter & _).
    exact Hafter.
Defined.

Lemma emit_delivers_in_registration_order_witness :
  calls_at SListener "e" (produced (emit "e" (VNumber 3)) Demo.two_listeners) =
    [(1000, Invoke SListener "e" 5 [VNumber 3]); (1000, Invoke SListener "e" 6 [VNumber 6])]
  ∧ calls_at SListener "e" (produced (emit "e" (VNumber (-3))) Demo.two_listeners) =
      [(1000, Invoke SListener "e" 5 [VNumber (-3)])].
Proof.
  assert (Hregs : Forall2
            (fun r reg => registrations Demo.two_listeners !! r = Some reg
                          ∧ eventName reg = "e" ∧ immediate reg)
            [1%nat; 2%nat]
            [Sample.registration_on Demo.two_listeners 1%nat;
             Sample.registration_on Demo.two_listeners 2%nat]).
  { repeat constructor; vm_compute; reflexivity. }
  assert (Hnd : NoDup [1%nat; 2%nat]) by (apply (bool_decide_unpack _); vm_compute; exact I).
  destruct (emit_delivers_in_registration_order Demo.two_listeners "e" (VNumber 3) 0%nat
              [1%nat; 2%nat] _ ltac:(vm_compute; reflexivity) ltac:(vm_compute; reflexivity)
              Hnd Hregs) as [_ H3].
  destruct (emit_delivers_in_registration_order Demo.two_listeners "e" (VNumber (-3)) 0%nat
              [1%nat; 2%nat] _ ltac:(vm_compute; reflexivity) ltac:(vm_compute; reflexivity)
              Hnd Hregs) as [_ Hm3].
  vm_compute in H3, Hm3. vm_compute. exact (conj H3 Hm3).
Defined.


Lemma once_listener_runs_once_then_leaves_witness :
  eventListeners (exec (emit "e" (VNumber 1)) Demo.once_listener) !! "e" = None
  ∧ calls_at SListener "e"
      (drop (length (trace Demo.once_listener))
         (trace (emit_all "e" [VNumber 2; VNumber 3]
                   (exec (emit "e" (VNumber 1)) Demo.once_listener)))) =
      [(1000, Invoke SListener "e" 5 [VNumber 1])].
Proof.
  destruct (once_listener_runs_once_then_leaves Demo.once_listener "e" 0%nat 1%nat
              (Sample.registration_on Demo.once_listener 1%nat) (VNumber 1) (VNumber 1)
              VUndefined [VNumber 2; VNumber 3])
    as (Hgone & _ & Hcalls); try (vm_compute; reflexivity).
  split; [exact Hgone|]. vm_compute in Hcalls. vm_compute. exact Hcalls.
Defined.

Lemma persisted_value_is_restored_witness :
  result (getValue "n") (exec (channel "n" (Some Demo.in_session)) Demo.reloaded) =
    Normal (VNumber 42).
Proof.
  apply (persisted_value_is_restored Sample.transformed_page "n" 0%nat
           (Sample.channel_on Sample.transformed_page "n") (VNumber 21) (VNumber 42) "42"
           Demo.reloaded "n" Demo.in_session);
    try (vm_compute; reflexivity); discriminate.
Defined.

Lemma memory_channel_leaves_storage_alone_witness :
  sessionStorage (exec (publish "c" (VNumber 5)) Sample.throttled_page) =
    sessionStorage Sample.throttled_page
  ∧ localStorage (exec (clear "c") Sample.throttled_page) = localStorage Sample.throttled_page.
Proof.
  destruct (memory_channel_leaves_storage_alone Sample.throttled_page "c" 0%nat
              (Sample.channel_on Sample.throttled_page "c") (VNumber 5))
    as (H1 & _ & _ & H4); try (vm_compute; reflexivity).
  exact (conj H1 H4).
Defined.
